(** * TaskMaster Pro: task inference and priority scheduling engine

    A shallow embedding of [SchedulingService.ts] and of the Gemini task
    service ([GeminiService]) of the TaskMaster Pro tool, with the
    properties of the engine proved over it.

    JavaScript numbers are IEEE-754 binary64 values and are modelled by the
    primitive [float] type, whose operations are the same binary64
    operations; strings are sequences of UTF-16 code units; the clock, the
    random generator, the calendar and the remote service belong to the host
    and are read through an explicit [World]. *)

From Stdlib Require Import List ZArith NArith Bool Lia Permutation Floats String Ascii.
Import ListNotations.
Set Warnings "-inexact-float,-register-all".

(** ** The JavaScript values the engine computes with *)

Module Js.

(** A JS [number]. *)
Definition number := float.

(** [ToBoolean] on a number: [+0], [-0] and [NaN] are falsy. *)
Definition falsy (x : number) : bool := is_zero x || is_nan x.

(** The number nearest to a mathematical integer (round to nearest, ties to
    even), as the runtime produces it for integer literals, [parseInt] and
    time values. *)
Definition ofZ (z : Z) : number := SF2Prim (binary_normalize prec emax z 0 false).

(** [Math.max(a, b)] and [Math.min(a, b)]: [NaN] is contagious and [+0] is
    larger than [-0]. *)
Definition Math_max (a b : number) : number :=
  if is_nan a || is_nan b then nan
  else if (a <? b)%float then b
  else if (b <? a)%float then a
  else if get_sign a then b else a.

Definition Math_min (a b : number) : number :=
  if is_nan a || is_nan b then nan
  else if (a <? b)%float then a
  else if (b <? a)%float then b
  else if get_sign a then a else b.

(** [a > b] on numbers. *)
Definition gt (a b : number) : bool := (b <? a)%float.

(** A JS string: its UTF-16 code units. *)
Definition char16 := N.
Bind Scope N_scope with char16.
Definition JsString := list char16.

Fixpoint u16 (s : string) : JsString :=
  match s with
  | EmptyString => []
  | String c s' => N_of_ascii c :: u16 s'
  end.

Definition char16_eqb (a b : char16) : bool := N.eqb a b.

Fixpoint str_eqb (a b : JsString) : bool :=
  match a, b with
  | [], [] => true
  | x :: a', y :: b' => char16_eqb x y && str_eqb a' b'
  | _, _ => false
  end.

(** [parts.join(sep)] on an array of strings. *)
Fixpoint join (sep : JsString) (parts : list JsString) : JsString :=
  match parts with
  | [] => []
  | [p] => p
  | p :: rest => p ++ sep ++ join sep rest
  end.

(** Decimal digits of a natural number, most significant first; [fuel]
    bounds the number of digits. *)
Fixpoint digits_of (fuel : nat) (n : N) (acc : JsString) : JsString :=
  match fuel with
  | O => acc
  | S fuel' =>
      let acc' := (48 + N.modulo n 10)%N :: acc in
      if (n <? 10)%N then acc' else digits_of fuel' (N.div n 10) acc'
  end.

(** [String(z)] for an integer [z] below 10^21 in magnitude, which covers
    every time value. *)
Definition string_of_Z (z : Z) : JsString :=
  let n := Z.abs_N z in
  let ds := digits_of (S (N.to_nat (N.log2 n))) n [] in
  if (z <? 0)%Z then 45%N :: ds else ds.

(** A [Date] object: an invalid date, or a time value in milliseconds
    since the epoch. *)
Inductive Date :=
| InvalidDate
| TimeValue (t : Z).

(** [d.getTime()]. *)
Definition getTime (d : Date) : number :=
  match d with
  | InvalidDate => nan
  | TimeValue t => ofZ t
  end.

(** [a < b] on two [Date] objects compares their time values. *)
Definition date_lt (a b : Date) : bool := (getTime a <? getTime b)%float.

(** [`${d.getTime()}`]. *)
Definition string_of_time (d : Date) : JsString :=
  match d with
  | InvalidDate => u16 "NaN"
  | TimeValue t => string_of_Z t
  end.

(** A value of type [any], as [JSON.parse] produces them: an object is
    the list of its own properties. *)
Inductive JsValue :=
| JUndefined
| JNull
| JBool (b : bool)
| JNum (x : number)
| JStr (s : JsString)
| JArr (items : list JsValue)
| JObj (props : list (JsString * JsValue)).

Inductive Error :=
| TypeError
| SyntaxError
| ErrorMessage (msg : JsString)
| FetchRejected.

(** The outcome of an evaluation that may throw. *)
Inductive Result (A : Type) :=
| Ok (a : A)
| Throw (e : Error).
Arguments Ok {A} a.
Arguments Throw {A} e.

End Js.

(** ** Regular expressions

    A backtracking matcher with the priorities of the language's own: the
    left alternative first, a greedy star the longest first, a lazy star the
    shortest first, and no iteration of a star on the empty string. The
    patterns of this code use no anchors, no look-around and no
    back-references, and every literal character of theirs is ASCII. *)

Module RegExp.
Import Js.

Inductive regex :=
| Empty
| Char (c : char16)
| Class (p : char16 -> bool)
| Seq (a b : regex)
| Alt (a b : regex)
| Star (greedy : bool) (a : regex)
| Group (n : nat) (a : regex).

Definition Plus (a : regex) : regex := Seq a (Star true a).
Definition Opt (a : regex) : regex := Alt a Empty.

(** A literal word such as [urgent]. *)
Fixpoint Lit (s : JsString) : regex :=
  match s with
  | [] => Empty
  | [c] => Char c
  | c :: s' => Seq (Char c) (Lit s')
  end.

(** [a|b|c]. *)
Fixpoint AltOf (rs : list regex) : regex :=
  match rs with
  | [] => Class (fun _ => false)
  | [r] => r
  | r :: rest => Alt r (AltOf rest)
  end.

Definition Words (ws : list string) : regex := AltOf (map (fun w => Lit (u16 w)) ws).

Definition is_digit (c : char16) : bool := ((48 <=? c) && (c <=? 57))%N.

Definition is_word (c : char16) : bool :=
  (((65 <=? c) && (c <=? 90)) || ((97 <=? c) && (c <=? 122)) || is_digit c || (c =? 95))%N.

(** [\s]: white space and line terminators. *)
Definition is_space (c : char16) : bool :=
  (((9 <=? c) && (c <=? 13)) || (c =? 32) || (c =? 160) || (c =? 5760)
   || ((8192 <=? c) && (c <=? 8202)) || (c =? 8232) || (c =? 8233)
   || (c =? 8239) || (c =? 8287) || (c =? 12288) || (c =? 65279))%N.

(** Case folding of the [i] flag on an ASCII letter; a code unit outside
    ASCII never folds to an ASCII one. *)
Definition canonicalize (c : char16) : char16 :=
  if ((97 <=? c) && (c <=? 122))%N then (c - 32)%N else c.

Definition char_matches (ignoreCase : bool) (c x : char16) : bool :=
  if ignoreCase then char16_eqb (canonicalize c) (canonicalize x) else char16_eqb c x.

Definition Captures := list (nat * JsString).

Fixpoint capture (n : nat) (caps : Captures) : option JsString :=
  match caps with
  | [] => None
  | (m, s) :: rest => if Nat.eqb m n then Some s else capture n rest
  end.

Definition MatchState : Type := JsString * Captures.

Definition Continuation : Type := JsString -> Captures -> option MatchState.

(** The iterations of a star whose body is matched by [step]: one more
    iteration, which has to consume something, or the rest of the pattern,
    in the order the star's greed decides. [fuel] bounds the iterations
    and is the length of the text at the start. *)
Fixpoint star_loop (step : JsString -> Captures -> Continuation -> option MatchState)
    (greedy : bool) (k : Continuation) (fuel : nat) (s : JsString) (caps : Captures)
    {struct fuel} : option MatchState :=
  let again (_ : unit) :=
    match fuel with
    | O => None
    | S fuel' =>
        step s caps
          (fun s' caps' =>
             if Nat.ltb (List.length s') (List.length s)
             then star_loop step greedy k fuel' s' caps' else None)
    end in
  if greedy then
    match again tt with
    | Some m => Some m
    | None => k s caps
    end
  else
    match k s caps with
    | Some m => Some m
    | None => again tt
    end.

(** [run i r s caps k]: match [r] at the start of [s], then continue with
    [k] on what is left; [None] when every alternative fails. *)
Fixpoint run (ignoreCase : bool) (r : regex) (s : JsString) (caps : Captures)
    (k : Continuation) {struct r} : option MatchState :=
  match r with
  | Empty => k s caps
  | Char c =>
      match s with
      | x :: s' => if char_matches ignoreCase c x then k s' caps else None
      | [] => None
      end
  | Class p =>
      match s with
      | x :: s' => if p x then k s' caps else None
      | [] => None
      end
  | Seq a b => run ignoreCase a s caps (fun s' caps' => run ignoreCase b s' caps' k)
  | Alt a b =>
      match run ignoreCase a s caps k with
      | Some m => Some m
      | None => run ignoreCase b s caps k
      end
  | Star greedy a => star_loop (run ignoreCase a) greedy k (List.length s) s caps
  | Group n a =>
      run ignoreCase a s caps
        (fun s' caps' => k s' ((n, firstn (List.length s - List.length s') s) :: caps'))
  end.

Record Match := {
  before : JsString;      (* the text in front of the match *)
  matched : JsString;     (* [m[0]] *)
  after : JsString;       (* the text behind the match *)
  groups : Captures
}.

(** [r.exec(s)] without the [g] flag: the leftmost match. *)
Fixpoint exec (ignoreCase : bool) (r : regex) (s : JsString) : option Match :=
  match run ignoreCase r s [] (fun s' caps => Some (s', caps)) with
  | Some (rest, caps) =>
      Some {| before := []; matched := firstn (List.length s - List.length rest) s;
              after := rest; groups := caps |}
  | None =>
      match s with
      | [] => None
      | x :: s' =>
          match exec ignoreCase r s' with
          | Some m => Some {| before := x :: before m; matched := matched m;
                              after := after m; groups := groups m |}
          | None => None
          end
      end
  end.

(** [r.test(s)]. *)
Definition test (ignoreCase : bool) (r : regex) (s : JsString) : bool :=
  match exec ignoreCase r s with Some _ => true | None => false end.

(** [s.replace(r, replacement)] with the [g] flag and a replacement text
    without [$]: every match, left to right, each search resuming behind
    the previous match (one code unit further after an empty match). *)
Fixpoint replace_loop (fuel : nat) (ignoreCase : bool) (r : regex)
    (replacement s : JsString) : JsString :=
  match fuel with
  | O => s
  | S fuel' =>
      match exec ignoreCase r s with
      | None => s
      | Some m =>
          match matched m, after m with
          | [], [] => before m ++ replacement
          | [], x :: rest =>
              before m ++ replacement ++ x :: replace_loop fuel' ignoreCase r replacement rest
          | _ :: _, rest =>
              before m ++ replacement ++ replace_loop fuel' ignoreCase r replacement rest
          end
      end
  end.

Definition replace_all (ignoreCase : bool) (r : regex) (replacement s : JsString) : JsString :=
  replace_loop (S (List.length s)) ignoreCase r replacement s.

End RegExp.

(** ** String methods *)

Module Str.
Import Js RegExp.

Fixpoint trimStart (s : JsString) : JsString :=
  match s with
  | c :: s' => if is_space c then trimStart s' else s
  | [] => []
  end.

(** [s.trim()]. *)
Definition trim (s : JsString) : JsString := rev (trimStart (rev (trimStart s))).

(** [s.split('\n')]. *)
Fixpoint split_lines (s : JsString) : list JsString :=
  match s with
  | [] => [[]]
  | c :: s' =>
      match split_lines s' with
      | line :: rest => if (c =? 10)%N then [] :: line :: rest else (c :: line) :: rest
      | [] => [[c]]
      end
  end.

(** [s.toLowerCase()] on ASCII text. *)
Definition toLowerCase (s : JsString) : JsString :=
  map (fun c => if ((65 <=? c) && (c <=? 90))%N then (c + 32)%N else c) s.

(** [s.startsWith(p)]. *)
Fixpoint startsWith (p s : JsString) : bool :=
  match p, s with
  | [], _ => true
  | a :: p', b :: s' => char16_eqb a b && startsWith p' s'
  | _ :: _, [] => false
  end.

(** [parseInt(s)] on a run of decimal digits. *)
Definition digits_value (s : JsString) : Z :=
  fold_left (fun acc c => (10 * acc + (Z.of_N c - 48))%Z) s 0%Z.

Definition parseInt (s : JsString) : number := ofZ (digits_value s).

End Str.

(** ** The host: clock, random generator, calendar, remote service

    Every reading of the system clock takes the next value of [clock] and
    every request the next reply of [fetch]; nothing is assumed about them.
    The conversions the runtime performs between text and numbers or dates
    are the runtime's own and are taken from it as they are. *)

Module Host.
Import Js.

(** What [fetch] and [response.json()] deliver for one request. *)
Inductive FetchOutcome :=
| Rejected                                   (* the request itself failed *)
| Response (ok : bool) (status_line : JsString) (body : option JsValue).
                                             (* [body = None]: not JSON *)

Record Environment := {
  clock : nat -> Z;            (* successive readings of the clock, in ms *)
  random : nat -> JsString;    (* successive values of
                                  [Math.random().toString(36).substr(2, 9)] *)
  workday_end : Z -> Z -> Z;   (* [workday_end t n]: the time value of 17:00
                                  local time, [n] days after the local
                                  calendar day of [t] *)
  fetch : nat -> JsString -> JsString -> FetchOutcome;
                               (* the reply to the n-th request, given the
                                  key and the text sent *)
  JSON_parse : JsString -> option JsValue;
  numeric_literal_value : JsString -> number;
                               (* the value of a numeric literal *)
  Number_toString : number -> JsString;
  Date_parse : JsString -> Date
}.

Inductive LogEntry :=
| Warn (msg : JsString)
| LogError (msg : JsString) (e : Error).

Record World := {
  env : Environment;
  ticks : nat;                 (* clock readings taken so far *)
  draws : nat;                 (* random values drawn so far *)
  requests : nat;              (* requests sent so far *)
  console : list LogEntry      (* most recent first *)
}.

(** Computations that read the host and may throw. *)
Definition M (A : Type) := World -> Result A * World.

Definition ret {A} (a : A) : M A := fun w => (Ok a, w).

Definition bind {A B} (c : M A) (k : A -> M B) : M B :=
  fun w =>
    match c w with
    | (Ok a, w') => k a w'
    | (Throw e, w') => (Throw e, w')
    end.

Definition throw {A} (e : Error) : M A := fun w => (Throw e, w).

(** [try { c } catch (error) { h error }]. *)
Definition try_catch {A} (c : M A) (h : Error -> M A) : M A :=
  fun w =>
    match c w with
    | (Ok a, w') => (Ok a, w')
    | (Throw e, w') => h e w'
    end.

Definition lift {A} (r : Result A) : M A := fun w => (r, w).

Definition get_env : M Environment := fun w => (Ok (env w), w).

(** [Date.now()]. *)
Definition Date_now : M Z :=
  fun w => (Ok (clock (env w) (ticks w)),
            {| env := env w; ticks := S (ticks w); draws := draws w;
               requests := requests w; console := console w |}).

(** [new Date()]. *)
Definition new_Date : M Date := bind Date_now (fun t => ret (TimeValue t)).

(** [Math.random().toString(36).substr(2, 9)]. *)
Definition random_suffix : M JsString :=
  fun w => (Ok (random (env w) (draws w)),
            {| env := env w; ticks := ticks w; draws := S (draws w);
               requests := requests w; console := console w |}).

(** [await fetch(url, { method: 'POST', ... })]. *)
Definition send (key text : JsString) : M FetchOutcome :=
  fun w => (Ok (fetch (env w) (requests w) key text),
            {| env := env w; ticks := ticks w; draws := draws w;
               requests := S (requests w); console := console w |}).

Definition log (entry : LogEntry) : M unit :=
  fun w => (Ok tt,
            {| env := env w; ticks := ticks w; draws := draws w;
               requests := requests w; console := entry :: console w |}).

(** [xs.map(f)] for a callback that reads the host or throws: the elements
    are visited in order and the first exception ends the traversal. *)
Fixpoint mapM {A B} (f : A -> M B) (xs : list A) : M (list B) :=
  match xs with
  | [] => ret []
  | x :: rest =>
      bind (f x) (fun y => bind (mapM f rest) (fun ys => ret (y :: ys)))
  end.

End Host.

(** ** Operations of the language on values of type [any] *)

Module Dyn.
Import Js RegExp Str Host.

(** [ToBoolean]. *)
Definition truthy (v : JsValue) : bool :=
  match v with
  | JUndefined | JNull => false
  | JBool b => b
  | JNum x => negb (falsy x)
  | JStr s => match s with [] => false | _ => true end
  | JArr _ | JObj _ => true
  end.

(** [a || b]. *)
Definition or_else (a b : JsValue) : JsValue := if truthy a then a else b.

Fixpoint lookup (name : JsString) (props : list (JsString * JsValue)) : option JsValue :=
  match props with
  | [] => None
  | (k, v) :: rest => if str_eqb k name then Some v else lookup name rest
  end.

Definition has_key (name : JsString) (props : list (JsString * JsValue)) : bool :=
  match lookup name props with Some _ => true | None => false end.

(** [v.name] for a property name that no built-in prototype defines, as
    all the names read from a payload are: reading from [undefined] or
    [null] throws, an object gives its own property, anything else
    [undefined]. *)
Definition get (v : JsValue) (name : string) : Result JsValue :=
  match v with
  | JUndefined | JNull => Throw TypeError
  | JObj props =>
      match lookup (u16 name) props with
      | Some x => Ok x
      | None => Ok JUndefined
      end
  | _ => Ok JUndefined
  end.

(** [v?.name]. *)
Definition get_opt (v : JsValue) (name : string) : JsValue :=
  match get v name with
  | Ok x => x
  | Throw _ => JUndefined
  end.

(** [v?.[0]]. *)
Definition first_opt (v : JsValue) : JsValue :=
  match v with
  | JArr (x :: _) => x
  | JStr (c :: _) => JStr [c]
  | JObj props =>
      match lookup (u16 "0") props with
      | Some x => x
      | None => JUndefined
      end
  | _ => JUndefined
  end.

(** [StrNumericLiteral]: a signed decimal literal or [Infinity], or an
    unsigned binary, octal or hexadecimal integer. *)
Definition numeric_literal : regex :=
  let digits := Plus (Class is_digit) in
  let sign := Opt (Alt (Char 43) (Char 45)) in
  let exponent := Opt (Seq (Alt (Char 101) (Char 69)) (Seq sign digits)) in
  let hex c := (is_digit c || ((65 <=? c) && (c <=? 70)) || ((97 <=? c) && (c <=? 102)))%N in
  let octal c := ((48 <=? c) && (c <=? 55))%N in
  let binary c := ((c =? 48) || (c =? 49))%N in
  AltOf
    [ Seq sign
        (AltOf
           [ Lit (u16 "Infinity");
             Seq digits (Seq (Opt (Seq (Char 46) (Star true (Class is_digit)))) exponent);
             Seq (Char 46) (Seq digits exponent) ]);
      Seq (Char 48) (Seq (Alt (Char 120) (Char 88)) (Plus (Class hex)));
      Seq (Char 48) (Seq (Alt (Char 111) (Char 79)) (Plus (Class octal)));
      Seq (Char 48) (Seq (Alt (Char 98) (Char 66)) (Plus (Class binary))) ].

Definition matches_whole (r : regex) (s : JsString) : bool :=
  match run false r s []
          (fun rest caps => match rest with [] => Some (rest, caps) | _ => None end) with
  | Some _ => true
  | None => false
  end.

Section Conversions.
Variable E : Environment.

(** [StringToNumber]: white space around the literal is ignored, the
    empty text is [0], text that is no numeric literal is [NaN]. *)
Definition StringToNumber (s : JsString) : number :=
  match trim s with
  | [] => 0%float
  | t => if matches_whole numeric_literal t then numeric_literal_value E t else nan
  end.

(** [ToString]. An array joins its elements with commas, [undefined] and
    [null] elements giving the empty text; a plain object gives
    [[object Object]], unless an own property hides [toString], which
    leaves it without a conversion. *)
Fixpoint ToString (v : JsValue) : Result JsString :=
  match v with
  | JUndefined => Ok (u16 "undefined")
  | JNull => Ok (u16 "null")
  | JBool b => Ok (if b then u16 "true" else u16 "false")
  | JNum x => Ok (Number_toString E x)
  | JStr s => Ok s
  | JArr items =>
      (fix join_items (xs : list JsValue) : Result JsString :=
         match xs with
         | [] => Ok []
         | x :: rest =>
             match (match x with
                    | JUndefined | JNull => Ok []
                    | _ => ToString x
                    end) with
             | Throw e => Throw e
             | Ok s =>
                 match rest with
                 | [] => Ok s
                 | _ =>
                     match join_items rest with
                     | Throw e => Throw e
                     | Ok s' => Ok (s ++ u16 "," ++ s')
                     end
                 end
             end
         end) items
  | JObj props =>
      if has_key (u16 "toString") props then Throw TypeError
      else Ok (u16 "[object Object]")
  end.

(** [ToNumber]. *)
Definition ToNumber (v : JsValue) : Result number :=
  match v with
  | JUndefined => Ok nan
  | JNull => Ok 0%float
  | JBool b => Ok (if b then 1%float else 0%float)
  | JNum x => Ok x
  | JStr s => Ok (StringToNumber s)
  | JArr _ | JObj _ =>
      match ToString v with
      | Ok s => Ok (StringToNumber s)
      | Throw e => Throw e
      end
  end.

(** [Math.min(a, v)] with a number and a value. *)
Definition min_with (a : number) (v : JsValue) : Result number :=
  match ToNumber v with
  | Ok x => Ok (Math_min a x)
  | Throw e => Throw e
  end.

(** The integer part of a finite number. *)
Definition truncate (x : number) : option Z :=
  match Prim2SF x with
  | S754_zero _ => Some 0%Z
  | S754_finite negative m e =>
      let magnitude :=
        match e with
        | Z0 => Zpos m
        | Zpos p => Z.shiftl (Zpos m) (Zpos p)
        | Zneg p => Z.shiftr (Zpos m) (Zpos p)
        end in
      Some (if negative then (- magnitude)%Z else magnitude)
  | S754_infinity _ | S754_nan => None
  end.

(** [TimeClip]. *)
Definition TimeClip (x : number) : Date :=
  match truncate x with
  | Some t => if (Z.abs t <=? 8640000000000000)%Z then TimeValue t else InvalidDate
  | None => InvalidDate
  end.

(** [new Date(v)]: text is parsed as a date, anything else is
    converted to a number and taken as a time value. *)
Definition new_Date_from (v : JsValue) : Result Date :=
  match v with
  | JStr s => Ok (Date_parse E s)
  | JArr _ | JObj _ =>
      match ToString v with
      | Ok s => Ok (Date_parse E s)
      | Throw e => Throw e
      end
  | _ =>
      match ToNumber v with
      | Ok x => Ok (TimeClip x)
      | Throw e => Throw e
      end
  end.

End Conversions.

End Dyn.

Declare Scope host_scope.
Delimit Scope host_scope with host.
Notation "x <- c ;; k" := (Host.bind c (fun x => k))
  (at level 61, c at next level, right associativity) : host_scope.
Notation "c ;;; k" := (Host.bind c (fun _ => k))
  (at level 61, right associativity) : host_scope.

(** ** The data model ([types/index.ts]) *)

Module Types.
Import Js.

Definition TaskPriority := number.
Definition TASK_PRIORITIES : list TaskPriority := [1; 2; 3; 4; 5]%float.

Inductive InferenceConfidence := low | medium | high.

Record StructuredTask := {
  id : JsString;
  title : JsString;
  deadline : option Date;
  priority : option TaskPriority;
  duration : option number;
  dependencies : option (list JsString);
  notes : option JsString;
  category : option JsString;
  splittable : option bool
}.

(** The keys of [InferredTask.inferences]. *)
Inductive InferenceField := priority_field | duration_field | deadline_field | category_field.

Definition field_name (f : InferenceField) : JsString :=
  match f with
  | priority_field => u16 "priority"
  | duration_field => u16 "duration"
  | deadline_field => u16 "deadline"
  | category_field => u16 "category"
  end.

Inductive InferenceValue :=
| NumberValue (x : number)
| DateValue (d : Date)
| TextValue (s : JsString).

Record Inference := {
  value : InferenceValue;
  confidence : InferenceConfidence;
  rationale : JsString
}.

(** [InferredTask extends StructuredTask]. The [inferences] object is kept
    as its own properties in insertion order, the order in which
    [Object.values] and [Object.entries] enumerate them; a property that is
    present and holds [undefined], which an optional property admits, is
    [None]. *)
Record InferredTask := {
  base :> StructuredTask;
  inferences : list (InferenceField * option Inference);
  conditionalHints : list JsString
}.

Record WorkingHours := { start : JsString; end_ : JsString }.

Record HardCommitment := {
  commitment_id : JsString;
  commitment_title : JsString;
  startTime : Date;
  endTime : Date;
  description : option JsString
}.

Record PlanningSettings := {
  workingHours : WorkingHours;
  weekendsEnabled : bool;
  focusBlockLength : number;
  breakBuffer : number;
  hardCommitments : list HardCommitment
}.

Record PriorityScore := {
  urgency : number;
  importance : number;
  effortFit : number;
  dependencyReady : number;
  slackRisk : number;
  uncertaintyPenalty : number;
  total : number
}.

Record Explainability := {
  factors : list (JsString * number);
  assumptions : list JsString;
  conditionalGuidance : list JsString
}.

Record PlannedTask := {
  task : InferredTask;
  timeWindow : option (Date * Date);
  priorityScore : PriorityScore;
  schedulingReason : JsString;
  explainability : Explainability
}.

Record Sections := {
  now : list PlannedTask;
  next : list PlannedTask;
  later : list PlannedTask
}.

Record Metadata := {
  totalTasks : nat;
  totalDuration : number;
  planningDate : Date
}.

Record DailyPlan := {
  plan_id : JsString;
  date : Date;
  sections : Sections;
  ambiguousTasks : list JsString;
  overdueTasks : list PlannedTask;
  metadata : Metadata
}.

Record FreeformParseResult := {
  extractedTasks : list InferredTask;
  ambiguousLines : list JsString;
  parsingErrors : list JsString;
  parse_confidence : InferenceConfidence
}.

End Types.

(** ** [SchedulingService] *)

Module SchedulingService.
Import Js Host Types.
Local Open Scope host_scope.
Local Open Scope float_scope.

(** The [forEach] over [Object.values(task.inferences)]: reading
    [.confidence] of an [undefined] value throws. *)
Fixpoint penalty_loop (values : list (option Inference)) (uncertaintyPenalty : number)
  : Result number :=
  match values with
  | [] => Ok uncertaintyPenalty
  | None :: _ => Throw TypeError
  | Some inference :: rest =>
      penalty_loop rest
        match confidence inference with
        | low => uncertaintyPenalty + 0.1
        | medium => uncertaintyPenalty + 0.05
        | high => uncertaintyPenalty
        end
  end.

Definition urgency_at (now_ : Date) (t : InferredTask) : number :=
  match deadline t with
  | Some d =>
      let timeToDeadline := getTime d - getTime now_ in
      let hoursToDeadline := timeToDeadline / (1000 * 60 * 60) in
      if hoursToDeadline <? 4 then 1.0
      else if hoursToDeadline <? 24 then 0.9
      else if hoursToDeadline <? 72 then 0.7
      else 0.3
  | None => 0.5
  end.

Definition importance_of (t : InferredTask) : number :=
  match priority t with
  | Some p => if falsy p then 0.6 else p / 5
  | None => 0.6
  end.

(** The body of [calculatePriorityScore] once [now] has been read. *)
Definition score_at (now_ : Date) (t : InferredTask) : Result PriorityScore :=
  let urgency := urgency_at now_ t in
  let importance := importance_of t in
  let effortFit := 1.0 in
  let dependencyReady := 1.0 in
  let slackRisk := 1.0 in
  match penalty_loop (map snd (inferences t)) 0 with
  | Throw e => Throw e
  | Ok uncertaintyPenalty =>
      let baseScore := (urgency * 0.3) + (importance * 0.25) + (effortFit * 0.15) +
                       (dependencyReady * 0.15) + (slackRisk * 0.15) in
      let total := Math_max 0 (baseScore - uncertaintyPenalty) in
      Ok {| urgency := urgency;
            importance := importance;
            effortFit := effortFit;
            dependencyReady := dependencyReady;
            slackRisk := slackRisk;
            uncertaintyPenalty := uncertaintyPenalty;
            total := total |}
  end.

Definition calculatePriorityScore
    (t : InferredTask) (_settings : PlanningSettings) (_planDate : Date)
  : M PriorityScore :=
  now_ <- new_Date ;;
  lift (score_at now_ t).

Definition generateSchedulingReason (_task : InferredTask) (score : PriorityScore) : JsString :=
  let reasons :=
    (if gt (urgency score) 0.8 then [u16 "urgent deadline"]
     else if gt (urgency score) 0.6 then [u16 "approaching deadline"]
     else [])
    ++
    (if gt (importance score) 0.8 then [u16 "high priority"]
     else if importance score <? 0.4 then [u16 "lower priority"]
     else [])
    ++
    (if gt (uncertaintyPenalty score) 0.1 then [u16 "adjusted for inference uncertainty"]
     else []) in
  match reasons with
  | [] => u16 "Scheduled based on availability."
  | _ => u16 "Scheduled due to " ++ join (u16 ", ") reasons ++ u16 "."
  end.

Fixpoint extractAssumptions_loop (entries : list (InferenceField * option Inference))
  : Result (list JsString) :=
  match entries with
  | [] => Ok []
  | (_, None) :: _ => Throw TypeError
  | (field, Some inference) :: rest =>
      match extractAssumptions_loop rest with
      | Ok assumptions =>
          match confidence inference with
          | low | medium =>
              Ok ((field_name field ++ u16 ": " ++ rationale inference) :: assumptions)
          | high => Ok assumptions
          end
      | Throw e => Throw e
      end
  end.

Definition extractAssumptions (t : InferredTask) : Result (list JsString) :=
  extractAssumptions_loop (inferences t).

Definition Scored : Type := InferredTask * PriorityScore.

Definition plan_one (item : Scored) : Result PlannedTask :=
  let '(t, score) := item in
  match extractAssumptions t with
  | Ok assumptions =>
      Ok {| task := t;
            timeWindow := None;
            priorityScore := score;
            schedulingReason := generateSchedulingReason t score;
            explainability :=
              {| factors :=
                   [ (u16 "urgency", urgency score);
                     (u16 "importance", importance score);
                     (u16 "effortFit", effortFit score);
                     (u16 "dependencyReady", dependencyReady score);
                     (u16 "slackRisk", slackRisk score);
                     (u16 "uncertaintyPenalty", uncertaintyPenalty score) ];
                 assumptions := assumptions;
                 conditionalGuidance := conditionalHints t |} |}
  | Throw e => Throw e
  end.

Definition scheduleTasks (scoredTasks : list Scored)
    (_settings : PlanningSettings) (_planDate : Date) : M (list PlannedTask) :=
  mapM (fun item => lift (plan_one item)) scoredTasks.

(** [scoredTasks.sort((a, b) => b.score.total - a.score.total)]. The sort
    is stable: an element moves in front of another only when the
    comparator is positive for the pair in their current order. A [NaN]
    comparator value counts as zero. *)
Definition comparator (a b : Scored) : number := total (snd b) - total (snd a).

Fixpoint insert_sorted (x : Scored) (sorted : list Scored) : list Scored :=
  match sorted with
  | [] => [x]
  | y :: rest =>
      if gt (comparator x y) 0 then y :: insert_sorted x rest
      else x :: y :: rest
  end.

Definition sort (xs : list Scored) : list Scored := fold_right insert_sorted [] xs.

Definition in_now (p : PlannedTask) : bool :=
  gt (urgency (priorityScore p)) 0.8 || gt (total (priorityScore p)) 0.8.

Definition in_next (p : PlannedTask) : bool := gt (total (priorityScore p)) 0.5.

(** The [forEach] of [categorizeTasks], pushing each task on one of the
    three arrays. *)
Fixpoint categorize_loop (plannedTasks : list PlannedTask) (acc : Sections) : Sections :=
  match plannedTasks with
  | [] => acc
  | p :: rest =>
      categorize_loop rest
        (if in_now p then
           {| now := now acc ++ [p]; next := next acc; later := later acc |}
         else if in_next p then
           {| now := now acc; next := next acc ++ [p]; later := later acc |}
         else
           {| now := now acc; next := next acc; later := later acc ++ [p] |})
  end.

Definition categorizeTasks (plannedTasks : list PlannedTask)
    (_planDate : Date) (_settings : PlanningSettings) : Sections :=
  categorize_loop plannedTasks {| now := []; next := []; later := [] |}.

Definition is_overdue (now_ : Date) (p : PlannedTask) : bool :=
  match deadline (task p) with
  | Some d => date_lt d now_
  | None => false
  end.

Definition identifyOverdueTasks (plannedTasks : list PlannedTask) (_planDate : Date)
  : M (list PlannedTask) :=
  now_ <- new_Date ;;
  ret (filter (is_overdue now_) plannedTasks).

Definition duration_or_zero (t : InferredTask) : number :=
  match duration t with
  | Some d => if falsy d then 0 else d
  | None => 0
  end.

(** [planDate] is [None] when the caller leaves the argument out; the
    default [new Date()] is then evaluated on entry. *)
Definition generateDailyPlan
    (tasks : list InferredTask) (settings : PlanningSettings) (planDate : option Date)
  : M DailyPlan :=
  planDate <- match planDate with Some d => ret d | None => new_Date end ;;
  scoredTasks <- mapM (fun t =>
                         score <- calculatePriorityScore t settings planDate ;;
                         ret (t, score)) tasks ;;
  let scoredTasks := sort scoredTasks in
  plannedTasks <- scheduleTasks scoredTasks settings planDate ;;
  let sections := categorizeTasks plannedTasks planDate settings in
  overdueTasks <- identifyOverdueTasks plannedTasks planDate ;;
  stamp <- Date_now ;;
  planningDate <- new_Date ;;
  ret {| plan_id := u16 "plan-" ++ string_of_time planDate ++ u16 "-" ++ string_of_Z stamp;
         date := planDate;
         sections := sections;
         ambiguousTasks := [];
         overdueTasks := overdueTasks;
         metadata :=
           {| totalTasks := List.length tasks;
              totalDuration := fold_left (fun sum t => sum + duration_or_zero t) tasks 0;
              planningDate := planningDate |} |}.

End SchedulingService.

(** ** [GeminiService] *)

Module GeminiService.
Import Js RegExp Str Host Dyn Types.
Local Open Scope string_scope.
Local Open Scope list_scope.
Local Open Scope host_scope.
Local Open Scope float_scope.

(** *** The patterns of [parseTaskLine] and [mockFieldInference] *)

(** [/urgent|asap|critical|!!!/i] *)
Definition urgency_keywords : regex := Words ["urgent"; "asap"; "critical"; "!!!"].
(** [/important|high|!!/i] *)
Definition importance_keywords : regex := Words ["important"; "high"; "!!"].
(** [/low|minor|when time/i] *)
Definition low_priority_keywords : regex := Words ["low"; "minor"; "when time"].

(** [/(\d+)\s*(hour|hr|min|minute)s?/i] *)
Definition explicit_duration : regex :=
  Seq (Group 1 (Plus (Class is_digit)))
    (Seq (Star true (Class is_space))
       (Seq (Group 2 (Words ["hour"; "hr"; "min"; "minute"])) (Opt (Char 115)))).

(** [/research|analyze|develop|create/i] *)
Definition line_complexity_verbs : regex := Words ["research"; "analyze"; "develop"; "create"].
(** [/write|review|plan/i] *)
Definition line_medium_verbs : regex := Words ["write"; "review"; "plan"].

(** [/(today|tomorrow|by (\w+)|due (\w+))/i] *)
Definition deadline_pattern : regex :=
  Group 1
    (AltOf [ Lit (u16 "today"); Lit (u16 "tomorrow");
             Seq (Lit (u16 "by ")) (Group 2 (Plus (Class is_word)));
             Seq (Lit (u16 "due ")) (Group 3 (Plus (Class is_word))) ]).

(** [/urgent|asap|critical|important|high|low|minor|!!+/gi] *)
Definition stripped_keywords : regex :=
  AltOf [ Lit (u16 "urgent"); Lit (u16 "asap"); Lit (u16 "critical");
          Lit (u16 "important"); Lit (u16 "high"); Lit (u16 "low");
          Lit (u16 "minor"); Seq (Char 33) (Plus (Char 33)) ].

(** [/(today|tomorrow|by \w+|due \w+)/gi] *)
Definition stripped_deadline : regex :=
  Group 1
    (AltOf [ Lit (u16 "today"); Lit (u16 "tomorrow");
             Seq (Lit (u16 "by ")) (Plus (Class is_word));
             Seq (Lit (u16 "due ")) (Plus (Class is_word)) ]).

(** [/\s+/g] *)
Definition white_space : regex := Plus (Class is_space).

(** [/research|analyze|develop|design|create|build/i] *)
Definition title_complexity_verbs : regex :=
  Words ["research"; "analyze"; "develop"; "design"; "create"; "build"].
(** [/check|review|send|call|email/i] *)
Definition title_quick_verbs : regex := Words ["check"; "review"; "send"; "call"; "email"].

(** *** [generateConditionalHints] *)

Definition generateConditionalHints (priority : TaskPriority) (duration : number)
  : list JsString :=
  (if 4 <=? priority
   then [u16 "If priority drops to medium, this task will be rescheduled after other high-priority items."]
   else [])
  ++ (if gt duration 90
      then [u16 "This task may be split into smaller blocks if schedule is tight."]
      else [])
  ++ (if priority <=? 2
      then [u16 "This task will be scheduled in available time slots after higher priority work."]
      else []).

(** *** [parseTaskLine] *)

(** The value, confidence and rationale a line gives for one field. *)
Definition Extracted (V : Type) : Type := V * InferenceConfidence * JsString.

Definition line_priority (line : JsString) : Extracted TaskPriority :=
  if test true urgency_keywords line then
    (5, high, u16 "Detected urgency keywords")
  else if test true importance_keywords line then
    (4, medium, u16 "Detected importance keywords")
  else if test true low_priority_keywords line then
    (2, medium, u16 "Detected low priority indicators")
  else
    (3, low, u16 "Assumed medium priority (no indicators found)").

Definition line_duration (line : JsString) : Extracted number :=
  match exec true explicit_duration line with
  | Some durationMatch =>
      let value :=
        match capture 1 (groups durationMatch) with
        | Some digits => parseInt digits
        | None => nan
        end in
      let unit_ :=
        match capture 2 (groups durationMatch) with
        | Some u => toLowerCase u
        | None => []
        end in
      (if startsWith (u16 "h") unit_ then value * 60 else value,
       high, u16 "Extracted from text")
  | None =>
      if Nat.ltb 100 (List.length line) || test true line_complexity_verbs line then
        (120, low, u16 "Estimated based on task complexity")
      else if Nat.ltb 50 (List.length line) || test true line_medium_verbs line then
        (60, low, u16 "Estimated based on task type")
      else
        (30, low, u16 "Default estimate for simple tasks")
  end.

Definition line_deadline (line : JsString) : M (option (Extracted Date)) :=
  match exec true deadline_pattern line with
  | Some deadlineMatch =>
      now_ <- Date_now ;;
      E <- get_env ;;
      let word :=
        match capture 1 (groups deadlineMatch) with
        | Some g => toLowerCase g
        | None => []
        end in
      if str_eqb word (u16 "today") then
        ret (Some (TimeValue (workday_end E now_ 0), high, u16 "Due today by end of work day"))
      else if str_eqb word (u16 "tomorrow") then
        ret (Some (TimeValue (workday_end E now_ 1), high, u16 "Due tomorrow by end of work day"))
      else ret None
  | None => ret None
  end.

Definition clean_title (line : JsString) : JsString :=
  trim
    (replace_all false white_space (u16 " ")
       (replace_all true stripped_deadline []
          (replace_all true explicit_duration []
             (replace_all true stripped_keywords [] line)))).

(** [None] is the [null] the function returns for an empty title. *)
Definition parseTaskLine (line : JsString) : M (option InferredTask) :=
  stamp <- Date_now ;;
  suffix <- random_suffix ;;
  let taskId := u16 "task-" ++ string_of_Z stamp ++ u16 "-" ++ suffix in
  let '(priority, priorityConfidence, priorityRationale) := line_priority line in
  let '(duration, durationConfidence, durationRationale) := line_duration line in
  found <- line_deadline line ;;
  let title := clean_title line in
  match title with
  | [] => ret None
  | _ =>
      ret (Some
             {| base :=
                  {| id := taskId;
                     title := title;
                     deadline := option_map (fun x => fst (fst x)) found;
                     priority := Some priority;
                     duration := Some duration;
                     dependencies := None;
                     notes := None;
                     category := None;
                     splittable := None |};
                inferences :=
                  [ (priority_field,
                     Some {| value := NumberValue priority;
                             confidence := priorityConfidence;
                             rationale := priorityRationale |});
                    (duration_field,
                     Some {| value := NumberValue duration;
                             confidence := durationConfidence;
                             rationale := durationRationale |}) ]
                  ++ match found with
                     | Some (deadline, deadlineConfidence, deadlineRationale) =>
                         [ (deadline_field,
                            Some {| value := DateValue deadline;
                                    confidence := deadlineConfidence;
                                    rationale := deadlineRationale |}) ]
                     | None => []
                     end;
                conditionalHints := generateConditionalHints priority duration |})
  end.

(** *** [mockGeminiParsing] *)

(** The [for] loop over the lines. *)
Fixpoint parse_lines (lines : list JsString)
    (extractedTasks : list InferredTask) (ambiguousLines : list JsString)
  : M (list InferredTask * list JsString) :=
  match lines with
  | [] => ret (extractedTasks, ambiguousLines)
  | l :: rest =>
      match trim l with
      | [] => parse_lines rest extractedTasks ambiguousLines
      | line =>
          taskMatch <- parseTaskLine line ;;
          match taskMatch with
          | Some t => parse_lines rest (extractedTasks ++ [t]) ambiguousLines
          | None => parse_lines rest extractedTasks (ambiguousLines ++ [line])
          end
      end
  end.

Definition nonblank (line : JsString) : bool :=
  match trim line with [] => false | _ => true end.

Definition mockGeminiParsing (text : JsString) : M FreeformParseResult :=
  let lines := filter nonblank (split_lines text) in
  found <- parse_lines lines [] [] ;;
  let '(extractedTasks, ambiguousLines) := found in
  ret {| extractedTasks := extractedTasks;
         ambiguousLines := ambiguousLines;
         parsingErrors := [];
         parse_confidence := match extractedTasks with [] => low | _ => medium end |}.

(** *** [mockFieldInference] and [inferTaskFields] *)

Definition absent (x : option number) : bool :=
  match x with
  | Some v => falsy v
  | None => true
  end.

Definition infer_priority (t : StructuredTask) : M Inference :=
  match deadline t with
  | Some d =>
      now_ <- Date_now ;;
      let hoursUntilDeadline := (getTime d - ofZ now_) / (1000 * 60 * 60) in
      if hoursUntilDeadline <? 24 then
        ret {| value := NumberValue 5; confidence := high;
               rationale := u16 "High priority due to approaching deadline" |}
      else if hoursUntilDeadline <? 72 then
        ret {| value := NumberValue 4; confidence := medium;
               rationale := u16 "Medium-high priority due to deadline in 3 days" |}
      else
        ret {| value := NumberValue 3; confidence := medium;
               rationale := u16 "Default medium priority" |}
  | None =>
      ret {| value := NumberValue 3; confidence := medium;
             rationale := u16 "Default medium priority" |}
  end.

Definition infer_duration (title : JsString) : Inference :=
  if Nat.ltb 50 (List.length title) || test true title_complexity_verbs title then
    {| value := NumberValue 120; confidence := medium;
       rationale := u16 "Estimated 2 hours based on task complexity" |}
  else if Nat.ltb (List.length title) 20 && test true title_quick_verbs title then
    {| value := NumberValue 30; confidence := medium;
       rationale := u16 "Estimated 30 minutes for quick task" |}
  else
    {| value := NumberValue 60; confidence := low;
       rationale := u16 "Default 1-hour estimate" |}.

Definition mockFieldInference (t : StructuredTask) (_context : option JsString)
  : M InferredTask :=
  inferred_priority <-
    (if absent (priority t)
     then inference <- infer_priority t ;; ret [(priority_field, Some inference)]
     else ret []) ;;
  let priority_hints :=
    if absent (priority t)
    then [u16 "If this task is actually low priority, it will be scheduled after other medium priority tasks."]
    else [] in
  let inferred_duration :=
    if absent (duration t) then [(duration_field, Some (infer_duration (title t)))] else [] in
  let duration_hints :=
    if absent (duration t)
    then [u16 "Duration estimate can be adjusted. Shorter tasks will be scheduled in available gaps."]
    else [] in
  ret {| base := t;
         inferences := inferred_priority ++ inferred_duration;
         conditionalHints := priority_hints ++ duration_hints |}.

Definition inferTaskFields (t : StructuredTask) (context : option JsString)
  : M InferredTask :=
  try_catch (mockFieldInference t context)
    (fun error =>
       log (LogError (u16 "Failed to infer task fields:") error) ;;;
       ret {| base := t; inferences := []; conditionalHints := [] |}).

(** *** [validateAndTransformGeminiResponse]

    The payload is of type [any]; the objects built from it hold whatever
    the expressions of the function evaluate to. *)

Record Validated (V : Type) := {
  v_value : V;
  v_confidence : InferenceConfidence;
  v_rationale : JsValue
}.
Arguments v_value {V} _.
Arguments v_confidence {V} _.
Arguments v_rationale {V} _.

(** The [inferences] object of a transformed task: the three properties
    are always present, [None] being [undefined]. *)
Record TransformedInferences := {
  inferred_priority : option (Validated number);
  inferred_duration : option (Validated number);
  inferred_deadline : option (Validated (option Date))
}.

Record TransformedTask := {
  t_id : JsValue;
  t_title : JsValue;
  t_duration : number;
  t_priority : number;
  t_deadline : option Date;
  t_category : JsValue;
  t_notes : JsValue;
  t_dependencies : JsValue;
  t_splittable : JsValue;
  t_inferences : TransformedInferences;
  t_conditionalHints : list JsString
}.

Record TransformedResult := {
  r_extractedTasks : list TransformedTask;
  r_ambiguousLines : JsValue;
  r_parsingErrors : JsValue;
  r_confidence : InferenceConfidence
}.

(** [Math.max(lo, Math.min(hi, v))]. *)
Definition clamp (E : Environment) (lo hi : number) (v : JsValue) : Result number :=
  match min_with E hi v with
  | Ok x => Ok (Math_max lo x)
  | Throw e => Throw e
  end.

(** [['low', 'medium', 'high'].includes(v) ? v : fallback]. *)
Definition confidence_or (fallback : InferenceConfidence) (v : JsValue)
  : InferenceConfidence :=
  match v with
  | JStr s =>
      if str_eqb s (u16 "low") then low
      else if str_eqb s (u16 "medium") then medium
      else if str_eqb s (u16 "high") then high
      else fallback
  | _ => fallback
  end.

Definition transform_number_inference (E : Environment) (lo hi : number)
    (fallback_value : number) (fallback_rationale : string) (entry : JsValue)
  : Result (option (Validated number)) :=
  if truthy entry then
    match get entry "value" with
    | Throw e => Throw e
    | Ok v =>
        match clamp E lo hi (or_else v (JNum fallback_value)) with
        | Throw e => Throw e
        | Ok x =>
            Ok (Some {| v_value := x;
                        v_confidence := confidence_or medium (get_opt entry "confidence");
                        v_rationale := or_else (get_opt entry "rationale")
                                         (JStr (u16 fallback_rationale)) |})
        end
    end
  else Ok None.

Definition transform_deadline_inference (E : Environment) (entry : JsValue)
  : Result (option (Validated (option Date))) :=
  if truthy entry then
    match get entry "value" with
    | Throw e => Throw e
    | Ok v =>
        match (if truthy v
               then match new_Date_from E v with
                    | Ok d => Ok (Some d)
                    | Throw e => Throw e
                    end
               else Ok None) with
        | Throw e => Throw e
        | Ok d =>
            Ok (Some {| v_value := d;
                        v_confidence := confidence_or low (get_opt entry "confidence");
                        v_rationale := or_else (get_opt entry "rationale")
                                         (JStr (u16 "Inferred from context clues")) |})
        end
    end
  else Ok None.

(** The callback of [.map((task, index) => ...)]. *)
Definition transform_task (t : JsValue) (index : nat) : M TransformedTask :=
  E <- get_env ;;
  given_id <- lift (get t "id") ;;
  id <- (if truthy given_id then ret given_id
         else stamp <- Date_now ;;
              ret (JStr (u16 "task-" ++ string_of_Z stamp ++ u16 "-"
                         ++ string_of_Z (Z.of_nat index)))) ;;
  duration <- lift (clamp E 15 240 (or_else (get_opt t "duration") (JNum 60))) ;;
  priority <- lift (clamp E 1 5 (or_else (get_opt t "priority") (JNum 3))) ;;
  deadline <- lift (if truthy (get_opt t "deadline")
                    then match new_Date_from E (get_opt t "deadline") with
                         | Ok d => Ok (Some d)
                         | Throw e => Throw e
                         end
                    else Ok None) ;;
  let inferences := get_opt t "inferences" in
  p <- lift (transform_number_inference E 1 5 3 "Inferred from context"
               (get_opt inferences "priority")) ;;
  d <- lift (transform_number_inference E 15 240 60 "Estimated based on task complexity"
               (get_opt inferences "duration")) ;;
  dl <- lift (transform_deadline_inference E (get_opt inferences "deadline")) ;;
  ret {| t_id := id;
         t_title := or_else (get_opt t "title") (JStr (u16 "Untitled Task"));
         t_duration := duration;
         t_priority := priority;
         t_deadline := deadline;
         t_category := get_opt t "category";
         t_notes := get_opt t "notes";
         t_dependencies := or_else (get_opt t "dependencies") (JArr []);
         t_splittable := or_else (get_opt t "splittable") (JBool false);
         t_inferences :=
           {| inferred_priority := p; inferred_duration := d; inferred_deadline := dl |};
         t_conditionalHints := [] |}.

Fixpoint map_indexed (f : JsValue -> nat -> M TransformedTask)
    (xs : list JsValue) (index : nat) : M (list TransformedTask) :=
  match xs with
  | [] => ret []
  | x :: rest =>
      y <- f x index ;;
      ys <- map_indexed f rest (S index) ;;
      ret (y :: ys)
  end.

Definition validateAndTransformGeminiResponse (response : JsValue) : M TransformedResult :=
  listed <- lift (get response "extractedTasks") ;;
  extractedTasks <-
    match or_else listed (JArr []) with
    | JArr items => map_indexed transform_task items 0
    | _ => throw TypeError
    end ;;
  ret {| r_extractedTasks := extractedTasks;
         r_ambiguousLines := or_else (get_opt response "ambiguousLines") (JArr []);
         r_parsingErrors := or_else (get_opt response "parsingErrors") (JArr []);
         r_confidence := confidence_or medium (get_opt response "confidence") |}.

(** *** [realGeminiParsing] *)

(** [/```json\n([\s\S]*?)\n```/] *)
Definition fenced_json : regex :=
  Seq (Lit (u16 "```json"))
    (Seq (Char 10)
       (Seq (Group 1 (Star false (Class (fun _ => true))))
          (Seq (Char 10) (Lit (u16 "```"))))).

(** [/\{[\s\S]*\}/] *)
Definition braces : regex :=
  Seq (Char 123) (Seq (Star true (Class (fun _ => true))) (Char 125)).

Definition extract_json (generatedText : JsString) : JsString :=
  let jsonMatch :=
    match exec false fenced_json generatedText with
    | Some m => Some m
    | None => exec false braces generatedText
    end in
  match jsonMatch with
  | Some m =>
      match capture 1 (groups m) with
      | Some (c :: g) => c :: g
      | _ => matched m
      end
  | None => generatedText
  end.

Definition key_configured (apiKey : option JsString) : bool :=
  match apiKey with
  | Some (_ :: _) => true
  | _ => false
  end.

(** The request carries the fixed instructions and, within them, the text
    to parse; the service sees the key and the text. *)
Definition realGeminiParsing (apiKey : option JsString) (text : JsString)
  : M TransformedResult :=
  match apiKey with
  | Some (c :: key) =>
      try_catch
        (outcome <- send (c :: key) text ;;
         match outcome with
         | Rejected => throw FetchRejected
         | Response false status_line _ =>
             throw (ErrorMessage (u16 "Gemini API error: " ++ status_line))
         | Response true _ None => throw SyntaxError
         | Response true _ (Some data) =>
             candidates <- lift (get data "candidates") ;;
             let generatedText :=
               get_opt (first_opt (get_opt (get_opt (first_opt candidates) "content") "parts"))
                 "text" in
             if truthy generatedText then
               match generatedText with
               | JStr s =>
                   E <- get_env ;;
                   match JSON_parse E (trim (extract_json s)) with
                   | Some parsed => validateAndTransformGeminiResponse parsed
                   | None => throw SyntaxError
                   end
               | _ => throw TypeError
               end
             else throw (ErrorMessage (u16 "No response from Gemini API"))
         end)
        (fun error =>
           log (LogError (u16 "Real Gemini API failed:") error) ;;;
           throw error)
  | _ => throw (ErrorMessage (u16 "Gemini API key not provided"))
  end.

(** *** [parseFreeformTasks] *)

Inductive ParseResult :=
| FromService (r : TransformedResult)
| FromLocal (r : FreeformParseResult).

Definition parseFreeformTasks (apiKey : option JsString) (freeformText : JsString)
  : M ParseResult :=
  try_catch
    (if key_configured apiKey then
       r <- realGeminiParsing apiKey freeformText ;;
       ret (FromService r)
     else
       log (Warn (u16 "No Gemini API key provided, using mock parsing")) ;;;
       r <- mockGeminiParsing freeformText ;;
       ret (FromLocal r))
    (fun error =>
       log (LogError (u16 "Failed to parse freeform tasks:") error) ;;;
       log (Warn (u16 "Falling back to mock parsing due to API error")) ;;;
       r <- mockGeminiParsing freeformText ;;
       ret (FromLocal r)).

End GeminiService.


(** ** [useTaskPlanning] *)

Module TaskPlanning.
Import Js Host.
Local Open Scope host_scope.
Local Open Scope float_scope.

(** The [StructuredTask] of the hook: a task of the structured form. *)
Record StructuredTask := {
  id : JsString;
  name : JsString;
  duration : number;
  priority : number;
  deadline : option Date;
  isCompleted : bool
}.

(** [Partial<StructuredTask>]: the properties an update gives, each with a
    value of its type; [None] stands for a property the update leaves
    out. *)
Record Updates := {
  new_id : option JsString;
  new_name : option JsString;
  new_duration : option number;
  new_priority : option number;
  new_deadline : option (option Date);
  new_isCompleted : option bool
}.

(** The hook keeps the tasks of the form in its state; each operation is
    given as the function it applies to that state. *)
Definition addStructuredTask (prev : list StructuredTask) : M (list StructuredTask) :=
  stamp <- Date_now ;;
  let newTask :=
    {| id := string_of_Z stamp;
       name := [];
       duration := 30;
       priority := 5;
       deadline := None;
       isCompleted := false |} in
  ret (prev ++ [newTask]).

(** [{ ...task, ...updates }]. *)
Definition spread (task : StructuredTask) (updates : Updates) : StructuredTask :=
  let pick {A} (given : option A) (kept : A) : A :=
    match given with
    | Some v => v
    | None => kept
    end in
  {| id := pick (new_id updates) (id task);
     name := pick (new_name updates) (name task);
     duration := pick (new_duration updates) (duration task);
     priority := pick (new_priority updates) (priority task);
     deadline := pick (new_deadline updates) (deadline task);
     isCompleted := pick (new_isCompleted updates) (isCompleted task) |}.

Definition updateStructuredTask (id_ : JsString) (updates : Updates)
    (prev : list StructuredTask) : list StructuredTask :=
  map (fun task => if str_eqb (id task) id_ then spread task updates else task) prev.

Definition removeStructuredTask (id_ : JsString) (prev : list StructuredTask)
  : list StructuredTask :=
  filter (fun task => negb (str_eqb (id task) id_)) prev.

End TaskPlanning.

(** ** [TaskMasterPro]: planning the tasks of the structured form *)

Module TaskMasterPro.
Import Js Host Types SchedulingService.
Local Open Scope host_scope.
Local Open Scope float_scope.

Definition defaultSettings : PlanningSettings :=
  {| workingHours := {| start := u16 "09:00"; end_ := u16 "17:00" |};
     weekendsEnabled := false;
     focusBlockLength := 120;
     breakBuffer := 15;
     hardCommitments := [] |}.

(** The state the handlers set: the plan shown, the processing flag, and
    the error whose message is shown. *)
Record View := {
  currentPlan : option DailyPlan;
  isProcessing : bool;
  error : option Error
}.

(** The task [handleStructuredSubmit] makes of a task of the form. *)
Definition inferredTask (task : TaskPlanning.StructuredTask) : InferredTask :=
  {| base :=
       {| id := TaskPlanning.id task;
          title := TaskPlanning.name task;
          deadline := TaskPlanning.deadline task;
          priority := Some (TaskPlanning.priority task);
          duration := Some (TaskPlanning.duration task);
          dependencies := None;
          notes := None;
          category := None;
          splittable := None |};
     inferences := [];
     conditionalHints := [] |}.

Definition handleStructuredSubmit
    (structuredTasks : list TaskPlanning.StructuredTask) (settings : PlanningSettings)
    (view : View) : M View :=
  if Nat.eqb (List.length structuredTasks) 0 || isProcessing view then ret view
  else
    try_catch
      (let inferredTasks := map inferredTask structuredTasks in
       plan <- generateDailyPlan inferredTasks settings None ;;
       ret {| currentPlan := Some plan; isProcessing := false; error := None |})
      (fun e =>
         ret {| currentPlan := currentPlan view; isProcessing := false; error := Some e |}).

End TaskMasterPro.


(** * Properties of the engine *)

Import Js RegExp Str Host Dyn Types.


(** ** What the matcher finds

    [Matches i r s c]: the pattern [r] matches exactly the text [s], and [c]
    lists the groups it captures on the way, the latest first. *)

Module Matching.

Inductive Matches (i : bool) : regex -> JsString -> Captures -> Prop :=
| M_Empty : Matches i Empty [] []
| M_Char c x : char_matches i c x = true -> Matches i (Char c) [x] []
| M_Class p x : p x = true -> Matches i (Class p) [x] []
| M_Seq a b s1 s2 c1 c2 :
    Matches i a s1 c1 -> Matches i b s2 c2 ->
    Matches i (Seq a b) (s1 ++ s2) (c2 ++ c1)
| M_AltL a b s c : Matches i a s c -> Matches i (Alt a b) s c
| M_AltR a b s c : Matches i b s c -> Matches i (Alt a b) s c
| M_StarNil g a : Matches i (Star g a) [] []
| M_StarCons g a s1 s2 c1 c2 :
    Matches i a s1 c1 -> s1 <> [] -> Matches i (Star g a) s2 c2 ->
    Matches i (Star g a) (s1 ++ s2) (c2 ++ c1)
| M_Group n a s c : Matches i a s c -> Matches i (Group n a) s ((n, s) :: c).

(** A matcher is sound when every result it gives comes from a match of
    the pattern followed by a result of the continuation, and complete when
    it gives a result whenever such a match and result exist. *)
Definition sound (i : bool) (r : regex)
    (step : JsString -> Captures -> Continuation -> option MatchState) : Prop :=
  forall s caps k res,
    step s caps k = Some res ->
    exists s1 s2 new,
      s = s1 ++ s2 /\ Matches i r s1 new /\ k s2 (new ++ caps) = Some res.

Definition complete (i : bool) (r : regex)
    (step : JsString -> Captures -> Continuation -> option MatchState) : Prop :=
  forall s caps k,
    step s caps k = None ->
    forall s1 s2 new,
      s = s1 ++ s2 -> Matches i r s1 new -> k s2 (new ++ caps) = None.

Lemma star_loop_sound i g a step (k : Continuation) :
  sound i a step ->
  forall fuel s caps res,
    star_loop step g k fuel s caps = Some res ->
    exists s1 s2 new,
      s = s1 ++ s2 /\ Matches i (Star g a) s1 new /\ k s2 (new ++ caps) = Some res.
Proof.
  intros Hstep. induction fuel as [|fuel IH]; intros s caps res H.
  - simpl in H. exists [], s, []. simpl. repeat split; [constructor|].
    destruct g; [exact H|]. destruct (k s caps); [exact H|discriminate].
  - cbn [star_loop] in H.
    assert (Again :
              step s caps
                (fun s' caps' =>
                   if Nat.ltb (List.length s') (List.length s)
                   then star_loop step g k fuel s' caps' else None) = Some res ->
              exists s1 s2 new,
                s = s1 ++ s2 /\ Matches i (Star g a) s1 new
                /\ k s2 (new ++ caps) = Some res).
    { intros A. apply Hstep in A. destruct A as (s1 & s2 & n1 & -> & M1 & A).
      destruct (Nat.ltb (List.length s2) (List.length (s1 ++ s2))) eqn:L; [|discriminate].
      apply IH in A. destruct A as (t1 & t2 & n2 & -> & M2 & A).
      exists (s1 ++ t1), t2, (n2 ++ n1). rewrite <- !app_assoc. repeat split.
      - constructor; [exact M1| |exact M2].
        intros ->. simpl in L. rewrite Nat.ltb_irrefl in L. discriminate.
      - exact A. }
    destruct g.
    + destruct (step s caps _) as [m|] eqn:A.
      * apply Again. congruence.
      * exists [], s, []. repeat split; [constructor|exact H].
    + destruct (k s caps) as [m|] eqn:K.
      * exists [], s, []. repeat split; [constructor|]. simpl. congruence.
      * now apply Again.
Qed.

Lemma run_sound i r : sound i r (run i r).
Proof.
  induction r as [|c|p|a IHa b IHb|a IHa b IHb|g a IHa|n a IHa];
    intros s caps k res H; cbn [run] in H.
  - exists [], s, []. repeat split; [constructor|exact H].
  - destruct s as [|x s]; [discriminate|].
    destruct (char_matches i c x) eqn:C; [|discriminate].
    exists [x], s, []. repeat split; [now constructor|exact H].
  - destruct s as [|x s]; [discriminate|].
    destruct (p x) eqn:C; [|discriminate].
    exists [x], s, []. repeat split; [now constructor|exact H].
  - apply IHa in H. destruct H as (s1 & s2 & n1 & -> & M1 & H).
    apply IHb in H. destruct H as (t1 & t2 & n2 & -> & M2 & H).
    exists (s1 ++ t1), t2, (n2 ++ n1). rewrite <- !app_assoc.
    repeat split; [now constructor|exact H].
  - destruct (run i a s caps k) as [m|] eqn:A.
    + apply IHa in A. destruct A as (s1 & s2 & n1 & -> & M1 & A).
      exists s1, s2, n1. repeat split; [now apply M_AltL|congruence].
    + apply IHb in H. destruct H as (s1 & s2 & n1 & -> & M1 & H).
      exists s1, s2, n1. repeat split; [now apply M_AltR|exact H].
  - eapply star_loop_sound; eauto.
  - apply IHa in H. destruct H as (s1 & s2 & n1 & -> & M1 & H).
    exists s1, s2, ((n, s1) :: n1). repeat split; [now constructor|].
    rewrite length_app, Nat.add_sub, firstn_app, firstn_all, Nat.sub_diag in H.
    simpl in H. rewrite app_nil_r in H. exact H.
Qed.

Lemma star_loop_complete i g a step (k : Continuation) :
  complete i a step ->
  forall fuel s caps,
    (List.length s <= fuel)%nat ->
    star_loop step g k fuel s caps = None ->
    forall s1 s2 new,
      s = s1 ++ s2 -> Matches i (Star g a) s1 new -> k s2 (new ++ caps) = None.
Proof.
  intros Hstep. induction fuel as [|fuel IH]; intros s caps L H s1 s2 new E M.
  - destruct s; [|simpl in L; lia].
    symmetry in E. apply app_eq_nil in E. destruct E as [-> ->].
    inversion M; subst.
    + simpl in *. destruct g; [exact H|]. destruct (k [] caps); [discriminate|reflexivity].
    + match goal with
      | E : _ ++ _ = [] |- _ => apply app_eq_nil in E; destruct E; subst
      end.
      exfalso. match goal with N : _ <> _ |- _ => apply N; reflexivity end.
  - cbn [star_loop] in H.
    assert (K : k s caps = None
                /\ step s caps
                     (fun s' caps' =>
                        if Nat.ltb (List.length s') (List.length s)
                        then star_loop step g k fuel s' caps' else None) = None).
    { destruct g.
      - destruct (step s caps _); [discriminate|]. now split.
      - destruct (k s caps); [discriminate|]. now split. }
    destruct K as [K A]. clear H.
    inversion M as [| | | | | |g' a'|g' a' t1 t2 c1 c2 M1 N1 M2|]; subst.
    + simpl. exact K.
    + rewrite <- app_assoc in L, A.
      pose proof (Hstep _ _ _ A t1 (t2 ++ s2) c1 eq_refl M1) as B. cbv beta in B.
      assert (Lt : Nat.ltb (List.length (t2 ++ s2)) (List.length (t1 ++ t2 ++ s2)) = true).
      { apply Nat.ltb_lt. rewrite (length_app t1). destruct t1; [congruence|simpl; lia]. }
      rewrite Lt in B.
      rewrite <- app_assoc.
      refine (IH (t2 ++ s2) (c1 ++ caps) _ B t2 s2 c2 eq_refl M2).
      apply Nat.ltb_lt in Lt. lia.
Qed.

Lemma run_complete i r : complete i r (run i r).
Proof.
  induction r as [|c|p|a IHa b IHb|a IHa b IHb|g a IHa|n a IHa];
    intros s caps k H s1 s2 new E M; cbn [run] in H.
  - inversion M; subst. exact H.
  - inversion M as [|c' x C| | | | | | |]; subst.
    simpl in H. rewrite C in H. exact H.
  - inversion M as [| |p' x C| | | | | |]; subst.
    simpl in H. rewrite C in H. exact H.
  - inversion M as [| | |a' b' t1 t2 c1 c2 M1 M2| | | | |]; subst.
    rewrite <- app_assoc in H.
    pose proof (IHa _ _ _ H t1 (t2 ++ s2) c1 eq_refl M1) as B. cbv beta in B.
    rewrite <- app_assoc.
    exact (IHb _ _ _ B t2 s2 c2 eq_refl M2).
  - destruct (run i a s caps k) eqn:A; [discriminate|].
    inversion M as [| | | |a' b' s' c' M1|a' b' s' c' M1| | |]; subst.
    + exact (IHa _ _ _ A _ _ _ eq_refl M1).
    + exact (IHb _ _ _ H _ _ _ eq_refl M1).
  - exact (star_loop_complete i g a (run i a) k IHa (List.length s) s caps
             (Nat.le_refl _) H s1 s2 new E M).
  - inversion M as [| | | | | | | |n' a' s' c' M1]; subst.
    pose proof (IHa _ _ _ H s1 s2 c' eq_refl M1) as B. cbv beta in B.
    rewrite length_app, Nat.add_sub, firstn_app, firstn_all, Nat.sub_diag in B.
    simpl in B. rewrite app_nil_r in B. exact B.
Qed.


(** *** [exec] and [test] *)

(** Some part of [s] matches [r]. *)
Definition occurs (i : bool) (r : regex) (s : JsString) : Prop :=
  exists pre mid post c, s = pre ++ mid ++ post /\ Matches i r mid c.

Lemma firstn_prefix (s1 s2 : JsString) :
  firstn (List.length (s1 ++ s2) - List.length s2) (s1 ++ s2) = s1.
Proof.
  rewrite length_app, Nat.add_sub, firstn_app, firstn_all, Nat.sub_diag.
  simpl. apply app_nil_r.
Qed.

Lemma run_at_start i r s rest caps :
  run i r s [] (fun s' c => Some (s', c)) = Some (rest, caps) ->
  s = firstn (List.length s - List.length rest) s ++ rest
  /\ Matches i r (firstn (List.length s - List.length rest) s) caps.
Proof.
  intros R. apply run_sound in R. destruct R as (s1 & s2 & new & -> & M & K).
  injection K as <- <-. rewrite app_nil_r, firstn_prefix. now split.
Qed.

Lemma exec_sound i r s :
  forall m, exec i r s = Some m ->
            s = before m ++ matched m ++ after m /\ Matches i r (matched m) (groups m).
Proof.
  induction s as [|x s IH]; intros m H; cbn [exec] in H.
  - destruct (run i r [] [] _) as [[rest caps]|] eqn:R; [|discriminate].
    injection H as <-. cbn [before matched after groups].
    apply run_at_start in R. exact R.
  - destruct (run i r (x :: s) [] _) as [[rest caps]|] eqn:R.
    + injection H as <-. cbn [before matched after groups].
      apply run_at_start in R. exact R.
    + destruct (exec i r s) as [m'|] eqn:X; [|discriminate].
      injection H as <-. cbn [before matched after groups].
      destruct (IH m' eq_refl) as [E M]. split; [|exact M].
      simpl. now rewrite <- E.
Qed.

Lemma exec_none i r s : exec i r s = None -> ~ occurs i r s.
Proof.
  induction s as [|x s IH]; intros H (pre & mid & post & c & E & M); cbn [exec] in H.
  - destruct (run i r [] [] _) as [[rest caps]|] eqn:R; [discriminate|].
    symmetry in E. apply app_eq_nil in E. destruct E as [-> E].
    simpl in E.
    pose proof (run_complete i r _ _ _ R mid post c (eq_sym E) M) as F. discriminate.
  - destruct (run i r (x :: s) [] _) as [[rest caps]|] eqn:R; [discriminate|].
    destruct pre as [|y pre].
    + pose proof (run_complete i r _ _ _ R mid post c E M) as F. discriminate.
    + destruct (exec i r s) eqn:X; [discriminate|].
      injection E as -> E. apply IH; [reflexivity|].
      now exists pre, mid, post, c.
Qed.

(** The match [exec] finds is the leftmost. *)
Lemma exec_leftmost i r s :
  forall m, exec i r s = Some m ->
            forall pre mid post c,
              s = pre ++ mid ++ post -> Matches i r mid c ->
              (List.length (before m) <= List.length pre)%nat.
Proof.
  induction s as [|x s IH]; intros m H pre mid post c E M; cbn [exec] in H.
  - destruct (run i r [] [] _) as [[rest caps]|]; [|discriminate].
    injection H as <-. simpl. lia.
  - destruct (run i r (x :: s) [] _) as [[rest caps]|] eqn:R.
    + injection H as <-. simpl. lia.
    + destruct (exec i r s) as [m'|] eqn:X; [|discriminate].
      injection H as <-. cbn [before].
      destruct pre as [|y pre].
      * pose proof (run_complete i r _ _ _ R mid post c E M) as F. discriminate.
      * injection E as -> E. simpl.
        pose proof (IH m' eq_refl pre mid post c E M). lia.
Qed.

Lemma exec_some_occurs i r s m : exec i r s = Some m -> occurs i r s.
Proof.
  intros H. apply exec_sound in H. destruct H as [E M].
  now exists (before m), (matched m), (after m), (groups m).
Qed.

Lemma test_occurs i r s : test i r s = true <-> occurs i r s.
Proof.
  unfold test. destruct (exec i r s) as [m|] eqn:X.
  - split; [intros _; eapply exec_some_occurs; eauto|reflexivity].
  - split; [discriminate|]. intros O. exfalso. eapply exec_none; eauto.
Qed.

(** *** Words *)

(** [s] spells the word [w], letter for letter, up to the case when the
    flag is set. *)
Definition spells (i : bool) (w s : JsString) : Prop :=
  Forall2 (fun a x => char_matches i a x = true) w s.

Lemma Lit_matches i w :
  forall s c, Matches i (Lit w) s c <-> spells i w s /\ c = [].
Proof.
  induction w as [|a w IH]; intros s c.
  - simpl. split.
    + intros M. inversion M; subst. split; constructor.
    + intros [S ->]. inversion S; subst. constructor.
  - destruct w as [|b w].
    + simpl. split.
      * intros M. inversion M; subst. split; [|reflexivity].
        constructor; [assumption|constructor].
      * intros [S ->]. inversion S as [|? x ? l C T]; subst. inversion T; subst.
        now constructor.
    + change (Lit (a :: b :: w)) with (Seq (Char a) (Lit (b :: w))). split.
      * intros M. inversion M as [| | |a' b' s1 s2 c1 c2 M1 M2| | | | |]; subst.
        inversion M1; subst. apply IH in M2. destruct M2 as [S ->].
        split; [|reflexivity]. simpl. constructor; assumption.
      * intros [S ->]. inversion S as [|? x ? l C T]; subst.
        change (x :: l) with ([x] ++ l). change (@nil (nat * JsString)) with (@nil (nat * JsString) ++ []).
        constructor; [now constructor|]. apply IH. now split.
Qed.

Lemma AltOf_matches i rs :
  forall s c, Matches i (AltOf rs) s c <-> exists r, In r rs /\ Matches i r s c.
Proof.
  induction rs as [|r rs IH]; intros s c.
  - simpl. split.
    + intros M. inversion M; subst. discriminate.
    + intros (r & [] & _).
  - destruct rs as [|r' rs].
    + simpl. split.
      * intros M. exists r. split; [now left|exact M].
      * intros (r0 & [<-|[]] & M). exact M.
    + change (AltOf (r :: r' :: rs)) with (Alt r (AltOf (r' :: rs))). split.
      * intros M. inversion M as [| | | |a' b' s' c' M1|a' b' s' c' M1| | |]; subst.
        -- exists r. split; [now left|assumption].
        -- apply IH in M1. destruct M1 as (r0 & I & M1).
           exists r0. split; [now right|assumption].
      * intros (r0 & [<-|I] & M); [now apply M_AltL|].
        apply M_AltR. apply IH. now exists r0.
Qed.

Lemma Words_matches i ws s c :
  Matches i (Words ws) s c <-> (exists w, In w ws /\ spells i (u16 w) s) /\ c = [].
Proof.
  unfold Words. rewrite AltOf_matches. split.
  - intros (r & I & M). apply in_map_iff in I. destruct I as (w & <- & I).
    apply Lit_matches in M. destruct M as [S ->]. split; [|reflexivity]. now exists w.
  - intros [(w & I & S) ->]. exists (Lit (u16 w)). split.
    + apply in_map_iff. now exists w.
    + apply Lit_matches. now split.
Qed.

(** The text mentions one of the words: some part of it spells the word,
    whatever the case of its letters. *)
Definition mentions (ws : list string) (s : JsString) : Prop :=
  exists w pre mid post, In w ws /\ s = pre ++ mid ++ post /\ spells true (u16 w) mid.

Lemma test_Words ws s : test true (Words ws) s = true <-> mentions ws s.
Proof.
  rewrite test_occurs. unfold occurs, mentions. split.
  - intros (pre & mid & post & c & E & M). apply Words_matches in M.
    destruct M as [(w & I & S) _]. now exists w, pre, mid, post.
  - intros (w & pre & mid & post & I & E & S). exists pre, mid, post, [].
    split; [exact E|]. apply Words_matches. split; [now exists w|reflexivity].
Qed.

(** *** Runs of a class of characters *)

Lemma Star_Class_matches i g p s c :
  Matches i (Star g (Class p)) s c -> forallb p s = true /\ c = [].
Proof.
  remember (Star g (Class p)) as r eqn:R. intros M.
  induction M as [| | | | | |g' a'|g' a' s1 s2 c1 c2 M1 _ N M2 IH2|]; try discriminate.
  - split; reflexivity.
  - injection R as -> ->. destruct (IH2 eq_refl) as [F ->].
    inversion M1; subst. simpl. split; [|reflexivity].
    apply andb_true_iff. now split.
Qed.

Lemma Plus_Class_matches i p s c :
  Matches i (Plus (Class p)) s c -> s <> [] /\ forallb p s = true /\ c = [].
Proof.
  unfold Plus. intros M.
  inversion M as [| | |a' b' s1 s2 c1 c2 M1 M2| | | | |]; subst.
  inversion M1; subst. apply Star_Class_matches in M2. destruct M2 as [F ->].
  split; [discriminate|]. split; [|reflexivity]. simpl.
  apply andb_true_iff. now split.
Qed.

End Matching.


(** ** The monad *)

Lemma bind_ok {A B} (c : M A) (k : A -> M B) w a w' :
  c w = (Ok a, w') -> bind c k w = k a w'.
Proof. intros H. unfold bind. rewrite H. reflexivity. Qed.

Lemma bind_throw {A B} (c : M A) (k : A -> M B) w e w' :
  c w = (Throw e, w') -> bind c k w = (Throw e, w').
Proof. intros H. unfold bind. rewrite H. reflexivity. Qed.

(** What a computation leaves of the world when it only reads the clock. *)
Definition clock_only (n : nat) (w w' : World) : Prop :=
  env w' = env w /\ ticks w' = (n + ticks w)%nat /\ draws w' = draws w
  /\ requests w' = requests w /\ console w' = console w.

Lemma clock_only_0 w : clock_only 0 w w.
Proof. repeat split. Qed.

Lemma clock_only_trans n m w1 w2 w3 :
  clock_only n w1 w2 -> clock_only m w2 w3 -> clock_only (m + n) w1 w3.
Proof.
  unfold clock_only. intros (e1 & t1 & d1 & r1 & c1) (e2 & t2 & d2 & r2 & c2).
  repeat split; try congruence. rewrite t2, t1. lia.
Qed.

Lemma Date_now_spec w :
  exists w', Date_now w = (Ok (clock (env w) (ticks w)), w') /\ clock_only 1 w w'.
Proof. eexists. split; [reflexivity|]. repeat split. Qed.

Lemma new_Date_spec w :
  exists w', new_Date w = (Ok (TimeValue (clock (env w) (ticks w))), w') /\ clock_only 1 w w'.
Proof. eexists. split; [reflexivity|]. repeat split. Qed.

(** ** The scorer *)

Module Scheduler.
Import SchedulingService.
Local Open Scope float_scope.

Definition undefined_inference (t : InferredTask) : Prop :=
  In None (map snd (inferences t)).

Lemma penalty_loop_throw values acc e :
  penalty_loop values acc = Throw e -> In None values.
Proof.
  revert acc. induction values as [|[inference|] rest IH]; simpl; intros acc H.
  - discriminate.
  - right. eapply IH. exact H.
  - now left.
Qed.

Lemma penalty_loop_ok values acc x :
  penalty_loop values acc = Ok x -> ~ In None values.
Proof.
  revert acc. induction values as [|[inference|] rest IH]; simpl; intros acc H.
  - tauto.
  - intros [F|F]; [discriminate|]. eapply IH; eauto.
  - discriminate.
Qed.

Lemma score_at_throw now_ t e :
  score_at now_ t = Throw e -> undefined_inference t.
Proof.
  unfold score_at, undefined_inference.
  destruct (penalty_loop (map snd (inferences t)) 0) eqn:P; [discriminate|].
  intros _. eapply penalty_loop_throw; eauto.
Qed.

Lemma score_at_ok now_ t s :
  score_at now_ t = Ok s -> ~ undefined_inference t.
Proof.
  unfold score_at, undefined_inference.
  destruct (penalty_loop (map snd (inferences t)) 0) eqn:P; [|discriminate].
  intros _. eapply penalty_loop_ok; eauto.
Qed.

Lemma calculatePriorityScore_spec t settings planDate w :
  exists w',
    calculatePriorityScore t settings planDate w
    = (score_at (TimeValue (clock (env w) (ticks w))) t, w')
    /\ clock_only 1 w w'.
Proof.
  unfold calculatePriorityScore.
  destruct (new_Date_spec w) as (w' & H & Hw).
  exists w'. split; [|exact Hw].
  rewrite (bind_ok _ _ _ _ _ H). reflexivity.
Qed.

(** The scores of a list of tasks, the first computed at the [k]-th
    reading of the clock and each following one at the next reading. *)
Fixpoint scores_from (E : Environment) (k : nat) (tasks : list InferredTask)
  : list (InferredTask * Result PriorityScore) :=
  match tasks with
  | [] => []
  | t :: rest => (t, score_at (TimeValue (clock E k)) t) :: scores_from E (S k) rest
  end.

Lemma scores_from_in E tasks :
  forall k t r, In (t, r) (scores_from E k tasks) -> In t tasks.
Proof.
  induction tasks as [|t' rest IH]; simpl; intros k t r I; [contradiction|].
  destruct I as [I|I]; [left; congruence|right; eauto].
Qed.

Lemma scores_from_tasks E tasks :
  forall k, map fst (scores_from E k tasks) = tasks.
Proof. induction tasks as [|t rest IH]; simpl; intros k; [|rewrite IH]; reflexivity. Qed.

Definition score_all (tasks : list InferredTask) (settings : PlanningSettings)
    (planDate : Date) : M (list Scored) :=
  mapM (fun t => bind (calculatePriorityScore t settings planDate)
                   (fun score => ret (t, score))) tasks.

Lemma score_all_spec tasks settings planDate :
  forall w,
    match score_all tasks settings planDate w with
    | (Ok scored, w') =>
        map (fun x : Scored => (fst x, Ok (snd x))) scored
        = scores_from (env w) (ticks w) tasks
        /\ clock_only (List.length tasks) w w'
    | (Throw e, _) => exists t, In t tasks /\ undefined_inference t
    end.
Proof.
  induction tasks as [|t rest IH]; intros w.
  - simpl. split; [reflexivity|apply clock_only_0].
  - unfold score_all. simpl mapM.
    destruct (calculatePriorityScore_spec t settings planDate w) as (w1 & H1 & Hw1).
    destruct (score_at (TimeValue (clock (env w) (ticks w))) t) as [s|e] eqn:S.
    + rewrite (bind_ok _ _ w (t, s) w1).
      2:{ rewrite (bind_ok _ _ _ _ _ H1). reflexivity. }
      specialize (IH w1). unfold score_all in IH.
      destruct (mapM _ rest w1) as [[scored|e] w2] eqn:R.
      * rewrite (bind_ok _ _ _ _ _ R). unfold ret.
        destruct IH as [IH1 IH2]. split.
        -- simpl. rewrite S, IH1.
           destruct Hw1 as (He & Ht & _). rewrite He, Ht. reflexivity.
        -- replace (List.length (t :: rest)) with (List.length rest + 1)%nat
             by (simpl; lia).
           eapply clock_only_trans; eauto.
      * rewrite (bind_throw _ _ _ _ _ R).
        destruct IH as (t' & I & U). exists t'. split; [now right|exact U].
    + rewrite (bind_throw _ _ w e w1).
      2:{ rewrite (bind_throw _ _ _ _ _ H1). reflexivity. }
      exists t. split; [now left|]. eapply score_at_throw; eauto.
Qed.


(** *** Sorting and planning *)

Lemma insert_sorted_perm x l : Permutation (insert_sorted x l) (x :: l).
Proof.
  induction l as [|y rest IH]; simpl.
  - apply Permutation_refl.
  - destruct (gt (comparator x y) 0).
    + eapply Permutation_trans; [apply perm_skip, IH|apply perm_swap].
    + apply Permutation_refl.
Qed.

Lemma sort_perm l : Permutation (sort l) l.
Proof.
  induction l as [|x rest IH]; simpl.
  - apply Permutation_refl.
  - eapply Permutation_trans; [apply insert_sorted_perm|now apply perm_skip].
Qed.

Lemma extractAssumptions_loop_throw entries e :
  extractAssumptions_loop entries = Throw e -> In None (map snd entries).
Proof.
  induction entries as [|[field [inference|]] rest IH]; simpl.
  - discriminate.
  - destruct (extractAssumptions_loop rest) eqn:R.
    + destruct (confidence inference); discriminate.
    + intros H. right. apply IH. exact H.
  - intros _. now left.
Qed.

Lemma plan_one_ok item p :
  plan_one item = Ok p -> (task p, priorityScore p) = item.
Proof.
  destruct item as [t s]. unfold plan_one.
  destruct (extractAssumptions t); [|discriminate].
  intros H. injection H as <-. reflexivity.
Qed.

Lemma plan_one_throw t s e : plan_one (t, s) = Throw e -> undefined_inference t.
Proof.
  unfold plan_one. destruct (extractAssumptions t) eqn:A; [discriminate|].
  intros _. eapply extractAssumptions_loop_throw. exact A.
Qed.

Lemma scheduleTasks_spec scored settings planDate w :
  match scheduleTasks scored settings planDate w with
  | (Ok planned, w') =>
      w' = w /\ map (fun p => (task p, priorityScore p)) planned = scored
  | (Throw e, _) => exists item, In item scored /\ undefined_inference (fst item)
  end.
Proof.
  unfold scheduleTasks. induction scored as [|[t s] rest IH]; cbn [mapM].
  - split; reflexivity.
  - unfold bind at 1. unfold lift at 1.
    destruct (plan_one (t, s)) as [p|e] eqn:P.
    + unfold bind at 1.
      destruct (mapM _ rest w) as [[planned|e] w'] eqn:R.
      * destruct IH as [-> IH]. unfold ret. split; [reflexivity|].
        simpl. rewrite IH, (plan_one_ok _ _ P). reflexivity.
      * destruct IH as (item & I & U). exists item. split; [now right|exact U].
    + exists (t, s). split; [now left|]. eapply plan_one_throw; eauto.
Qed.

(** *** The three sections *)

Definition only_next (p : PlannedTask) : bool := negb (in_now p) && in_next p.
Definition only_later (p : PlannedTask) : bool := negb (in_now p) && negb (in_next p).

Lemma categorize_loop_spec planned acc :
  categorize_loop planned acc
  = {| now := now acc ++ filter in_now planned;
       next := next acc ++ filter only_next planned;
       later := later acc ++ filter only_later planned |}.
Proof.
  revert acc. induction planned as [|p rest IH]; intros acc; simpl.
  - rewrite !app_nil_r. now destruct acc.
  - rewrite IH. unfold only_next, only_later.
    destruct (in_now p); simpl; [|destruct (in_next p); simpl];
      rewrite <- ?app_assoc; reflexivity.
Qed.

Lemma categorizeTasks_spec planned planDate settings :
  categorizeTasks planned planDate settings
  = {| now := filter in_now planned;
       next := filter only_next planned;
       later := filter only_later planned |}.
Proof. unfold categorizeTasks. now rewrite categorize_loop_spec. Qed.

Lemma three_way_perm planned :
  Permutation (filter in_now planned ++ filter only_next planned ++ filter only_later planned)
    planned.
Proof.
  induction planned as [|p rest IH]; simpl; [constructor|].
  unfold only_next, only_later.
  destruct (in_now p); simpl.
  - now apply perm_skip.
  - destruct (in_next p); simpl.
    + apply Permutation_sym. eapply Permutation_trans.
      * apply perm_skip. apply Permutation_sym. exact IH.
      * apply Permutation_middle.
    + apply Permutation_sym. eapply Permutation_trans.
      * apply perm_skip. apply Permutation_sym. exact IH.
      * rewrite app_assoc.
        eapply Permutation_trans; [apply Permutation_middle|].
        rewrite <- app_assoc. apply Permutation_refl.
Qed.

(** *** The plan as a whole *)

(** The index of the first clock reading used for a score. *)
Definition first_reading (planDate : option Date) (w : World) : nat :=
  match planDate with
  | Some _ => ticks w
  | None => S (ticks w)
  end.

(** The date the plan is made for. *)
Definition plan_date (planDate : option Date) (w : World) : Date :=
  match planDate with
  | Some d => d
  | None => TimeValue (clock (env w) (ticks w))
  end.

(** The instant at which [identifyOverdueTasks] reads the clock. *)
Definition overdue_instant (tasks : list InferredTask) (planDate : option Date)
    (w : World) : Date :=
  TimeValue (clock (env w) (List.length tasks + first_reading planDate w)).

Lemma generateDailyPlan_shape tasks settings planDate w :
  match generateDailyPlan tasks settings planDate w with
  | (Ok plan, w') =>
      exists planned,
        Permutation (map (fun p => (task p, Ok (priorityScore p))) planned)
          (scores_from (env w) (first_reading planDate w) tasks)
        /\ sections plan
           = {| now := filter in_now planned;
                next := filter only_next planned;
                later := filter only_later planned |}
        /\ overdueTasks plan
           = filter (is_overdue (overdue_instant tasks planDate w)) planned
        /\ date plan = plan_date planDate w
        /\ ambiguousTasks plan = []
        /\ totalTasks (metadata plan) = List.length tasks
        /\ totalDuration (metadata plan)
           = fold_left (fun sum t => sum + duration_or_zero t) tasks 0
    | (Throw e, _) => exists t, In t tasks /\ undefined_inference t
    end.
Proof.
  unfold generateDailyPlan.
  assert (P : exists w0,
             (match planDate with Some d => ret d | None => new_Date end) w
             = (Ok (plan_date planDate w), w0)
             /\ env w0 = env w /\ ticks w0 = first_reading planDate w).
  { destruct planDate as [d|]; simpl.
    - exists w. repeat split.
    - eexists. split; [reflexivity|]. split; reflexivity. }
  destruct P as (w0 & P & He0 & Ht0).
  rewrite (bind_ok _ _ _ _ _ P).
  pose proof (score_all_spec tasks settings (plan_date planDate w) w0) as S.
  unfold score_all in S.
  destruct (mapM _ tasks w0) as [[scored|e] w1] eqn:R.
  2:{ rewrite (bind_throw _ _ _ _ _ R). exact S. }
  rewrite (bind_ok _ _ _ _ _ R). destruct S as [S1 S2].
  pose proof (scheduleTasks_spec (sort scored) settings (plan_date planDate w) w1) as T.
  destruct (scheduleTasks (sort scored) settings (plan_date planDate w) w1)
    as [[planned|e] w2] eqn:R2.
  2:{ rewrite (bind_throw _ _ _ _ _ R2).
      destruct T as ([t s] & I & U). exists t. split; [|exact U].
      apply (Permutation_in _ (sort_perm scored)) in I.
      apply (in_map (fun x : Scored => (fst x, Ok (snd x)))) in I.
      rewrite S1 in I. simpl in I.
      eapply scores_from_in. exact I. }
  rewrite (bind_ok _ _ _ _ _ R2). destruct T as [-> T].
  unfold identifyOverdueTasks.
  destruct (new_Date_spec w1) as (w3 & N3 & C3).
  rewrite (bind_ok _ _ w1
             (filter (is_overdue (TimeValue (clock (env w1) (ticks w1)))) planned) w3).
  2:{ rewrite (bind_ok _ _ _ _ _ N3). reflexivity. }
  destruct (Date_now_spec w3) as (w4 & N4 & C4).
  rewrite (bind_ok _ _ _ _ _ N4).
  destruct (new_Date_spec w4) as (w5 & N5 & C5).
  rewrite (bind_ok _ _ _ _ _ N5).
  unfold ret. exists planned. simpl.
  rewrite categorizeTasks_spec.
  repeat split.
  - apply Permutation_trans
      with (map (fun x : Scored => (fst x, Ok (snd x))) (sort scored)).
    + rewrite <- T, map_map. apply Permutation_refl.
    + rewrite <- He0, <- Ht0, <- S1. apply Permutation_map, sort_perm.
  - unfold overdue_instant. destruct S2 as (E1 & T1 & _).
    rewrite E1, T1, He0, Ht0. reflexivity.
Qed.


(** The call returns for tasks whose inferences are all defined. *)
Lemma generateDailyPlan_returns tasks settings planDate w :
  (forall t, In t tasks -> ~ undefined_inference t) ->
  exists plan w', generateDailyPlan tasks settings planDate w = (Ok plan, w').
Proof.
  intros D. pose proof (generateDailyPlan_shape tasks settings planDate w) as H.
  destruct (generateDailyPlan tasks settings planDate w) as [[plan|e] w'].
  - now exists plan, w'.
  - destruct H as (t & I & U). exfalso. exact (D t I U).
Qed.

End Scheduler.


Import SchedulingService Scheduler.

(** ** Plans *)

Section Plans.
Local Open Scope float_scope.

Variables (tasks : list InferredTask) (settings : PlanningSettings).

(** The tasks a plan places, section after section. *)
Definition placed (plan : DailyPlan) : list PlannedTask :=
  now (sections plan) ++ next (sections plan) ++ later (sections plan).

(** C1. Whenever [generateDailyPlan] returns a plan, the three sections
    together hold the input tasks, each with the score computed for it, as
    many times as the input lists it; a placed task is in [now] exactly when
    its urgency or its total exceeds 0.8, otherwise in [next] exactly when
    its total exceeds 0.5, and otherwise in [later]. The call fails only
    when some task has an inference that is present and [undefined]. *)
Theorem sections_partition_tasks_by_score (planDate : option Date) (w : World) :
  match generateDailyPlan tasks settings planDate w with
  | (Ok plan, _) =>
      Permutation (map (fun p => (task p, Ok (priorityScore p))) (placed plan))
        (scores_from (env w) (first_reading planDate w) tasks)
      /\ Permutation (map task (placed plan)) tasks
      /\ forall p, In p (placed plan) ->
           let score := priorityScore p in
           let is_now := gt (urgency score) 0.8 || gt (total score) 0.8 in
           (In p (now (sections plan)) <-> is_now = true)
           /\ (In p (next (sections plan))
               <-> is_now = false /\ gt (total score) 0.5 = true)
           /\ (In p (later (sections plan))
               <-> is_now = false /\ gt (total score) 0.5 = false)
  | (Throw _, _) => exists t, In t tasks /\ undefined_inference t
  end.
Proof.
  pose proof (generateDailyPlan_shape tasks settings planDate w) as H.
  destruct (generateDailyPlan tasks settings planDate w) as [[plan|e] w']; [|exact H].
  destruct H as (planned & Hperm & Hsec & _).
  assert (Hplaced : Permutation (placed plan) planned).
  { unfold placed. rewrite Hsec. simpl. apply three_way_perm. }
  assert (Hscored : Permutation (map (fun p => (task p, Ok (priorityScore p))) (placed plan))
                      (scores_from (env w) (first_reading planDate w) tasks)).
  { eapply Permutation_trans; [apply Permutation_map, Hplaced|exact Hperm]. }
  split; [exact Hscored|]. split.
  - apply (Permutation_map fst) in Hscored.
    rewrite map_map, scores_from_tasks in Hscored. exact Hscored.
  - intros p Hp score is_now.
    assert (Ip : In p planned) by (eapply Permutation_in; eauto).
    rewrite Hsec. simpl. rewrite !filter_In.
    unfold only_next, only_later, in_now, in_next. fold score. fold is_now.
    destruct is_now, (gt (total score) 0.5); simpl; intuition congruence.
Qed.

(** C6. Whenever [generateDailyPlan] returns a plan, an input task is among
    [overdueTasks] exactly when it has a deadline that lies strictly before
    the instant at which the overdue tasks are identified; the overdue
    tasks are taken from the placed ones, so such a task is in its section
    as well. *)
Theorem overdue_tasks_are_the_past_deadlines (planDate : option Date) (w : World) :
  match generateDailyPlan tasks settings planDate w with
  | (Ok plan, _) =>
      let past (t : InferredTask) :=
        exists d, deadline t = Some d
                  /\ date_lt d (overdue_instant tasks planDate w) = true in
      (forall t, In t tasks -> (past t <-> In t (map task (overdueTasks plan))))
      /\ (forall p, In p (overdueTasks plan) -> In p (placed plan))
      /\ (forall p, In p (placed plan) -> past (task p) -> In p (overdueTasks plan))
  | (Throw _, _) => exists t, In t tasks /\ undefined_inference t
  end.
Proof.
  pose proof (generateDailyPlan_shape tasks settings planDate w) as H.
  destruct (generateDailyPlan tasks settings planDate w) as [[plan|e] w']; [|exact H].
  destruct H as (planned & Hperm & Hsec & Hover & _).
  assert (Hplaced : Permutation (placed plan) planned).
  { unfold placed. rewrite Hsec. simpl. apply three_way_perm. }
  assert (Htasks : Permutation (map task planned) tasks).
  { apply (Permutation_map fst) in Hperm.
    rewrite map_map, scores_from_tasks in Hperm. exact Hperm. }
  assert (Hpast : forall p,
             is_overdue (overdue_instant tasks planDate w) p = true
             <-> exists d, deadline (task p) = Some d
                           /\ date_lt d (overdue_instant tasks planDate w) = true).
  { intros p. unfold is_overdue. destruct (deadline (task p)) as [d|].
    - split; [intros L; now exists d|intros (d' & E & L); congruence].
    - split; [discriminate|intros (d' & E & _); discriminate]. }
  cbv zeta. rewrite Hover. split; [|split].
  - intros t It. split.
    + intros Pt.
      apply (Permutation_in _ (Permutation_sym Htasks)) in It.
      apply in_map_iff in It. destruct It as (p & <- & Ip).
      apply in_map. apply filter_In. split; [exact Ip|]. now apply Hpast.
    + intros I. apply in_map_iff in I. destruct I as (p & <- & Ip).
      apply filter_In in Ip. now apply Hpast.
  - intros p Ip. apply filter_In in Ip.
    eapply Permutation_in; [apply Permutation_sym, Hplaced|tauto].
  - intros p Ip Pp. apply filter_In. split.
    + eapply Permutation_in; eauto.
    + now apply Hpast.
Qed.

(** C10. Two calls that differ in the [planDate] argument only, made in the
    same state of the host, either both fail alike or return plans with the
    same sections (tasks, scores, reasons and explanations), the same
    overdue tasks, the same ambiguous tasks and the same metadata, and
    leave the host in the same state; each plan carries its own [planDate]
    as its date, and the two identifiers differ in the time value of
    [planDate] only. *)
Theorem planDate_only_names_the_plan (d1 d2 : Date) (w : World) :
  match generateDailyPlan tasks settings (Some d1) w,
        generateDailyPlan tasks settings (Some d2) w with
  | (Ok plan1, w1), (Ok plan2, w2) =>
      sections plan1 = sections plan2
      /\ overdueTasks plan1 = overdueTasks plan2
      /\ ambiguousTasks plan1 = ambiguousTasks plan2
      /\ metadata plan1 = metadata plan2
      /\ date plan1 = d1 /\ date plan2 = d2
      /\ (exists stamp,
            plan_id plan1 = u16 "plan-" ++ string_of_time d1 ++ u16 "-" ++ stamp
            /\ plan_id plan2 = u16 "plan-" ++ string_of_time d2 ++ u16 "-" ++ stamp)
      /\ w1 = w2
  | (Throw e1, w1), (Throw e2, w2) => e1 = e2 /\ w1 = w2
  | _, _ => False
  end.
Proof.
  unfold generateDailyPlan, calculatePriorityScore, scheduleTasks, identifyOverdueTasks,
    categorizeTasks, new_Date, lift, bind, ret.
  destruct (mapM _ tasks w) as [[scored|e] w1].
  2:{ split; reflexivity. }
  destruct (mapM _ (sort scored) w1) as [[planned|e] w2].
  2:{ split; reflexivity. }
  unfold Date_now. cbn [sections overdueTasks ambiguousTasks metadata date plan_id].
  repeat split. eexists. split; reflexivity.
Qed.

End Plans.


(** ** Scores *)

Module Scores.
Local Open Scope float_scope.

(** *** Comparisons with zero *)

Lemma positive_not_negative x : (0 <? x) = true -> (x <? 0) = false.
Proof.
  rewrite !FloatAxioms.ltb_spec. unfold SFltb.
  destruct (Prim2SF x) as [s|s| |s m e]; simpl; try discriminate;
    destruct s; simpl; try discriminate; reflexivity.
Qed.

Lemma Math_max_0_not_negative x : (Math_max 0 x <? 0) = false.
Proof.
  unfold Math_max.
  replace (is_nan 0) with false by reflexivity.
  replace (get_sign 0) with false by reflexivity.
  simpl orb.
  destruct (is_nan x); [reflexivity|].
  destruct (0 <? x) eqn:P; [now apply positive_not_negative|].
  destruct (x <? 0); reflexivity.
Qed.

(** *** Well-typed tasks

    A task is well typed when its priority, if any, is one of
    [TASK_PRIORITIES] and its inferences are distinct properties. *)

Definition well_typed (t : InferredTask) : Prop :=
  match priority t with
  | Some p => In p TASK_PRIORITIES
  | None => True
  end
  /\ NoDup (map fst (inferences t)).

Definition urgencies : list number := [1.0; 0.9; 0.7; 0.3; 0.5].

Definition importances : list number := [0.6; 1 / 5; 2 / 5; 3 / 5; 4 / 5; 5 / 5].

Lemma urgency_at_cases now_ t : In (urgency_at now_ t) urgencies.
Proof.
  unfold urgency_at, urgencies.
  destruct (deadline t) as [d|]; [|simpl; tauto].
  cbv zeta.
  destruct (_ <? 4); [simpl; tauto|].
  destruct (_ <? 24); [simpl; tauto|].
  destruct (_ <? 72); simpl; tauto.
Qed.

Lemma importance_of_cases t : well_typed t -> In (importance_of t) importances.
Proof.
  intros [P _]. unfold importance_of.
  destruct (priority t) as [p|]; [|left; reflexivity].
  simpl in P.
  destruct P as [<-|[<-|[<-|[<-|[<-|[]]]]]]; vm_compute; tauto.
Qed.

(** *** The penalty as a function of the confidences *)

Definition add_penalty (acc : number) (c : InferenceConfidence) : number :=
  match c with
  | low => acc + 0.1
  | medium => acc + 0.05
  | high => acc
  end.

Definition penalty_of (confidences : list InferenceConfidence) : number :=
  fold_left add_penalty confidences 0.

Definition total_of (u i penalty : number) : number :=
  Math_max 0 (u * 0.3 + i * 0.25 + 1.0 * 0.15 + 1.0 * 0.15 + 1.0 * 0.15 - penalty).

(** The confidences of a list of inference values, when all are defined. *)
Fixpoint confidences (values : list (option Inference)) : option (list InferenceConfidence) :=
  match values with
  | [] => Some []
  | None :: _ => None
  | Some inference :: rest =>
      option_map (cons (confidence inference)) (confidences rest)
  end.

Lemma penalty_loop_confidences values :
  forall acc,
    penalty_loop values acc
    = match confidences values with
      | Some cs => Ok (fold_left add_penalty cs acc)
      | None => Throw TypeError
      end.
Proof.
  induction values as [|[inference|] rest IH]; intros acc; simpl; try reflexivity.
  rewrite IH. destruct (confidences rest); simpl; [|reflexivity].
  destruct (confidence inference); reflexivity.
Qed.

Lemma confidences_none values : confidences values = None <-> In None values.
Proof.
  induction values as [|[inference|] rest IH]; simpl.
  - split; [discriminate|tauto].
  - destruct (confidences rest); simpl.
    + split; [discriminate|]. intros [F|F]; [discriminate|]. apply IH in F. discriminate.
    + split; [intros _; right; now apply IH|reflexivity].
  - split; [now left|reflexivity].
Qed.

Lemma confidences_length values cs :
  confidences values = Some cs -> List.length cs = List.length values.
Proof.
  revert cs. induction values as [|[inference|] rest IH]; simpl; intros cs H.
  - injection H as <-. reflexivity.
  - destruct (confidences rest) as [cs'|]; simpl in H; [|discriminate].
    injection H as <-. simpl. f_equal. now apply IH.
  - discriminate.
Qed.

Lemma score_at_total now_ t :
  score_at now_ t
  = match confidences (map snd (inferences t)) with
    | Some cs =>
        Ok {| urgency := urgency_at now_ t;
              importance := importance_of t;
              effortFit := 1.0;
              dependencyReady := 1.0;
              slackRisk := 1.0;
              uncertaintyPenalty := penalty_of cs;
              total := total_of (urgency_at now_ t) (importance_of t) (penalty_of cs) |}
    | None => Throw TypeError
    end.
Proof.
  unfold score_at. rewrite penalty_loop_confidences.
  destruct (confidences (map snd (inferences t))); reflexivity.
Qed.

(** *** All the confidences a well-typed task can carry *)

Fixpoint sequences (n : nat) : list (list InferenceConfidence) :=
  match n with
  | O => [[]]
  | S n' => [] :: flat_map (fun cs => [low :: cs; medium :: cs; high :: cs]) (sequences n')
  end.

Lemma sequences_complete n :
  forall cs, (List.length cs <= n)%nat -> In cs (sequences n).
Proof.
  induction n as [|n IH]; intros [|c cs] L; simpl in *; try lia; try tauto.
  right. apply in_flat_map. exists cs. split; [apply IH; lia|].
  destruct c; simpl; tauto.
Qed.

Definition all_fields : list InferenceField :=
  [priority_field; duration_field; deadline_field; category_field].

Lemma at_most_four_inferences t :
  well_typed t -> (List.length (inferences t) <= 4)%nat.
Proof.
  intros [_ N]. rewrite <- (length_map fst).
  change 4%nat with (List.length all_fields).
  apply NoDup_incl_length; [exact N|].
  intros f _. destruct f; simpl; tauto.
Qed.

(** *** Two facts about totals, checked on every case *)

Definition unclamped (u i : number) (cs : list InferenceConfidence) : bool :=
  let difference := u * 0.3 + i * 0.25 + 1.0 * 0.15 + 1.0 * 0.15 + 1.0 * 0.15 - penalty_of cs in
  Leibniz.eqb (total_of u i (penalty_of cs)) difference && (0 <? difference).

Definition all_unclamped : bool :=
  forallb (fun u => forallb (fun i => forallb (unclamped u i) (sequences 4)) importances)
    urgencies.

Lemma all_unclamped_true : all_unclamped = true.
Proof. vm_compute. reflexivity. Qed.

Definition steps : list (InferenceConfidence * InferenceConfidence) :=
  [(high, medium); (medium, low)].

Definition not_raised (u i : number) (before after : list InferenceConfidence)
    (step : InferenceConfidence * InferenceConfidence) : bool :=
  total_of u i (penalty_of (before ++ snd step :: after))
  <=? total_of u i (penalty_of (before ++ fst step :: after)).

Definition never_raised : bool :=
  forallb (fun u =>
    forallb (fun i =>
      forallb (fun before =>
        forallb (fun after => forallb (not_raised u i before after) steps)
          (sequences 3))
        (sequences 3))
      importances)
    urgencies.

Lemma never_raised_true : never_raised = true.
Proof. vm_compute. reflexivity. Qed.

Lemma not_raised_at u i before after step :
  In u urgencies -> In i importances ->
  (List.length before <= 3)%nat -> (List.length after <= 3)%nat ->
  In step steps ->
  not_raised u i before after step = true.
Proof.
  intros Hu Hi Hb Ha Hs.
  pose proof never_raised_true as N. unfold never_raised in N.
  rewrite forallb_forall in N. specialize (N u Hu).
  rewrite forallb_forall in N. specialize (N i Hi).
  rewrite forallb_forall in N. specialize (N before (sequences_complete 3 before Hb)).
  rewrite forallb_forall in N. specialize (N after (sequences_complete 3 after Ha)).
  rewrite forallb_forall in N. exact (N step Hs).
Qed.

Lemma well_typed_total_unclamped now_ t s :
  well_typed t -> score_at now_ t = Ok s ->
  total s = urgency s * 0.3 + importance s * 0.25 + effortFit s * 0.15
            + dependencyReady s * 0.15 + slackRisk s * 0.15 - uncertaintyPenalty s
  /\ (0 <? total s) = true.
Proof.
  intros W. rewrite score_at_total.
  destruct (confidences (map snd (inferences t))) as [cs|] eqn:C; [|discriminate].
  intros H. injection H as <-. simpl.
  pose proof all_unclamped_true as A. unfold all_unclamped in A.
  rewrite forallb_forall in A. specialize (A _ (urgency_at_cases now_ t)).
  rewrite forallb_forall in A. specialize (A _ (importance_of_cases t W)).
  rewrite forallb_forall in A. specialize (A cs).
  assert (L : (List.length cs <= 4)%nat).
  { rewrite (confidences_length _ _ C), length_map. now apply at_most_four_inferences. }
  specialize (A (sequences_complete 4 cs L)).
  unfold unclamped in A. apply andb_true_iff in A. destruct A as [A1 A2].
  apply Leibniz.eqb_spec in A1.
  split; [exact A1|]. rewrite A1. exact A2.
Qed.

End Scores.


Import Scores.

(** ** Values used in the examples *)

Module Examples.
Local Open Scope Z_scope.

(** A host whose clock starts on 2 November 2024, 00:00 UTC, and advances
    by one millisecond at each reading, whose calendar is the UTC one, and
    whose service is out of reach. No example below converts text to a
    number or a date, and the conversions are left trivial. *)
Definition environment : Environment :=
  {| clock := fun n => 1730505600000 + Z.of_nat n;
     random := fun _ => u16 "k3j9x0q1z";
     workday_end := fun t n => (t / 86400000 + n) * 86400000 + 61200000;
     fetch := fun _ _ _ => Rejected;
     JSON_parse := fun _ => None;
     numeric_literal_value := fun _ => 0%float;
     Number_toString := fun _ => u16 "0";
     Date_parse := fun _ => InvalidDate |}.

Definition world : World :=
  {| env := environment; ticks := 0; draws := 0; requests := 0; console := [] |}.

Definition settings : PlanningSettings :=
  {| workingHours := {| start := u16 "09:00"; end_ := u16 "17:00" |};
     weekendsEnabled := false;
     focusBlockLength := 90%float;
     breakBuffer := 15%float;
     hardCommitments := [] |}.

Definition structured (name : string) : StructuredTask :=
  {| id := u16 name; title := u16 name; deadline := None; priority := None;
     duration := None; dependencies := None; notes := None; category := None;
     splittable := None |}.

Definition inferred (name : string) (c : InferenceConfidence) : InferredTask :=
  {| base := structured name;
     inferences :=
       [(priority_field,
         Some {| value := NumberValue 3%float; confidence := c;
                 rationale := u16 "Default medium priority" |})];
     conditionalHints := [] |}.

End Examples.

(** ** The total score *)

Section Totals.
Local Open Scope float_scope.

Lemma calculatePriorityScore_eq t settings planDate w :
  calculatePriorityScore t settings planDate w
  = (score_at (TimeValue (clock (env w) (ticks w))) t,
     {| env := env w; ticks := S (ticks w); draws := draws w;
        requests := requests w; console := console w |}).
Proof. reflexivity. Qed.

(** C2, as stated, fails: the difference is clamped, and no task has a
    negative total. *)
Lemma no_task_has_a_negative_total :
  ~ (exists t settings planDate w s w',
        calculatePriorityScore t settings planDate w = (Ok s, w')
        /\ (total s <? 0) = true).
Proof.
  intros (t & settings & planDate & w & s & w' & H & N).
  rewrite calculatePriorityScore_eq in H. injection H as H _.
  unfold score_at in H.
  destruct (penalty_loop (map snd (inferences t)) 0); [|discriminate].
  injection H as <-. simpl in N.
  rewrite Math_max_0_not_negative in N. discriminate.
Qed.

(** C2, amended. The total is the weighted sum of the five factors less
    the uncertainty penalty, clamped at zero from below by [Math.max]; the
    three placeholder factors are 1; no total is negative. *)
Theorem total_is_the_weighted_sum_clamped_at_zero
    (t : InferredTask) (settings : PlanningSettings) (planDate : Date) (w : World) :
  match calculatePriorityScore t settings planDate w with
  | (Ok s, _) =>
      total s
      = Math_max 0 (urgency s * 0.3 + importance s * 0.25 + effortFit s * 0.15
                    + dependencyReady s * 0.15 + slackRisk s * 0.15
                    - uncertaintyPenalty s)
      /\ effortFit s = 1.0 /\ dependencyReady s = 1.0 /\ slackRisk s = 1.0
      /\ (total s <? 0) = false
  | (Throw _, _) => undefined_inference t
  end.
Proof.
  rewrite calculatePriorityScore_eq.
  destruct (score_at _ t) as [s|e] eqn:S; [|eapply score_at_throw; eauto].
  unfold score_at in S.
  destruct (penalty_loop (map snd (inferences t)) 0); [|discriminate].
  injection S as <-. simpl. repeat split. apply Math_max_0_not_negative.
Qed.

(** *** Lowering a confidence *)

(** One step down along high, medium, low. *)
Inductive lowered : InferenceConfidence -> InferenceConfidence -> Prop :=
| high_to_medium : lowered high medium
| medium_to_low : lowered medium low.

Definition set_confidence (c : InferenceConfidence) (i : Inference) : Inference :=
  {| value := value i; confidence := c; rationale := rationale i |}.

Definition set_inferences (t : InferredTask)
    (entries : list (InferenceField * option Inference)) : InferredTask :=
  {| base := base t; inferences := entries; conditionalHints := conditionalHints t |}.

Lemma confidences_app before entry after :
  confidences (before ++ Some entry :: after)
  = match confidences before, confidences after with
    | Some cs, Some cs' => Some (cs ++ confidence entry :: cs')
    | _, _ => None
    end.
Proof.
  induction before as [|[inference|] rest IH]; simpl.
  - destruct (confidences after); reflexivity.
  - rewrite IH. destruct (confidences rest), (confidences after); reflexivity.
  - reflexivity.
Qed.

(** C5. Take a well-typed task and one of its inferences, and lower the
    confidence of that inference by one step, everything else and the
    clock reading being the same: the total computed for the changed task
    is at most the total computed for the task. (Both computations fail
    when another inference is present and [undefined].) *)
Theorem lowering_a_confidence_never_raises_the_total
    (t : InferredTask) (before after : list (InferenceField * option Inference))
    (field : InferenceField) (entry : Inference) (c : InferenceConfidence)
    (settings : PlanningSettings) (planDate : Date) (w : World) :
  well_typed t ->
  inferences t = before ++ (field, Some entry) :: after ->
  lowered (confidence entry) c ->
  let t' := set_inferences t (before ++ (field, Some (set_confidence c entry)) :: after) in
  match calculatePriorityScore t settings planDate w,
        calculatePriorityScore t' settings planDate w with
  | (Ok s, w1), (Ok s', w2) => (total s' <=? total s) = true /\ w1 = w2
  | (Throw _, w1), (Throw _, w2) => undefined_inference t /\ w1 = w2
  | _, _ => False
  end.
Proof.
  intros W I L t'.
  rewrite !calculatePriorityScore_eq, !score_at_total.
  change (urgency_at (TimeValue (clock (env w) (ticks w))) t')
    with (urgency_at (TimeValue (clock (env w) (ticks w))) t).
  change (importance_of t') with (importance_of t).
  change (inferences t')
    with (before ++ (field, Some (set_confidence c entry)) :: after).
  pose proof (at_most_four_inferences t W) as Len.
  rewrite I in *. rewrite !map_app in *. cbn [map snd] in *.
  rewrite !confidences_app. cbn [set_confidence confidence].
  destruct (confidences (map snd before)) as [cs|] eqn:B.
  2:{ split; [|reflexivity]. unfold undefined_inference.
      rewrite I, map_app. apply in_or_app. left. now apply confidences_none. }
  destruct (confidences (map snd after)) as [cs'|] eqn:A.
  2:{ split; [|reflexivity]. unfold undefined_inference.
      rewrite I, map_app. apply in_or_app. right. right. now apply confidences_none. }
  split; [|reflexivity]. cbn [total].
  rewrite length_app in Len. simpl in Len.
  apply confidences_length in B, A. rewrite length_map in B, A.
  apply (not_raised_at _ _ cs cs' (confidence entry, c)).
  - apply urgency_at_cases.
  - now apply importance_of_cases.
  - lia.
  - lia.
  - inversion L; simpl; tauto.
Qed.

(** The theorem at a task with one inference of high confidence. *)
Lemma lowering_a_confidence_witness :
  let t := Examples.inferred "review budget" high in
  let entry := {| value := NumberValue 3; confidence := high;
                  rationale := u16 "Default medium priority" |} in
  well_typed t
  /\ inferences t = [] ++ (priority_field, Some entry) :: []
  /\ lowered (confidence entry) medium
  /\ match calculatePriorityScore t Examples.settings InvalidDate Examples.world,
           calculatePriorityScore
             (set_inferences t ([] ++ (priority_field, Some (set_confidence medium entry)) :: []))
             Examples.settings InvalidDate Examples.world with
     | (Ok s, w1), (Ok s', w2) => (total s' <=? total s) = true /\ w1 = w2
     | (Throw _, w1), (Throw _, w2) => undefined_inference t /\ w1 = w2
     | _, _ => False
     end.
Proof.
  intros t entry.
  assert (W : well_typed t).
  { split; [exact I|]. repeat constructor. simpl. tauto. }
  split; [exact W|]. split; [reflexivity|]. split; [constructor|].
  exact (lowering_a_confidence_never_raises_the_total t [] [] priority_field entry medium
           Examples.settings InvalidDate Examples.world W eq_refl high_to_medium).
Defined.

End Totals.


Import GeminiService.

(** ** The local parser *)

Section LocalParser.

Lemma line_deadline_returns line w :
  exists found w', line_deadline line w = (Ok found, w').
Proof.
  unfold line_deadline.
  destruct (exec true deadline_pattern line) as [m|]; [|now eexists; eexists].
  unfold bind, Date_now, get_env.
  destruct (str_eqb _ (u16 "today")); [now eexists; eexists|].
  destruct (str_eqb _ (u16 "tomorrow")); now eexists; eexists.
Qed.

(** [parseTaskLine] always returns: [null] when the cleaned title is
    empty, and otherwise a task that has the cleaned title. *)
Lemma parseTaskLine_returns line w :
  exists r w',
    parseTaskLine line w = (Ok r, w')
    /\ match clean_title line with
       | [] => r = None
       | cleaned => exists t, r = Some t /\ title t = cleaned
                              /\ inferences t <> []
       end.
Proof.
  unfold parseTaskLine. unfold bind at 1. unfold Date_now at 1.
  unfold bind at 1. unfold random_suffix at 1.
  destruct (line_priority line) as [[p pc] pr].
  destruct (line_duration line) as [[d dc] dr].
  match goal with
  | |- context [bind (line_deadline line) _ ?w0] =>
      destruct (line_deadline_returns line w0) as (found & w1 & F);
      rewrite (bind_ok _ _ _ _ _ F)
  end.
  destruct (clean_title line) as [|c cleaned].
  - eexists. eexists. split; reflexivity.
  - eexists. eexists. split; [reflexivity|].
    eexists. split; [reflexivity|]. split; [reflexivity|]. discriminate.
Qed.

Definition title_of (t : InferredTask) : JsString := title t.

Definition empty_title (line : JsString) : bool :=
  match clean_title line with [] => true | _ => false end.

Lemma parse_lines_spec lines :
  forall extracted ambiguous w,
    Forall (fun l => nonblank l = true) lines ->
    exists extracted' ambiguous' w',
      parse_lines lines extracted ambiguous w = (Ok (extracted', ambiguous'), w')
      /\ ambiguous' = ambiguous ++ filter empty_title (map trim lines)
      /\ map title_of extracted'
         = map title_of extracted
           ++ map clean_title (filter (fun l => negb (empty_title l)) (map trim lines)).
Proof.
  induction lines as [|l rest IH]; intros extracted ambiguous w NB.
  - exists extracted, ambiguous, w. simpl. rewrite !app_nil_r. repeat split.
  - inversion NB as [|? ? NBl NBrest]; subst.
    cbn [parse_lines]. unfold nonblank in NBl.
    destruct (trim l) as [|c line] eqn:T; [discriminate|].
    destruct (parseTaskLine_returns (c :: line) w) as (r & w1 & P & S).
    rewrite (bind_ok _ _ _ _ _ P).
    cbn [map filter]. rewrite T.
    destruct (empty_title (c :: line)) eqn:ET; cbn [negb];
      unfold empty_title in ET;
      destruct (clean_title (c :: line)) as [|c' cleaned] eqn:C; try discriminate.
    + subst r.
      destruct (IH extracted (ambiguous ++ [c :: line]) w1 NBrest)
        as (e' & a' & w' & R & A & E).
      exists e', a', w'. split; [exact R|]. split.
      * rewrite A, <- app_assoc. reflexivity.
      * exact E.
    + destruct S as (t & -> & Tt & _).
      destruct (IH (extracted ++ [t]) ambiguous w1 NBrest)
        as (e' & a' & w' & R & A & E).
      exists e', a', w'. split; [exact R|]. split; [exact A|].
      rewrite E, map_app, <- app_assoc. cbn [map app]. unfold title_of at 2.
      rewrite Tt, C. reflexivity.
Qed.

(** The lines the local parser looks at: the non-blank ones, trimmed. *)
Definition input_lines (text : JsString) : list JsString :=
  map trim (filter nonblank (split_lines text)).

(** C3, as stated, fails: the line [urgent] has an empty cleaned title and
    is reported among the ambiguous lines. *)
Lemma empty_title_line_is_reported_ambiguous :
  match mockGeminiParsing (u16 "urgent") Examples.world with
  | (Ok r, _) =>
      In (u16 "urgent") (input_lines (u16 "urgent"))
      /\ clean_title (u16 "urgent") = []
      /\ In (u16 "urgent") (ambiguousLines r)
      /\ extractedTasks r = []
  | (Throw _, _) => False
  end.
Proof. vm_compute. tauto. Qed.

Lemma mockGeminiParsing_spec text w :
  exists r w',
    mockGeminiParsing text w = (Ok r, w')
    /\ ambiguousLines r = filter empty_title (input_lines text)
    /\ map title_of (extractedTasks r)
       = map clean_title (filter (fun l => negb (empty_title l)) (input_lines text))
    /\ parsingErrors r = [].
Proof.
  unfold mockGeminiParsing.
  destruct (parse_lines_spec (filter nonblank (split_lines text)) [] [] w)
    as (e' & a' & w' & R & A & E).
  { apply Forall_forall. intros l I. apply filter_In in I. tauto. }
  rewrite (bind_ok _ _ _ _ _ R). unfold ret.
  eexists. eexists. split; [reflexivity|]. simpl.
  split; [exact A|]. split; [exact E|reflexivity].
Qed.

(** C3, amended. The local parser always returns. Its ambiguous lines are
    the input lines whose cleaned title is empty, in order; its extracted
    tasks are those of the other input lines, in order, each with the
    cleaned title of its line. So a line whose cleaned title is empty gives
    no task and is reported as ambiguous. *)
Theorem empty_title_lines_are_ambiguous_not_extracted (text : JsString) (w : World) :
  match mockGeminiParsing text w with
  | (Ok r, _) =>
      ambiguousLines r = filter empty_title (input_lines text)
      /\ map title_of (extractedTasks r)
         = map clean_title (filter (fun l => negb (empty_title l)) (input_lines text))
      /\ parsingErrors r = []
  | (Throw _, _) => False
  end.
Proof.
  destruct (mockGeminiParsing_spec text w) as (r & w' & -> & H). exact H.
Qed.

End LocalParser.


Import Matching.

(** ** Durations read from a line *)

Section LineDuration.
Local Open Scope float_scope.
Local Open Scope string_scope.
Local Open Scope list_scope.

(** What a match of the explicit duration pattern consists of: a run of
    digits, white space if any, a unit, and an [s] if any; the groups are
    the digits and the unit. *)
Lemma explicit_duration_matches mid c :
  Matches true explicit_duration mid c ->
  exists digits spaces unit_ plural,
    mid = digits ++ spaces ++ unit_ ++ plural
    /\ c = [(2%nat, unit_); (1%nat, digits)]
    /\ digits <> [] /\ forallb is_digit digits = true
    /\ forallb is_space spaces = true
    /\ (exists w, In w ["hour"; "hr"; "min"; "minute"] /\ spells true (u16 w) unit_)
    /\ (plural = [] \/ spells true (u16 "s") plural).
Proof.
  unfold explicit_duration. intros M.
  inversion M as [| | |a1 b1 s1 r1 c1 d1 M1 R1| | | | |]; subst. clear M.
  inversion M1 as [| | | | | | | |n a s c Md]; subst. clear M1.
  apply Plus_Class_matches in Md. destruct Md as (Dn & Dd & ->).
  inversion R1 as [| | |a2 b2 s2 r2 c2 d2 M2 R2| | | | |]; subst. clear R1.
  apply Star_Class_matches in M2. destruct M2 as [Ds ->].
  inversion R2 as [| | |a3 b3 s3 r3 c3 d3 M3 R3| | | | |]; subst. clear R2.
  inversion M3 as [| | | | | | | |n a s c Mu]; subst. clear M3.
  apply Words_matches in Mu. destruct Mu as [Wu ->].
  exists s1, s2, s3, r3.
  assert (P : d3 = [] /\ (r3 = [] \/ spells true (u16 "s") r3)).
  { unfold Opt in R3.
    inversion R3 as [| | | |a b s c Ms|a b s c Ms| | |]; subst; inversion Ms; subst.
    - split; [reflexivity|]. right. constructor; [assumption|constructor].
    - split; [reflexivity|]. now left. }
  destruct P as [-> P]. simpl. repeat split; assumption.
Qed.

(** A part that spells a word in small letters, whatever its own case,
    lowers to the word. *)
Lemma spells_lowers w s :
  Forall (fun a => (97 <= a <= 122)%N) w -> spells true w s -> toLowerCase s = w.
Proof.
  intros L S. induction S as [|a x w s C S IH]; [reflexivity|].
  inversion L as [|? ? La Lw]; subst. simpl. rewrite (IH Lw). f_equal.
  unfold char_matches, char16_eqb, canonicalize in C.
  apply N.eqb_eq in C.
  destruct ((97 <=? a) && (a <=? 122))%N eqn:A.
  2:{ apply andb_false_iff in A. destruct A as [A|A]; apply N.leb_gt in A; lia. }
  destruct ((97 <=? x) && (x <=? 122))%N eqn:X.
  - apply andb_true_iff in X. destruct X as [X1 X2].
    apply N.leb_le in X1, X2.
    destruct ((65 <=? x) && (x <=? 90))%N eqn:U.
    + apply andb_true_iff in U. destruct U as [U1 U2]. apply N.leb_le in U1, U2. lia.
    + lia.
  - destruct ((65 <=? x) && (x <=? 90))%N eqn:U.
    + lia.
    + apply andb_false_iff in U. destruct U as [U|U]; apply N.leb_gt in U; lia.
Qed.

Lemma small_letters w : Forall (fun a => (97 <= a <= 122)%N) (u16 w) <->
                        forallb (fun a => (97 <=? a) && (a <=? 122))%N (u16 w) = true.
Proof.
  rewrite forallb_forall, Forall_forall. split; intros H a I; specialize (H a I).
  - apply andb_true_iff. split; apply N.leb_le; lia.
  - apply andb_true_iff in H. destruct H as [H1 H2]. apply N.leb_le in H1, H2. lia.
Qed.

Definition long (n : nat) (line : JsString) : Prop := (n < List.length line)%nat.

Lemma long_iff n line : Nat.ltb n (List.length line) = true <-> long n line.
Proof. apply Nat.ltb_lt. Qed.

(** C4, amended. When some part of the line matches the explicit duration
    pattern, the match the parser takes is the leftmost one, and consists
    of a run of digits, optional white space, a unit and an optional [s];
    the duration is the number the
    digits denote, times 60 when the unit spells [hour] or [hr], and its
    confidence is high. Otherwise the confidence is low, and the duration
    is 120 when the line has more than 100 characters or mentions research,
    analyze, develop or create; else 60 when it has more than 50 characters
    or mentions write, review or plan; else 30. *)
Theorem line_duration_rule (line : JsString) :
  match exec true explicit_duration line with
  | Some m =>
      exists digits spaces unit_ plural,
        line = before m ++ (digits ++ spaces ++ unit_ ++ plural) ++ after m
        /\ (forall pre mid post c,
              line = pre ++ mid ++ post -> Matches true explicit_duration mid c ->
              (List.length (before m) <= List.length pre)%nat)
        /\ digits <> [] /\ forallb is_digit digits = true
        /\ forallb is_space spaces = true
        /\ (plural = [] \/ spells true (u16 "s") plural)
        /\ ((exists w, In w ["hour"; "hr"] /\ spells true (u16 w) unit_)
            /\ line_duration line
               = (parseInt digits * 60, high, u16 "Extracted from text")
            \/ (exists w, In w ["min"; "minute"] /\ spells true (u16 w) unit_)
               /\ line_duration line
                  = (parseInt digits, high, u16 "Extracted from text"))
  | None =>
      ~ occurs true explicit_duration line
      /\ exists minutes rationale,
           line_duration line = (minutes, low, rationale)
           /\ let complex :=
                long 100 line \/ mentions ["research"; "analyze"; "develop"; "create"] line in
              let medium_sized :=
                long 50 line \/ mentions ["write"; "review"; "plan"] line in
              (complex /\ minutes = 120
               \/ ~ complex /\ medium_sized /\ minutes = 60
               \/ ~ complex /\ ~ medium_sized /\ minutes = 30)
  end.
Proof.
  unfold line_duration.
  destruct (exec true explicit_duration line) as [m|] eqn:X.
  - pose proof (exec_leftmost _ _ _ _ X) as Left.
    apply exec_sound in X. destruct X as [E M].
    apply explicit_duration_matches in M.
    destruct M as (digits & spaces & unit_ & plural & Em & Eg & Dn & Dd & Ds & Wu & Pl).
    exists digits, spaces, unit_, plural. rewrite <- Em, Eg. cbn [capture Nat.eqb].
    repeat (split; [assumption|]).
    destruct Wu as (w & Iw & S).
    assert (Lw : toLowerCase unit_ = u16 w).
    { apply spells_lowers; [|exact S]. apply small_letters.
      destruct Iw as [<-|[<-|[<-|[<-|[]]]]]; reflexivity. }
    rewrite Lw.
    destruct Iw as [<-|[<-|[<-|[<-|[]]]]]; [left|left|right|right];
      (split; [eexists; split; [|exact S]; simpl; tauto|reflexivity]).
  - split; [now apply exec_none|].
    change line_complexity_verbs with (Words ["research"; "analyze"; "develop"; "create"]).
    change line_medium_verbs with (Words ["write"; "review"; "plan"]).
    pose proof (long_iff 100 line) as L1. pose proof (long_iff 50 line) as L2.
    pose proof (test_Words ["research"; "analyze"; "develop"; "create"] line) as T1.
    pose proof (test_Words ["write"; "review"; "plan"] line) as T2.
    destruct (Nat.ltb 100 (List.length line)) eqn:B1;
      destruct (test true (Words ["research"; "analyze"; "develop"; "create"]) line) eqn:C1;
      cbn [orb];
      try (eexists; eexists; split; [reflexivity|]; left; split; [tauto|reflexivity]).
    destruct (Nat.ltb 50 (List.length line)) eqn:B2;
      destruct (test true (Words ["write"; "review"; "plan"]) line) eqn:C2;
      cbn [orb];
      eexists; eexists; (split; [reflexivity|]); right;
      [left|left|left|right];
      (split; [intros [F|F]; [apply L1 in F|apply T1 in F]; discriminate|]);
      try (split; [tauto|reflexivity]).
    split; [|reflexivity]. intros [F|F]; [apply L2 in F|apply T2 in F]; discriminate.
Qed.

(** *** The heuristic of the field inference, in the words of its
    specification *)

(** [w] is found at the start of [s], whatever the case of the letters. *)
Fixpoint starts_with (w s : JsString) : bool :=
  match w, s with
  | [], _ => true
  | a :: w', x :: s' => char_matches true a x && starts_with w' s'
  | _ :: _, [] => false
  end.

(** [s] contains [w]. *)
Fixpoint contains (w s : JsString) : bool :=
  starts_with w s || match s with [] => false | _ :: s' => contains w s' end.

Definition contains_any (ws : list string) (s : JsString) : bool :=
  existsb (fun w => contains (u16 w) s) ws.

(** The heuristic as section 4.1 of the specification words it: 120
    minutes with medium confidence for a text of more than 50 characters or
    with a complexity verb, else 30 minutes with medium confidence for a
    text of fewer than 20 characters with a quick-action verb, else 60
    minutes with low confidence. *)
Definition specified_duration (text : JsString) : number * InferenceConfidence :=
  if Nat.ltb 50 (List.length text)
     || contains_any ["research"; "analyze"; "develop"; "design"; "create"; "build"] text
  then (120, medium)
  else if Nat.ltb (List.length text) 20
          && contains_any ["check"; "review"; "send"; "call"; "email"] text
  then (30, medium)
  else (60, low).

Lemma starts_with_spells w :
  forall s, starts_with w s = true
            <-> exists mid post, s = mid ++ post /\ spells true w mid.
Proof.
  induction w as [|a w IH]; intros s; simpl.
  - split; [intros _; exists [], s; split; [reflexivity|constructor]|reflexivity].
  - destruct s as [|x s].
    + split; [discriminate|]. intros (mid & post & E & S).
      inversion S; subst. discriminate.
    + rewrite andb_true_iff, IH. split.
      * intros (C & mid & post & -> & S). exists (x :: mid), post.
        split; [reflexivity|now constructor].
      * intros (mid & post & E & S). inversion S as [|? y ? l C T]; subst.
        injection E as -> ->. split; [exact C|]. now exists l, post.
Qed.

Lemma contains_spells w :
  forall s, contains w s = true
            <-> exists pre mid post, s = pre ++ mid ++ post /\ spells true w mid.
Proof.
  induction s as [|x s IH]; cbn [contains]; rewrite orb_true_iff, starts_with_spells.
  - split.
    + intros [(mid & post & E & S)|F]; [|discriminate]. now exists [], mid, post.
    + intros (pre & mid & post & E & S). left.
      destruct pre; [|discriminate]. now exists mid, post.
  - rewrite IH. split.
    + intros [(mid & post & E & S)|(pre & mid & post & E & S)].
      * now exists [], mid, post.
      * exists (x :: pre), mid, post. split; [simpl; now rewrite E|exact S].
    + intros ([|y pre] & mid & post & E & S).
      * left. now exists mid, post.
      * right. injection E as -> E. now exists pre, mid, post.
Qed.

Lemma contains_any_mentions ws s : contains_any ws s = true <-> mentions ws s.
Proof.
  unfold contains_any, mentions. rewrite existsb_exists. split.
  - intros (w & I & C). apply contains_spells in C.
    destruct C as (pre & mid & post & E & S). now exists w, pre, mid, post.
  - intros (w & pre & mid & post & I & E & S). exists w. split; [exact I|].
    apply contains_spells. now exists pre, mid, post.
Qed.

Lemma test_Words_contains_any ws s : test true (Words ws) s = contains_any ws s.
Proof.
  apply eq_true_iff_eq. rewrite test_Words, contains_any_mentions. reflexivity.
Qed.

(** The field inference of the code follows those words. *)
Lemma infer_duration_as_specified title :
  (value (infer_duration title), confidence (infer_duration title))
  = (NumberValue (fst (specified_duration title)), snd (specified_duration title)).
Proof.
  unfold infer_duration, specified_duration, title_complexity_verbs, title_quick_verbs.
  rewrite !test_Words_contains_any.
  destruct (_ || _); [reflexivity|]. destruct (_ && _); reflexivity.
Qed.

(** C4, as stated, fails: the line [buy milk] has no explicit duration; the
    parser gives it 30 minutes, the heuristic of the field inference 60. *)
Lemma a_plain_line_gets_thirty_minutes_not_sixty :
  let line := u16 "buy milk" in
  exec true explicit_duration line = None
  /\ line_duration line = (30, low, u16 "Default estimate for simple tasks")
  /\ specified_duration line = (60, low)
  /\ (value (infer_duration line), confidence (infer_duration line))
     = (NumberValue 60, low)
  /\ fst (fst (line_duration line)) <> fst (specified_duration line).
Proof.
  cbv zeta. split; [vm_compute; reflexivity|]. split; [vm_compute; reflexivity|].
  split; [vm_compute; reflexivity|]. split; [vm_compute; reflexivity|].
  intros H. apply (f_equal (fun x : number => PrimFloat.ltb x 40)) in H.
  vm_compute in H. discriminate.
Qed.

End LineDuration.


(** ** Field inference *)

Section FieldInference.
Local Open Scope float_scope.

Lemma infer_priority_returns t w :
  exists inference w', infer_priority t w = (Ok inference, w').
Proof.
  unfold infer_priority.
  destruct (deadline t) as [d|]; [|now eexists; eexists].
  unfold bind, Date_now.
  destruct (_ <? 24); [now eexists; eexists|].
  destruct (_ <? 72); now eexists; eexists.
Qed.

(** C9. [inferTaskFields] always returns, and the task it returns holds the
    input task unchanged: identifier, title, deadline, priority, duration,
    dependencies, notes, category and the splittable mark are the input's.
    A priority and a duration are inferred exactly when the input lacks
    them, and are recorded among the inferences only; a task whose priority
    was inferred thus has the priority field it came with, and the scorer
    gives it the importance 0.6 at every instant. *)
Theorem inferred_values_stay_among_the_inferences
    (t : StructuredTask) (context : option JsString) (w : World) :
  match inferTaskFields t context w with
  | (Ok r, _) =>
      base r = t
      /\ (id r = id t /\ title r = title t /\ deadline r = deadline t
          /\ priority r = priority t /\ duration r = duration t
          /\ dependencies r = dependencies t /\ notes r = notes t
          /\ category r = category t /\ splittable r = splittable t)
      /\ map fst (inferences r)
         = (if absent (priority t) then [priority_field] else [])
           ++ (if absent (duration t) then [duration_field] else [])
      /\ ~ undefined_inference r
      /\ (if absent (priority t)
          then forall now_,
              match score_at now_ r with
              | Ok s => importance s = 0.6
              | Throw _ => False
              end
          else True)
  | (Throw _, _) => False
  end.
Proof.
  unfold inferTaskFields, try_catch, mockFieldInference.
  assert (P : exists entries w1,
             (if absent (priority t)
              then bind (infer_priority t)
                     (fun inference => ret [(priority_field, Some inference)])
              else ret []) w = (Ok entries, w1)
             /\ map fst entries = (if absent (priority t) then [priority_field] else [])
             /\ ~ In None (map snd entries)).
  { destruct (absent (priority t)).
    - destruct (infer_priority_returns t w) as (inference & w1 & H).
      exists [(priority_field, Some inference)], w1.
      rewrite (bind_ok _ _ _ _ _ H). repeat split. simpl. intros [F|[]]. discriminate.
    - exists [], w. repeat split. simpl. tauto. }
  destruct P as (entries & w1 & P & Pf & Pu).
  rewrite (bind_ok _ _ _ _ _ P). unfold ret. cbn [base inferences].
  assert (U : ~ In None (map snd (entries
               ++ (if absent (duration t)
                   then [(duration_field, Some (infer_duration (title t)))] else [])))).
  { rewrite map_app. intros F. apply in_app_or in F. destruct F as [F|F]; [tauto|].
    destruct (absent (duration t)); simpl in F; [|tauto].
    destruct F as [F|[]]. discriminate. }
  split; [reflexivity|]. split; [repeat split|].
  split.
  { rewrite map_app, Pf. destruct (absent (duration t)); reflexivity. }
  split; [exact U|].
  destruct (absent (priority t)) eqn:A; [|exact I].
  intros now_. rewrite score_at_total. cbn [inferences].
  destruct (confidences _) as [cs|] eqn:C.
  - cbn [importance]. unfold importance_of. cbn [base].
    unfold absent in A. destruct (priority t) as [p|]; [|reflexivity].
    rewrite A. reflexivity.
  - apply confidences_none in C. exact (U C).
Qed.

End FieldInference.

(** ** The freeform parser *)

Section Freeform.

(** The world once the given entries, the latest first, are on the
    console. *)
Definition logged (entries : list LogEntry) (w : World) : World :=
  {| env := env w; ticks := ticks w; draws := draws w; requests := requests w;
     console := entries ++ console w |}.

(** C7. When the key is configured and the delegated strategy throws,
    whatever the error, [parseFreeformTasks] logs it and returns what the
    local strategy returns for the same text; when the delegated strategy
    returns, so does [parseFreeformTasks], with its result; without a key
    the local strategy is used at once. The local strategy always returns,
    so [parseFreeformTasks] never throws. *)
Theorem parse_falls_back_to_the_local_strategy
    (apiKey : option JsString) (text : JsString) (w : World) :
  if key_configured apiKey then
    match realGeminiParsing apiKey text w with
    | (Ok r, w1) => parseFreeformTasks apiKey text w = (Ok (FromService r), w1)
    | (Throw e, w1) =>
        exists r w2,
          mockGeminiParsing text
            (logged [Warn (u16 "Falling back to mock parsing due to API error");
                     LogError (u16 "Failed to parse freeform tasks:") e] w1)
          = (Ok r, w2)
          /\ parseFreeformTasks apiKey text w = (Ok (FromLocal r), w2)
    end
  else
    exists r w2,
      mockGeminiParsing text
        (logged [Warn (u16 "No Gemini API key provided, using mock parsing")] w)
      = (Ok r, w2)
      /\ parseFreeformTasks apiKey text w = (Ok (FromLocal r), w2).
Proof.
  unfold parseFreeformTasks, try_catch, bind, log, ret.
  destruct (key_configured apiKey).
  - destruct (realGeminiParsing apiKey text w) as [[r|e] w1]; [reflexivity|].
    destruct (mockGeminiParsing_spec text
                (logged [Warn (u16 "Falling back to mock parsing due to API error");
                         LogError (u16 "Failed to parse freeform tasks:") e] w1))
      as (r & w2 & M & _).
    exists r, w2. split; [exact M|].
    unfold logged in M. cbn [env ticks draws requests console app] in *.
    rewrite M. reflexivity.
  - destruct (mockGeminiParsing_spec text
                (logged [Warn (u16 "No Gemini API key provided, using mock parsing")] w))
      as (r & w2 & M & _).
    exists r, w2. split; [exact M|].
    unfold logged in M. cbn [env ticks draws requests console app] in *.
    rewrite M. reflexivity.
Qed.

(** The ways in which the request itself fails. *)
Lemma realGeminiParsing_request_failures c key text w :
  match fetch (env w) (requests w) (c :: key) text with
  | Rejected =>
      fst (realGeminiParsing (Some (c :: key)) text w) = Throw FetchRejected
  | Response false status_line _ =>
      fst (realGeminiParsing (Some (c :: key)) text w)
      = Throw (ErrorMessage (u16 "Gemini API error: " ++ status_line))
  | Response true _ None =>
      fst (realGeminiParsing (Some (c :: key)) text w) = Throw SyntaxError
  | Response true _ (Some _) => True
  end.
Proof.
  unfold realGeminiParsing, try_catch, bind, send, throw, log. cbn [env requests].
  destruct (fetch (env w) (requests w) (c :: key) text) as [|[|] status [data|]];
    try reflexivity.
Qed.

(** The ways in which a reply that did arrive is unusable. *)
Lemma realGeminiParsing_reply_failures c key text w status data :
  fetch (env w) (requests w) (c :: key) text = Response true status (Some data) ->
  match get data "candidates" with
  | Throw _ => fst (realGeminiParsing (Some (c :: key)) text w) = Throw TypeError
  | Ok candidates =>
      let generatedText :=
        get_opt (first_opt (get_opt (get_opt (first_opt candidates) "content") "parts"))
          "text" in
      if truthy generatedText then
        match generatedText with
        | JStr s =>
            match JSON_parse (env w) (trim (extract_json s)) with
            | None => fst (realGeminiParsing (Some (c :: key)) text w) = Throw SyntaxError
            | Some _ => True
            end
        | _ => fst (realGeminiParsing (Some (c :: key)) text w) = Throw TypeError
        end
      else
        fst (realGeminiParsing (Some (c :: key)) text w)
        = Throw (ErrorMessage (u16 "No response from Gemini API"))
  end.
Proof.
  intros F.
  unfold realGeminiParsing, try_catch, bind, send, throw, log, lift, get_env.
  cbn [env requests]. rewrite F.
  destruct (get data "candidates") as [candidates|e] eqn:G; cbn.
  - destruct (truthy _) eqn:T; [|reflexivity].
    destruct (get_opt _ "text") as [| | | |s| |]; try reflexivity.
    cbn [env].
    destruct (JSON_parse (env w) (trim (extract_json s))); [exact I|reflexivity].
  - unfold get in G. destruct data; try discriminate;
      try (destruct (lookup _ _); discriminate); injection G as <-; reflexivity.
Qed.

End Freeform.


(** ** Validation of the service's reply *)

Module Clamp.
Local Open Scope float_scope.

(** *** The order of numbers *)

Lemma SFcompare_antisym x y : SFcompare y x = option_map CompOpp (SFcompare x y).
Proof.
  destruct x as [s1|s1| |s1 m1 e1], y as [s2|s2| |s2 m2 e2]; simpl;
    try reflexivity;
    try (destruct s1; reflexivity); try (destruct s2; reflexivity);
    try (destruct s1, s2; reflexivity).
  destruct s1, s2; simpl; try reflexivity;
    rewrite (Z.compare_antisym e1 e2); destruct (e1 ?= e2)%Z; simpl; try reflexivity;
    change (Pos.compare_cont Eq m2 m1) with (Pos.compare m2 m1);
    change (Pos.compare_cont Eq m1 m2) with (Pos.compare m1 m2);
    rewrite (Pos.compare_antisym m1 m2); destruct (m1 ?= m2)%positive; reflexivity.
Qed.

Lemma not_nan_compares x y :
  is_nan x = false -> is_nan y = false ->
  exists c, SFcompare (Prim2SF x) (Prim2SF y) = Some c.
Proof.
  unfold is_nan. rewrite !FloatAxioms.eqb_spec. unfold SFeqb. intros X Y.
  destruct (Prim2SF x) as [s1|s1| |s1 m1 e1], (Prim2SF y) as [s2|s2| |s2 m2 e2];
    simpl in *; try discriminate; eexists; reflexivity.
Qed.

Lemma leb_of_not_ltb x y :
  is_nan x = false -> is_nan y = false -> (y <? x) = false -> (x <=? y) = true.
Proof.
  intros X Y. destruct (not_nan_compares x y X Y) as (c & C).
  rewrite FloatAxioms.ltb_spec, FloatAxioms.leb_spec. unfold SFltb, SFleb.
  rewrite (SFcompare_antisym (Prim2SF x) (Prim2SF y)), C. simpl.
  destruct c; simpl; congruence.
Qed.

Lemma leb_of_ltb x y : (x <? y) = true -> (x <=? y) = true.
Proof.
  rewrite FloatAxioms.ltb_spec, FloatAxioms.leb_spec. unfold SFltb, SFleb.
  destruct (SFcompare (Prim2SF x) (Prim2SF y)) as [[]|]; congruence.
Qed.

Lemma ltb_irrefl x : (x <? x) = false.
Proof.
  rewrite FloatAxioms.ltb_spec. unfold SFltb.
  pose proof (SFcompare_antisym (Prim2SF x) (Prim2SF x)) as A.
  destruct (SFcompare (Prim2SF x) (Prim2SF x)) as [[]|]; simpl in A; congruence.
Qed.

Lemma leb_refl x : is_nan x = false -> (x <=? x) = true.
Proof. intros X. apply leb_of_not_ltb; auto using ltb_irrefl. Qed.

(** *** [Math.max] and [Math.min] between numbers *)

Lemma Math_max_bounds a b :
  is_nan a = false -> is_nan b = false ->
  (Math_max a b = a \/ Math_max a b = b)
  /\ (a <=? Math_max a b) = true /\ (b <=? Math_max a b) = true.
Proof.
  intros A B. unfold Math_max. rewrite A, B. simpl.
  destruct (a <? b) eqn:L1.
  - split; [now right|]. split; [now apply leb_of_ltb|now apply leb_refl].
  - destruct (b <? a) eqn:L2.
    + split; [now left|]. split; [now apply leb_refl|now apply leb_of_ltb].
    + destruct (get_sign a).
      * split; [now right|]. split; [now apply leb_of_not_ltb|now apply leb_refl].
      * split; [now left|]. split; [now apply leb_refl|now apply leb_of_not_ltb].
Qed.

Lemma Math_min_bounds a b :
  is_nan a = false -> is_nan b = false ->
  (Math_min a b = a \/ Math_min a b = b)
  /\ (Math_min a b <=? a) = true /\ (Math_min a b <=? b) = true.
Proof.
  intros A B. unfold Math_min. rewrite A, B. simpl.
  destruct (a <? b) eqn:L1.
  - split; [now left|]. split; [now apply leb_refl|now apply leb_of_ltb].
  - destruct (b <? a) eqn:L2.
    + split; [now right|]. split; [now apply leb_of_ltb|now apply leb_refl].
    + destruct (get_sign a).
      * split; [now left|]. split; [now apply leb_refl|now apply leb_of_not_ltb].
      * split; [now right|]. split; [now apply leb_of_not_ltb|now apply leb_refl].
Qed.

(** [x] lies between [lo] and [hi]. *)
Definition within (lo hi x : number) : bool := (lo <=? x) && (x <=? hi).

(** [Math.max(lo, Math.min(hi, x))] lies within the bounds when [x] is a
    number, and is [NaN] when [x] is. *)
Lemma clamped lo hi x :
  is_nan lo = false -> is_nan hi = false -> (lo <=? hi) = true ->
  if is_nan x then is_nan (Math_max lo (Math_min hi x)) = true
  else within lo hi (Math_max lo (Math_min hi x)) = true.
Proof.
  intros Lo Hi Le. destruct (is_nan x) eqn:X.
  - unfold Math_min. rewrite X, orb_true_r. unfold Math_max.
    replace (is_nan nan) with true by reflexivity. rewrite orb_true_r. reflexivity.
  - destruct (Math_min_bounds hi x Hi X) as (M & M1 & _).
    assert (Mn : is_nan (Math_min hi x) = false) by (destruct M as [->| ->]; assumption).
    destruct (Math_max_bounds lo (Math_min hi x) Lo Mn) as (R & R1 & _).
    unfold within. rewrite R1. simpl.
    destruct R as [->| ->]; assumption.
Qed.

End Clamp.

Section Validation.
Import Clamp.
Local Open Scope float_scope.

(** *** Numbers *)

(** [x] is [NaN] or lies between [lo] and [hi]. *)
Definition NaN_or_within (lo hi x : number) : Prop :=
  is_nan x = true \/ within lo hi x = true.

Lemma clamp_spec E lo hi v x :
  is_nan lo = false -> is_nan hi = false -> (lo <=? hi) = true ->
  clamp E lo hi v = Ok x ->
  exists n, ToNumber E v = Ok n
            /\ x = Math_max lo (Math_min hi n)
            /\ (if is_nan n then is_nan x = true else within lo hi x = true).
Proof.
  intros Lo Hi Le. unfold clamp, min_with.
  destruct (ToNumber E v) as [n|e]; [|discriminate].
  intros H. injection H as <-. exists n. repeat split. now apply clamped.
Qed.

Lemma clamp_range E lo hi v x :
  is_nan lo = false -> is_nan hi = false -> (lo <=? hi) = true ->
  clamp E lo hi v = Ok x -> NaN_or_within lo hi x.
Proof.
  intros Lo Hi Le H. destruct (clamp_spec E lo hi v x Lo Hi Le H) as (n & _ & _ & R).
  unfold NaN_or_within. destruct (is_nan n); tauto.
Qed.

(** A value that is a number, or is missing, always ends up within the
    bounds. *)
Lemma clamp_number E lo hi fallback x :
  is_nan lo = false -> is_nan hi = false -> (lo <=? hi) = true ->
  is_nan fallback = false ->
  exists r, clamp E lo hi (or_else (JNum x) (JNum fallback)) = Ok r
            /\ within lo hi r = true.
Proof.
  intros Lo Hi Le F. unfold or_else, truthy, falsy, clamp, min_with.
  destruct (is_zero x || is_nan x) eqn:Z; simpl.
  - eexists. split; [reflexivity|].
    pose proof (clamped lo hi fallback Lo Hi Le) as C. now rewrite F in C.
  - eexists. split; [reflexivity|].
    apply orb_false_iff in Z. destruct Z as [_ Z].
    pose proof (clamped lo hi x Lo Hi Le) as C. now rewrite Z in C.
Qed.

Lemma transform_number_inference_range E lo hi fallback words entry r :
  is_nan lo = false -> is_nan hi = false -> (lo <=? hi) = true ->
  transform_number_inference E lo hi fallback words entry = Ok (Some r) ->
  NaN_or_within lo hi (v_value r).
Proof.
  intros Lo Hi Le. unfold transform_number_inference.
  destruct (truthy entry); [|discriminate].
  destruct (get entry "value") as [v|e]; [|discriminate].
  destruct (clamp E lo hi _) as [x|e] eqn:C; [|discriminate].
  intros H. injection H as <-. simpl. eapply clamp_range; eauto.
Qed.

(** What the validation guarantees for a task it builds: each number is
    [NaN] or clamped. (The confidences are labels by construction.) *)
Definition numbers_clamped_or_NaN (t : TransformedTask) : Prop :=
  NaN_or_within 1 5 (t_priority t)
  /\ NaN_or_within 15 240 (t_duration t)
  /\ match inferred_priority (t_inferences t) with
     | Some r => NaN_or_within 1 5 (v_value r)
     | None => True
     end
  /\ match inferred_duration (t_inferences t) with
     | Some r => NaN_or_within 15 240 (v_value r)
     | None => True
     end.

Lemma transform_task_range t index w task w' :
  transform_task t index w = (Ok task, w') -> numbers_clamped_or_NaN task.
Proof.
  unfold transform_task, bind, get_env, lift.
  destruct (get t "id") as [given|e]; [|discriminate].
  destruct ((if truthy given then ret given else _) w) as [[id|e] w1]; [|discriminate].
  destruct (clamp (env w) 15 240 _) as [d|e] eqn:D; [|discriminate].
  destruct (clamp (env w) 1 5 _) as [p|e] eqn:P; [|discriminate].
  destruct (if truthy (get_opt t "deadline") then _ else _) as [dl|e]; [|discriminate].
  destruct (transform_number_inference (env w) 1 5 _ _ _) as [ip|e] eqn:IP; [|discriminate].
  destruct (transform_number_inference (env w) 15 240 _ _ _) as [idr|e] eqn:ID;
    [|discriminate].
  destruct (transform_deadline_inference (env w) _) as [idl|e]; [|discriminate].
  unfold ret. intros H. injection H as <- _.
  unfold numbers_clamped_or_NaN. simpl.
  split; [eapply clamp_range; eauto; reflexivity|].
  split; [eapply clamp_range; eauto; reflexivity|].
  split.
  - destruct ip as [r|]; [|exact I].
    eapply transform_number_inference_range; eauto; reflexivity.
  - destruct idr as [r|]; [|exact I].
    eapply transform_number_inference_range; eauto; reflexivity.
Qed.

Lemma map_indexed_range items :
  forall index w tasks w',
    map_indexed transform_task items index w = (Ok tasks, w') ->
    Forall numbers_clamped_or_NaN tasks.
Proof.
  induction items as [|t rest IH]; intros index w tasks w' H; simpl in H.
  - injection H as <- _. constructor.
  - unfold bind at 1 in H.
    destruct (transform_task t index w) as [[task|e] w1] eqn:T; [|discriminate].
    unfold bind at 1 in H.
    destruct (map_indexed transform_task rest (S index) w1) as [[tasks'|e] w2] eqn:R;
      [|discriminate].
    injection H as <- _. constructor; [eapply transform_task_range; eauto|eauto].
Qed.

(** Every task the validation builds has its numbers clamped, or [NaN]. *)
Lemma validated_numbers_are_clamped_or_NaN response w r w' :
  validateAndTransformGeminiResponse response w = (Ok r, w') ->
  Forall numbers_clamped_or_NaN (r_extractedTasks r).
Proof.
  unfold validateAndTransformGeminiResponse, bind, lift.
  destruct (get response "extractedTasks") as [listed|e]; [|discriminate].
  destruct (or_else listed (JArr [])) as [| | | | |items|]; try discriminate.
  destruct (map_indexed transform_task items 0 w) as [[tasks|e] w1] eqn:M;
    [|discriminate].
  unfold ret. intros H. injection H as <- _. simpl. eapply map_indexed_range; eauto.
Qed.

(** *** Confidence labels *)

Definition label (c : InferenceConfidence) : JsString :=
  match c with
  | low => u16 "low"
  | medium => u16 "medium"
  | high => u16 "high"
  end.

Lemma str_eqb_eq a : forall b, str_eqb a b = true <-> a = b.
Proof.
  induction a as [|x a IH]; intros [|y b]; simpl; try (split; [discriminate|discriminate]).
  - split; reflexivity.
  - rewrite andb_true_iff, IH. unfold char16_eqb. rewrite N.eqb_eq.
    split; [intros [-> ->]; reflexivity|intros H; injection H as -> ->; now split].
Qed.

(** A value that is one of the three labels is taken as it is; any other
    value gives the fallback. *)
Lemma confidence_or_spec fallback v :
  (exists c, v = JStr (label c) /\ confidence_or fallback v = c)
  \/ ((forall c, v <> JStr (label c)) /\ confidence_or fallback v = fallback).
Proof.
  destruct v as [| | | |s| |];
    try (right; split; [intros c; discriminate|reflexivity]).
  unfold confidence_or.
  destruct (str_eqb s (u16 "low")) eqn:L.
  { apply str_eqb_eq in L. subst. left. now exists low. }
  destruct (str_eqb s (u16 "medium")) eqn:M.
  { apply str_eqb_eq in M. subst. left. now exists medium. }
  destruct (str_eqb s (u16 "high")) eqn:H.
  { apply str_eqb_eq in H. subst. left. now exists high. }
  right. split; [|reflexivity].
  intros c E. injection E as ->.
  destruct c; vm_compute in L, M, H; discriminate.
Qed.

(** *** A payload that is not clamped *)

(** A payload with one task, whose priority and duration are given in
    words. *)
Definition worded_payload : JsValue :=
  JObj [ (u16 "extractedTasks",
          JArr [ JObj [ (u16 "title", JStr (u16 "Call the supplier"));
                        (u16 "priority", JStr (u16 "high"));
                        (u16 "duration", JStr (u16 "one hour")) ] ]) ].

(** C8 fails on the code: for the payload above the validation returns a
    task whose priority and duration are [NaN], within neither [1, 5] nor
    [15, 240]. *)
Theorem worded_priority_and_duration_become_NaN (w : World) :
  match validateAndTransformGeminiResponse worded_payload w with
  | (Ok r, _) =>
      match r_extractedTasks r with
      | [t] =>
          is_nan (t_priority t) = true /\ within 1 5 (t_priority t) = false
          /\ is_nan (t_duration t) = true /\ within 15 240 (t_duration t) = false
      | _ => False
      end
  | (Throw _, _) => False
  end.
Proof. vm_compute. repeat split. Qed.

End Validation.


(** ** The order of a plan *)

From Stdlib Require Import Sorted.
Import SchedulingService.

Module Order.
Import Clamp.
Local Open Scope float_scope.

(** *** More on the order of numbers *)

Lemma SFleb_trans x y z :
  SFleb x y = true -> SFleb y z = true -> SFleb x z = true.
Proof.
  unfold SFleb.
  destruct x as [s1|s1| |s1 m1 e1], y as [s2|s2| |s2 m2 e2], z as [s3|s3| |s3 m3 e3];
    simpl; try (intros; reflexivity); try discriminate;
    try (destruct s1; simpl; try discriminate; try (intros; reflexivity));
    try (destruct s2; simpl; try discriminate; try (intros; reflexivity));
    try (destruct s3; simpl; try discriminate; try (intros; reflexivity)).
  all: change (Pos.compare_cont Eq m1 m2) with (Pos.compare m1 m2);
    change (Pos.compare_cont Eq m2 m3) with (Pos.compare m2 m3);
    change (Pos.compare_cont Eq m1 m3) with (Pos.compare m1 m3);
    destruct (Z.compare_spec e1 e2), (Z.compare_spec e2 e3), (Z.compare_spec e1 e3);
    simpl; try discriminate; try (intros; reflexivity); try lia; subst;
    destruct (Pos.compare_spec m1 m2), (Pos.compare_spec m2 m3), (Pos.compare_spec m1 m3);
    simpl; try discriminate; try (intros; reflexivity); try lia.
Qed.

Lemma leb_trans x y z : (x <=? y) = true -> (y <=? z) = true -> (x <=? z) = true.
Proof. rewrite !FloatAxioms.leb_spec. apply SFleb_trans. Qed.

(** A number less itself is never positive. *)
Lemma sub_diag_not_positive v : (0 <? v - v) = false.
Proof.
  rewrite FloatAxioms.ltb_spec, FloatAxioms.sub_spec. unfold SFltb, SF64sub.
  destruct (Prim2SF v) as [[]|[]| |s m e]; try reflexivity.
  cbn [SFsub]. cbv zeta. rewrite Z.sub_diag. reflexivity.
Qed.


(** *** The totals of well-typed tasks *)

Fixpoint dedupe (xs : list number) : list number :=
  match xs with
  | [] => []
  | x :: rest => if existsb (Leibniz.eqb x) rest then dedupe rest else x :: dedupe rest
  end.

Lemma dedupe_in x xs : In x xs -> In x (dedupe xs).
Proof.
  induction xs as [|y rest IH]; simpl; [tauto|].
  intros [->|I].
  - destruct (existsb (Leibniz.eqb x) rest) eqn:E; [|now left].
    apply IH. apply existsb_exists in E. destruct E as (z & Iz & E).
    apply Leibniz.eqb_spec in E. now subst.
  - destruct (existsb (Leibniz.eqb y) rest); [|right]; now apply IH.
Qed.

(** Every total a well-typed task can have. *)
Definition all_totals : list number :=
  flat_map (fun u =>
    flat_map (fun i => map (fun cs => total_of u i (penalty_of cs)) (sequences 4))
      importances)
    urgencies.

Definition totals : list number := Eval vm_compute in dedupe all_totals.

Lemma totals_eq : totals = dedupe all_totals.
Proof. vm_compute. reflexivity. Qed.

Lemma total_in_totals now_ t s :
  well_typed t -> score_at now_ t = Ok s -> In (total s) totals.
Proof.
  intros W. rewrite score_at_total.
  destruct (confidences (map snd (inferences t))) as [cs|] eqn:C; [|discriminate].
  intros H. injection H as <-. cbn [total].
  rewrite totals_eq. apply dedupe_in, in_flat_map. exists (urgency_at now_ t).
  split; [apply urgency_at_cases|].
  apply in_flat_map. exists (importance_of t).
  split; [now apply importance_of_cases|].
  apply (in_map (fun cs => total_of (urgency_at now_ t) (importance_of t) (penalty_of cs))).
  apply sequences_complete.
  rewrite (confidences_length _ _ C), length_map. now apply at_most_four_inferences.
Qed.

(** On those totals the comparator of the sort is positive exactly when
    its first argument has the smaller total, and none is [NaN]. *)
Definition comparator_orders : bool :=
  forallb (fun x =>
    negb (is_nan x)
    && forallb (fun y => Bool.eqb (gt (y - x) 0) (x <? y)) totals) totals.

Lemma comparator_orders_true : comparator_orders = true.
Proof. vm_compute. reflexivity. Qed.

Lemma comparator_orders_at x y :
  In x totals -> In y totals ->
  is_nan x = false /\ gt (y - x) 0 = (x <? y).
Proof.
  intros X Y. pose proof comparator_orders_true as C. unfold comparator_orders in C.
  rewrite forallb_forall in C. specialize (C x X).
  apply andb_true_iff in C. destruct C as [N C].
  rewrite forallb_forall in C. specialize (C y Y).
  apply eqb_prop in C. split; [|exact C].
  now destruct (is_nan x).
Qed.

(** *** The sort *)

(** [a] has at least the total of [b]. *)
Definition at_least (a b : Scored) : Prop :=
  (total (snd b) <=? total (snd a)) = true.

Definition scored_in_totals (x : Scored) : Prop := In (total (snd x)) totals.

Lemma insert_sorted_in x l y : In y (insert_sorted x l) -> y = x \/ In y l.
Proof.
  intros I. apply (Permutation_in _ (insert_sorted_perm x l)) in I.
  destruct I as [<-|I]; tauto.
Qed.

Lemma insert_sorted_sorted x l :
  scored_in_totals x -> Forall scored_in_totals l ->
  StronglySorted at_least l -> StronglySorted at_least (insert_sorted x l).
Proof.
  intros X. induction l as [|y rest IH]; intros L S; simpl.
  - repeat constructor.
  - inversion L as [|? ? Y L']; subst. inversion S as [|? ? S' F]; subst.
    unfold comparator.
    destruct (comparator_orders_at _ _ X Y) as [Nx ->].
    destruct (comparator_orders_at _ _ Y X) as [Ny _].
    destruct (total (snd x) <? total (snd y)) eqn:C.
    + constructor; [now apply IH|].
      apply Forall_forall. intros z Iz. apply insert_sorted_in in Iz.
      destruct Iz as [->|Iz].
      * unfold at_least. now apply leb_of_ltb.
      * rewrite Forall_forall in F. now apply F.
    + assert (A : at_least x y) by (unfold at_least; now apply leb_of_not_ltb).
      constructor; [now constructor|].
      constructor; [exact A|].
      apply Forall_forall. intros z Iz. rewrite Forall_forall in F.
      unfold at_least in *. eapply leb_trans; [apply F, Iz|exact A].
Qed.

Lemma sort_sorted l :
  Forall scored_in_totals l -> StronglySorted at_least (sort l).
Proof.
  induction l as [|x rest IH]; intros L; simpl; [constructor|].
  inversion L as [|? ? X L']; subst.
  apply insert_sorted_sorted; [exact X| |now apply IH].
  apply Forall_forall. intros y Iy.
  apply (Permutation_in _ (sort_perm rest)) in Iy.
  rewrite Forall_forall in L'. now apply L'.
Qed.

(** The sort is stable: the elements that have a given total keep the
    order they had. *)
Definition has_total (v : number) (x : Scored) : bool := Leibniz.eqb (total (snd x)) v.

Lemma insert_sorted_stable v x l :
  filter (has_total v) (insert_sorted x l) = filter (has_total v) (x :: l).
Proof.
  induction l as [|y rest IH]; [reflexivity|].
  cbn [insert_sorted].
  destruct (gt (comparator x y) 0) eqn:C; [|reflexivity].
  cbn [filter] in *. rewrite IH.
  destruct (has_total v x) eqn:X; [|reflexivity].
  destruct (has_total v y) eqn:Y; [|reflexivity].
  unfold has_total in X, Y. apply Leibniz.eqb_spec in X, Y.
  unfold comparator, gt in C. rewrite X, Y, sub_diag_not_positive in C. discriminate.
Qed.

Lemma sort_stable v l : filter (has_total v) (sort l) = filter (has_total v) l.
Proof.
  induction l as [|x rest IH]; [reflexivity|].
  cbn [sort fold_right]. fold (sort rest).
  rewrite insert_sorted_stable. cbn [filter]. rewrite IH. reflexivity.
Qed.

End Order.


(** ** Plans, task by task *)

Module Planning.
Import Order.
Local Open Scope float_scope.

Lemma score_at_error now_ t e : score_at now_ t = Throw e -> e = TypeError.
Proof.
  rewrite score_at_total. destruct (confidences _); [discriminate|].
  intros H. now injection H.
Qed.

Lemma score_at_undefined now_ t :
  undefined_inference t -> score_at now_ t = Throw TypeError.
Proof.
  intros U. rewrite score_at_total.
  apply confidences_none in U. now rewrite U.
Qed.

Lemma extractAssumptions_loop_error entries e :
  extractAssumptions_loop entries = Throw e -> e = TypeError.
Proof.
  induction entries as [|[field [inference|]] rest IH]; simpl.
  - discriminate.
  - destruct (extractAssumptions_loop rest) eqn:R.
    + destruct (confidence inference); discriminate.
    + intros H. injection H as <-. now apply IH.
  - intros H. now injection H.
Qed.

Lemma plan_one_error item e : plan_one item = Throw e -> e = TypeError.
Proof.
  destruct item as [t s]. unfold plan_one.
  destruct (extractAssumptions t) eqn:A; [discriminate|].
  intros H. injection H as <-. eapply extractAssumptions_loop_error. exact A.
Qed.

Lemma score_all_error tasks settings planDate :
  forall w,
    match score_all tasks settings planDate w with
    | (Ok _, _) => True
    | (Throw e, _) => e = TypeError
    end.
Proof.
  induction tasks as [|t rest IH]; intros w; [exact I|].
  unfold score_all. cbn [mapM].
  unfold bind at 1. unfold bind at 1.
  rewrite calculatePriorityScore_eq.
  destruct (score_at _ t) as [s|e] eqn:S.
  - unfold ret at 1. unfold bind at 1.
    match goal with |- context [mapM ?f rest ?w1] => specialize (IH w1) end.
    unfold score_all in IH.
    destruct (mapM _ rest _) as [[scored|e] w2]; [exact I|exact IH].
  - eapply score_at_error; eauto.
Qed.

(** The planned tasks are made from the scored ones, one by one and in
    order. *)
Lemma scheduleTasks_plans scored settings planDate w :
  match scheduleTasks scored settings planDate w with
  | (Ok planned, w') =>
      w' = w /\ Forall2 (fun item p => plan_one item = Ok p) scored planned
  | (Throw e, _) => e = TypeError
  end.
Proof.
  unfold scheduleTasks. induction scored as [|item rest IH]; cbn [mapM].
  - split; [reflexivity|constructor].
  - unfold bind at 1. unfold lift at 1.
    destruct (plan_one item) as [p|e] eqn:P.
    + unfold bind at 1.
      destruct (mapM _ rest w) as [[planned|e] w'] eqn:R.
      * destruct IH as [-> IH]. unfold ret. split; [reflexivity|now constructor].
      * exact IH.
    + eapply plan_one_error; eauto.
Qed.

Lemma Forall2_plan_one scored planned :
  Forall2 (fun item p => plan_one item = Ok p) scored planned ->
  map (fun p => (task p, priorityScore p)) planned = scored
  /\ Forall (fun p => plan_one (task p, priorityScore p) = Ok p) planned.
Proof.
  induction 1 as [|item p scored planned P _ [IH1 IH2]]; [split; [reflexivity|constructor]|].
  pose proof (plan_one_ok _ _ P) as E. split.
  - simpl. now rewrite IH1, E.
  - constructor; [now rewrite E|exact IH2].
Qed.

(** The readings of the clock a call of [generateDailyPlan] takes. *)
Definition readings (tasks : list InferredTask) (planDate : option Date) : nat :=
  match planDate with
  | Some _ => 3 + List.length tasks
  | None => 4 + List.length tasks
  end.

(** A plan in full: the scores in the order of the input, the planned
    tasks in the order of the sort, the sections and the overdue tasks
    taken from these in order. *)
Lemma generateDailyPlan_order tasks settings planDate w :
  match generateDailyPlan tasks settings planDate w with
  | (Ok plan, w') =>
      exists scored planned,
        map (fun x : Scored => (fst x, Ok (snd x))) scored
        = scores_from (env w) (first_reading planDate w) tasks
        /\ map (fun p => (task p, priorityScore p)) planned = sort scored
        /\ Forall (fun p => plan_one (task p, priorityScore p) = Ok p) planned
        /\ sections plan
           = {| now := filter in_now planned;
                next := filter only_next planned;
                later := filter only_later planned |}
        /\ overdueTasks plan
           = filter (is_overdue (overdue_instant tasks planDate w)) planned
        /\ totalTasks (metadata plan) = List.length tasks
        /\ clock_only (readings tasks planDate) w w'
  | (Throw e, _) => e = TypeError
  end.
Proof.
  unfold generateDailyPlan.
  assert (P : exists w0,
             (match planDate with Some d => ret d | None => new_Date end) w
             = (Ok (plan_date planDate w), w0)
             /\ clock_only (first_reading planDate w - ticks w) w w0).
  { destruct planDate as [d|]; unfold first_reading, plan_date.
    - exists w. split; [reflexivity|]. rewrite Nat.sub_diag. apply clock_only_0.
    - replace (S (ticks w) - ticks w)%nat with 1%nat by lia. apply new_Date_spec. }
  destruct P as (w0 & P & C0).
  assert (He0 : env w0 = env w) by apply C0.
  assert (Ht0 : ticks w0 = first_reading planDate w).
  { destruct C0 as (_ & T & _). rewrite T. unfold first_reading. destruct planDate; lia. }
  rewrite (bind_ok _ _ _ _ _ P).
  pose proof (score_all_spec tasks settings (plan_date planDate w) w0) as S.
  pose proof (score_all_error tasks settings (plan_date planDate w) w0) as SE.
  unfold score_all in S, SE.
  destruct (mapM _ tasks w0) as [[scored|e] w1] eqn:R.
  2:{ rewrite (bind_throw _ _ _ _ _ R). exact SE. }
  rewrite (bind_ok _ _ _ _ _ R). destruct S as [S1 S2].
  pose proof (scheduleTasks_plans (sort scored) settings (plan_date planDate w) w1) as T.
  destruct (scheduleTasks (sort scored) settings (plan_date planDate w) w1)
    as [[planned|e] w2] eqn:R2.
  2:{ rewrite (bind_throw _ _ _ _ _ R2). exact T. }
  rewrite (bind_ok _ _ _ _ _ R2). destruct T as [-> T].
  apply Forall2_plan_one in T. destruct T as [T1 T2].
  unfold identifyOverdueTasks.
  destruct (new_Date_spec w1) as (w3 & N3 & C3).
  rewrite (bind_ok _ _ w1
             (filter (is_overdue (TimeValue (clock (env w1) (ticks w1)))) planned) w3).
  2:{ rewrite (bind_ok _ _ _ _ _ N3). reflexivity. }
  destruct (Date_now_spec w3) as (w4 & N4 & C4).
  rewrite (bind_ok _ _ _ _ _ N4).
  destruct (new_Date_spec w4) as (w5 & N5 & C5).
  rewrite (bind_ok _ _ _ _ _ N5).
  unfold ret. exists scored, planned. cbn [sections overdueTasks metadata totalTasks].
  rewrite categorizeTasks_spec.
  split; [now rewrite <- He0, <- Ht0|].
  split; [exact T1|]. split; [exact T2|]. split; [reflexivity|].
  split.
  { unfold overdue_instant. destruct S2 as (E1 & T1' & _).
    rewrite E1, T1', He0, Ht0. reflexivity. }
  split; [reflexivity|].
  pose proof (clock_only_trans _ _ _ _ _ C0 S2) as A1.
  pose proof (clock_only_trans _ _ _ _ _ A1 C3) as A2.
  pose proof (clock_only_trans _ _ _ _ _ A2 C4) as A3.
  pose proof (clock_only_trans _ _ _ _ _ A3 C5) as A4.
  replace (readings tasks planDate)
    with (1 + (1 + (1 + (List.length tasks + (first_reading planDate w - ticks w)))))%nat.
  - exact A4.
  - unfold readings, first_reading. destruct planDate; lia.
Qed.

(** Each score of a list of scores is that of its task at some reading of
    the clock. *)
Lemma scores_from_score E tasks :
  forall k t r, In (t, r) (scores_from E k tasks) ->
                exists j, r = score_at (TimeValue (clock E j)) t.
Proof.
  induction tasks as [|t' rest IH]; simpl; intros k t r I; [contradiction|].
  destruct I as [I|I]; [injection I as <- <-; now exists k|eauto].
Qed.

Lemma scores_from_covers E tasks :
  forall k t, In t tasks -> exists r, In (t, r) (scores_from E k tasks).
Proof.
  induction tasks as [|t' rest IH]; simpl; intros k t I; [contradiction|].
  destruct I as [->|I]; [eexists; now left|].
  destruct (IH (S k) t I) as (r & H). exists r. now right.
Qed.

(** What holds of every task that a plan places. *)
Lemma placed_task tasks settings planDate w :
  match generateDailyPlan tasks settings planDate w with
  | (Ok plan, _) =>
      forall p, In p (placed plan) ->
        In (task p) tasks
        /\ (exists j, score_at (TimeValue (clock (env w) j)) (task p) = Ok (priorityScore p))
        /\ plan_one (task p, priorityScore p) = Ok p
        /\ (In p (now (sections plan)) <-> in_now p = true)
        /\ (In p (next (sections plan)) <-> only_next p = true)
        /\ (In p (later (sections plan)) <-> only_later p = true)
        /\ (In p (overdueTasks plan)
            <-> is_overdue (overdue_instant tasks planDate w) p = true)
  | (Throw _, _) => True
  end.
Proof.
  pose proof (generateDailyPlan_order tasks settings planDate w) as H.
  destruct (generateDailyPlan tasks settings planDate w) as [[plan|e] w']; [|exact I].
  destruct H as (scored & planned & Hs & Hp & Ho & Hsec & Hover & _).
  intros p Ip.
  assert (Ipl : In p planned).
  { eapply Permutation_in; [|exact Ip]. unfold placed. rewrite Hsec. simpl.
    apply three_way_perm. }
  assert (Isc : In (task p, Ok (priorityScore p))
                  (scores_from (env w) (first_reading planDate w) tasks)).
  { rewrite <- Hs.
    apply (in_map (fun x : Scored => (fst x, Ok (snd x))) scored (task p, priorityScore p)).
    apply (Permutation_in _ (sort_perm scored)). rewrite <- Hp.
    now apply (in_map (fun p => (task p, priorityScore p))). }
  split; [eapply scores_from_in; eauto|].
  split.
  { destruct (scores_from_score _ _ _ _ _ Isc) as (j & E). now exists j. }
  split.
  { rewrite Forall_forall in Ho. now apply Ho. }
  rewrite Hsec, Hover. cbn [now next later]. rewrite !filter_In. tauto.
Qed.

(** A plan is returned only when no task has an undefined inference. *)
Lemma plans_need_defined_inferences tasks settings planDate w :
  match generateDailyPlan tasks settings planDate w with
  | (Ok _, _) => forall t, In t tasks -> ~ undefined_inference t
  | (Throw _, _) => True
  end.
Proof.
  pose proof (generateDailyPlan_order tasks settings planDate w) as O.
  destruct (generateDailyPlan tasks settings planDate w) as [[plan|e] w']; [|exact I].
  destruct O as (scored & _ & Hs & _).
  intros t It.
  destruct (scores_from_covers (env w) tasks (first_reading planDate w) t It) as (r & Ir).
  destruct (scores_from_score _ _ _ _ _ Ir) as (j & Er).
  rewrite <- Hs in Ir. apply in_map_iff in Ir. destruct Ir as ([t' s] & E & _).
  injection E as -> E. rewrite Er in E. symmetry in E.
  eapply score_at_ok. exact E.
Qed.

End Planning.


Import Order Planning.

(** ** What every plan shows *)

Section PlanFacts.
Local Open Scope float_scope.

Variables (tasks : list InferredTask) (settings : PlanningSettings).

(** X1. [generateDailyPlan] fails exactly when some task has an inference
    that is present and [undefined], and then with a [TypeError]: when it
    returns a plan no task has such an inference, and when it throws, the
    error is a [TypeError] and some task has one. *)
Theorem a_plan_fails_exactly_on_an_undefined_inference
    (planDate : option Date) (w : World) :
  match generateDailyPlan tasks settings planDate w with
  | (Ok _, _) => forall t, In t tasks -> ~ undefined_inference t
  | (Throw e, _) => e = TypeError /\ exists t, In t tasks /\ undefined_inference t
  end.
Proof.
  pose proof (generateDailyPlan_shape tasks settings planDate w) as S.
  pose proof (generateDailyPlan_order tasks settings planDate w) as O.
  pose proof (plans_need_defined_inferences tasks settings planDate w) as D.
  destruct (generateDailyPlan tasks settings planDate w) as [[plan|e] w'].
  - exact D.
  - split; [exact O|exact S].
Qed.

(** X2. In a plan the number of tasks of the metadata is the number of
    tasks given, and also the number of tasks the three sections hold
    together; the overdue tasks are at most as many; no line is reported
    as ambiguous. The call reads the clock once for each task and three
    times more, and once more when [planDate] is left out; it draws no
    random value, sends no request and logs nothing. *)
Theorem the_metadata_counts_the_placed_tasks (planDate : option Date) (w : World) :
  match generateDailyPlan tasks settings planDate w with
  | (Ok plan, w') =>
      totalTasks (metadata plan) = List.length tasks
      /\ totalTasks (metadata plan)
         = (List.length (now (sections plan)) + List.length (next (sections plan))
            + List.length (later (sections plan)))%nat
      /\ (List.length (overdueTasks plan) <= totalTasks (metadata plan))%nat
      /\ ambiguousTasks plan = []
      /\ env w' = env w
      /\ ticks w' = (match planDate with
                     | Some _ => 3 + List.length tasks
                     | None => 4 + List.length tasks
                     end + ticks w)%nat
      /\ draws w' = draws w /\ requests w' = requests w /\ console w' = console w
  | (Throw _, _) => exists t, In t tasks /\ undefined_inference t
  end.
Proof.
  pose proof (generateDailyPlan_shape tasks settings planDate w) as S.
  pose proof (generateDailyPlan_order tasks settings planDate w) as O.
  destruct (generateDailyPlan tasks settings planDate w) as [[plan|e] w']; [|exact S].
  destruct S as (planned & Hperm & Hsec & Hover & _ & Ha & Ht & _).
  destruct O as (_ & _ & _ & _ & _ & _ & _ & _ & C).
  assert (L : List.length planned = List.length tasks).
  { apply Permutation_length in Hperm.
    rewrite length_map in Hperm. rewrite Hperm.
    rewrite <- (length_map fst), scores_from_tasks. reflexivity. }
  split; [exact Ht|]. split.
  { rewrite Ht, <- L, Hsec. cbn [now next later].
    rewrite <- (Permutation_length (three_way_perm planned)), !length_app. lia. }
  split.
  { rewrite Ht, <- L, Hover. apply filter_length_le. }
  split; [exact Ha|]. exact C.
Qed.

(** X3. The settings play no part in a plan, and no task is given a time
    window: with any other settings the call gives the same outcome and
    leaves the host in the same state, and every placed task has its time
    window undefined. *)
Theorem settings_and_time_windows_play_no_part (planDate : option Date) (w : World) :
  (forall settings', generateDailyPlan tasks settings' planDate w
                     = generateDailyPlan tasks settings planDate w)
  /\ match generateDailyPlan tasks settings planDate w with
     | (Ok plan, _) =>
         forall p, In p (placed plan) \/ In p (overdueTasks plan) -> timeWindow p = None
     | (Throw _, _) => exists t, In t tasks /\ undefined_inference t
     end.
Proof.
  split; [reflexivity|].
  pose proof (generateDailyPlan_shape tasks settings planDate w) as S.
  pose proof (placed_task tasks settings planDate w) as P.
  destruct (generateDailyPlan tasks settings planDate w) as [[plan|e] w']; [|exact S].
  destruct S as (planned & _ & Hsec & Hover & _).
  assert (Q : forall p, In p (placed plan) -> timeWindow p = None).
  { intros p Ip. destruct (P p Ip) as (_ & _ & One & _).
    unfold plan_one in One. destruct (extractAssumptions (task p)); [|discriminate].
    injection One as <-. reflexivity. }
  intros p [Ip|Ip]; [now apply Q|].
  apply Q. rewrite Hover in Ip. apply filter_In in Ip.
  eapply Permutation_in; [apply Permutation_sym|apply Ip].
  unfold placed. rewrite Hsec. apply three_way_perm.
Qed.

(** *** Order *)

(** [p] has at least the total of [q]. *)
Definition outranks (p q : PlannedTask) : Prop :=
  (total (priorityScore q) <=? total (priorityScore p)) = true.

Lemma StronglySorted_map_inv {A B} (f : A -> B) (R : B -> B -> Prop) l :
  StronglySorted R (map f l) -> StronglySorted (fun a b => R (f a) (f b)) l.
Proof.
  induction l as [|a rest IH]; intros S; [constructor|].
  simpl in S. inversion S as [|? ? S' F]; subst.
  constructor; [now apply IH|].
  rewrite Forall_forall in *. intros b Ib. apply F. now apply in_map.
Qed.

Lemma StronglySorted_filter {A} (R : A -> A -> Prop) (keep : A -> bool) l :
  StronglySorted R l -> StronglySorted R (filter keep l).
Proof.
  induction 1 as [|a rest S IH F]; simpl; [constructor|].
  destruct (keep a); [|exact IH].
  constructor; [exact IH|].
  rewrite Forall_forall in *. intros b Ib. apply filter_In in Ib. now apply F.
Qed.

(** X4. When the tasks are well typed, each section of a plan lists its
    tasks from the highest total to the lowest, and so does the list of
    overdue tasks: no task comes after a task of a lower total. *)
Theorem sections_run_from_the_highest_total_down (planDate : option Date) (w : World) :
  Forall well_typed tasks ->
  match generateDailyPlan tasks settings planDate w with
  | (Ok plan, _) =>
      StronglySorted outranks (now (sections plan))
      /\ StronglySorted outranks (next (sections plan))
      /\ StronglySorted outranks (later (sections plan))
      /\ StronglySorted outranks (overdueTasks plan)
  | (Throw _, _) => exists t, In t tasks /\ undefined_inference t
  end.
Proof.
  intros W.
  pose proof (generateDailyPlan_shape tasks settings planDate w) as S.
  pose proof (generateDailyPlan_order tasks settings planDate w) as O.
  destruct (generateDailyPlan tasks settings planDate w) as [[plan|e] w']; [|exact S].
  clear S. destruct O as (scored & planned & Hs & Hp & _ & Hsec & Hover & _).
  assert (T : Forall scored_in_totals scored).
  { apply Forall_forall. intros [t s] I.
    apply (in_map (fun x : Scored => (fst x, Ok (snd x)))) in I.
    rewrite Hs in I. cbn [fst snd] in I.
    pose proof (scores_from_in _ _ _ _ _ I) as It.
    destruct (scores_from_score _ _ _ _ _ I) as (j & E).
    rewrite Forall_forall in W.
    eapply total_in_totals; [apply W, It|symmetry; exact E]. }
  assert (P : StronglySorted outranks planned).
  { apply sort_sorted in T. rewrite <- Hp in T.
    apply StronglySorted_map_inv in T. exact T. }
  rewrite Hsec, Hover. cbn [now next later].
  repeat split; now apply StronglySorted_filter.
Qed.

(** The sections of a score. *)
Definition now_score (s : PriorityScore) : bool :=
  gt (urgency s) 0.8 || gt (total s) 0.8.
Definition next_score (s : PriorityScore) : bool :=
  negb (now_score s) && gt (total s) 0.5.
Definition later_score (s : PriorityScore) : bool :=
  negb (now_score s) && negb (gt (total s) 0.5).

Lemma filter_both {A} (f g : A -> bool) l :
  filter (fun x => f x && g x) l = filter g (filter f l).
Proof.
  induction l as [|a rest IH]; [reflexivity|]. simpl.
  destruct (f a); simpl; [destruct (g a)|]; now rewrite IH.
Qed.

Lemma filter_map_swap {A B} (f : A -> B) (keep : B -> bool) l :
  map f (filter (fun a => keep (f a)) l) = filter keep (map f l).
Proof.
  induction l as [|a rest IH]; [reflexivity|]. simpl.
  destruct (keep (f a)); simpl; now rewrite IH.
Qed.

(** X5. Ties keep the order of the input. In each section of a plan, the
    tasks that have a given total are the input tasks that have this total
    and belong to the section, with their scores, in the order in which
    the input lists them. *)
Theorem equal_totals_keep_the_order_of_the_input (planDate : option Date) (w : World) :
  match generateDailyPlan tasks settings planDate w with
  | (Ok plan, _) =>
      exists scored : list Scored,
        map (fun x : Scored => (fst x, Ok (snd x))) scored
        = scores_from (env w) (first_reading planDate w) tasks
        /\ forall v : number,
            let those_of (section : list PlannedTask) :=
              map (fun p => (task p, priorityScore p))
                (filter (fun p => Leibniz.eqb (total (priorityScore p)) v) section) in
            let those_in (belongs : PriorityScore -> bool) :=
              filter (fun x : Scored => Leibniz.eqb (total (snd x)) v && belongs (snd x))
                scored in
            those_of (now (sections plan)) = those_in now_score
            /\ those_of (next (sections plan)) = those_in next_score
            /\ those_of (later (sections plan)) = those_in later_score
  | (Throw _, _) => exists t, In t tasks /\ undefined_inference t
  end.
Proof.
  pose proof (generateDailyPlan_shape tasks settings planDate w) as S.
  pose proof (generateDailyPlan_order tasks settings planDate w) as O.
  destruct (generateDailyPlan tasks settings planDate w) as [[plan|e] w']; [|exact S].
  clear S. destruct O as (scored & planned & Hs & Hp & _ & Hsec & _).
  exists scored. split; [exact Hs|]. intros v those_of those_in.
  assert (K : forall belongs : PriorityScore -> bool,
             those_of (filter (fun p => belongs (priorityScore p)) planned)
             = those_in belongs).
  { intros belongs. unfold those_of, those_in.
    rewrite <- filter_both.
    pose (keep := fun x : Scored => belongs (snd x) && Leibniz.eqb (total (snd x)) v).
    transitivity (filter keep (map (fun p => (task p, priorityScore p)) planned)).
    { exact (filter_map_swap (fun p => (task p, priorityScore p)) keep planned). }
    rewrite Hp.
    rewrite (filter_ext keep (fun x => has_total v x && belongs (snd x))
               (fun x => andb_comm _ _)).
    rewrite (filter_both (has_total v) (fun x => belongs (snd x))).
    rewrite sort_stable, <- filter_both. reflexivity. }
  rewrite Hsec. cbn [now next later].
  split; [exact (K now_score)|]. split; [exact (K next_score)|exact (K later_score)].
Qed.

End PlanFacts.

(** The theorem on the order of the sections, at two well-typed tasks. *)
Lemma sections_run_from_the_highest_total_down_witness :
  let tasks := [Examples.inferred "tidy the desk" low;
                Examples.inferred "review budget" high] in
  Forall well_typed tasks
  /\ match generateDailyPlan tasks Examples.settings None Examples.world with
     | (Ok plan, _) =>
         StronglySorted outranks (now (sections plan))
         /\ StronglySorted outranks (next (sections plan))
         /\ StronglySorted outranks (later (sections plan))
         /\ StronglySorted outranks (overdueTasks plan)
     | (Throw _, _) => exists t, In t tasks /\ undefined_inference t
     end.
Proof.
  intros tasks.
  assert (W : Forall well_typed tasks).
  { repeat constructor; simpl; tauto. }
  split; [exact W|].
  exact (sections_run_from_the_highest_total_down tasks Examples.settings None
           Examples.world W).
Defined.


(** ** Reasons and assumptions *)

Section Explanations.
Local Open Scope string_scope.
Local Open Scope list_scope.
Local Open Scope float_scope.

Variables (tasks : list InferredTask) (settings : PlanningSettings).

(** [s.startsWith(w)] and [s.includes(w)]. *)
Fixpoint begins_with (w s : JsString) : bool :=
  match w, s with
  | [], _ => true
  | a :: w', x :: s' => char16_eqb a x && begins_with w' s'
  | _ :: _, [] => false
  end.

Fixpoint includes (w s : JsString) : bool :=
  begins_with w s || match s with [] => false | _ :: s' => includes w s' end.

(** The remarks a reason makes, for each of the ways in which the
    comparisons of [generateSchedulingReason] can turn out. *)
Lemma reason_remarks t s :
  let says (words : string) := includes (u16 words) (generateSchedulingReason t s) in
  says "urgent deadline" = gt (urgency s) 0.8
  /\ says "approaching deadline" = negb (gt (urgency s) 0.8) && gt (urgency s) 0.6
  /\ says "deadline" = gt (urgency s) 0.8 || gt (urgency s) 0.6
  /\ says "high priority" = gt (importance s) 0.8
  /\ says "lower priority" = negb (gt (importance s) 0.8) && (importance s <? 0.4)
  /\ says "adjusted for inference uncertainty" = gt (uncertaintyPenalty s) 0.1
  /\ says "Scheduled due to " = negb (str_eqb (generateSchedulingReason t s)
                                        (u16 "Scheduled based on availability."))
  /\ says "Scheduled due to "
     = gt (urgency s) 0.8 || gt (urgency s) 0.6 || gt (importance s) 0.8
       || (importance s <? 0.4) || gt (uncertaintyPenalty s) 0.1.
Proof.
  unfold generateSchedulingReason.
  destruct (gt (urgency s) 0.8), (gt (urgency s) 0.6), (gt (importance s) 0.8),
    (importance s <? 0.4), (gt (uncertaintyPenalty s) 0.1);
    vm_compute; repeat split.
Qed.

(** X6. The reason given for a placed task names what stands out in its
    score: it mentions an urgent deadline exactly when the urgency exceeds
    0.8, and the task is then in [now]; an approaching deadline exactly
    when the urgency exceeds 0.6 but not 0.8; a high priority exactly when
    the importance exceeds 0.8, a lower priority exactly when it is below
    0.4; the uncertainty of the inferences exactly when the penalty exceeds
    0.1. The reason of a task without a deadline mentions no deadline. The
    reason is [Scheduled based on availability.] exactly when none of these
    holds. *)
Theorem reasons_name_what_stands_out (planDate : option Date) (w : World) :
  match generateDailyPlan tasks settings planDate w with
  | (Ok plan, _) =>
      forall p, In p (placed plan) ->
        let s := priorityScore p in
        let says (words : string) := includes (u16 words) (schedulingReason p) in
        says "urgent deadline" = gt (urgency s) 0.8
        /\ (says "urgent deadline" = true -> In p (now (sections plan)))
        /\ says "approaching deadline" = negb (gt (urgency s) 0.8) && gt (urgency s) 0.6
        /\ (deadline (task p) = None -> says "deadline" = false)
        /\ says "high priority" = gt (importance s) 0.8
        /\ says "lower priority" = negb (gt (importance s) 0.8) && (importance s <? 0.4)
        /\ says "adjusted for inference uncertainty" = gt (uncertaintyPenalty s) 0.1
        /\ (schedulingReason p = u16 "Scheduled based on availability."
            <-> gt (urgency s) 0.6 = false /\ gt (importance s) 0.8 = false
                /\ (importance s <? 0.4) = false /\ gt (uncertaintyPenalty s) 0.1 = false)
  | (Throw _, _) => exists t, In t tasks /\ undefined_inference t
  end.
Proof.
  pose proof (generateDailyPlan_shape tasks settings planDate w) as S.
  pose proof (placed_task tasks settings planDate w) as P.
  destruct (generateDailyPlan tasks settings planDate w) as [[plan|e] w']; [|exact S].
  clear S. intros p Ip s says.
  destruct (P p Ip) as (_ & (j & Sc) & One & Now).
  assert (R : schedulingReason p = generateSchedulingReason (task p) s).
  { unfold plan_one in One. destruct (extractAssumptions (task p)); [|discriminate].
    injection One as <-. reflexivity. }
  destruct (reason_remarks (task p) s) as (R1 & R2 & R3 & R4 & R5 & R6 & R7 & R8).
  unfold says. rewrite R.
  split; [exact R1|]. split.
  { rewrite R1. intros U. apply Now. unfold in_now. fold s. now rewrite U. }
  split; [exact R2|]. split.
  { intros D. rewrite R3.
    assert (U : urgency s = 0.5).
    { unfold s. unfold score_at in Sc.
      destruct (penalty_loop _ _); [|discriminate]. injection Sc as <-.
      cbn [urgency]. unfold urgency_at. now rewrite D. }
    rewrite U. reflexivity. }
  split; [exact R4|]. split; [exact R5|]. split; [exact R6|].
  split.
  - intros E. apply str_eqb_eq in E. rewrite E in R7. rewrite R7 in R8.
    symmetry in R8. cbn [negb] in R8.
    apply orb_false_iff in R8. destruct R8 as [R8 D].
    apply orb_false_iff in R8. destruct R8 as [R8 C].
    apply orb_false_iff in R8. destruct R8 as [R8 B].
    apply orb_false_iff in R8. destruct R8 as [_ A].
    repeat split; assumption.
  - intros (A & B & C & D).
    assert (A' : gt (urgency s) 0.8 = false).
    { assert (U : In (urgency s) urgencies).
      { unfold s. unfold score_at in Sc.
        destruct (penalty_loop _ _); [|discriminate]. injection Sc as <-.
        apply urgency_at_cases. }
      destruct U as [U|[U|[U|[U|[U|[]]]]]]; rewrite <- U in A |- *;
        solve [reflexivity | discriminate A]. }
    rewrite A', A, B, C, D in R8. cbn [orb] in R8. rewrite R8 in R7.
    symmetry in R7. apply negb_false_iff in R7. apply str_eqb_eq in R7. exact R7.
Qed.

(** *** Assumptions *)

(** An inference that is defined and not of high confidence. *)
Definition uncertain (entry : InferenceField * option Inference) : bool :=
  match snd entry with
  | Some inference =>
      match confidence inference with
      | high => false
      | _ => true
      end
  | None => false
  end.

(** The assumption [extractAssumptions] words for an inference. *)
Definition assumption_of (entry : InferenceField * option Inference) : JsString :=
  match snd entry with
  | Some inference => field_name (fst entry) ++ u16 ": " ++ rationale inference
  | None => []
  end.

Lemma extractAssumptions_loop_lists entries :
  forall listed, extractAssumptions_loop entries = Ok listed ->
                 listed = map assumption_of (filter uncertain entries).
Proof.
  induction entries as [|[field [inference|]] rest IH]; simpl; intros listed H.
  - now injection H.
  - destruct (extractAssumptions_loop rest) as [listed'|]; [|discriminate].
    unfold uncertain at 1. cbn [snd].
    destruct (confidence inference); injection H as <-; simpl;
      now rewrite (IH listed' eq_refl).
  - discriminate.
Qed.

(** The doubt of a confidence: two for low, one for medium. *)
Definition doubt_of (c : InferenceConfidence) : nat :=
  match c with
  | low => 2
  | medium => 1
  | high => 0
  end.

Definition doubts (cs : list InferenceConfidence) : nat :=
  fold_right (fun c n => (doubt_of c + n)%nat) 0%nat cs.

(** The doubt of a task: that of its defined inferences together. *)
Definition doubt (t : InferredTask) : nat :=
  fold_right
    (fun entry n =>
       match snd entry with
       | Some inference => (doubt_of (confidence inference) + n)%nat
       | None => n
       end) 0%nat (inferences t).

Lemma doubt_confidences t cs :
  confidences (map snd (inferences t)) = Some cs -> doubt t = doubts cs.
Proof.
  unfold doubt. revert cs.
  induction (inferences t) as [|[field [inference|]] rest IH]; simpl; intros cs H.
  - now injection H as <-.
  - destruct (confidences (map snd rest)) as [cs'|]; [|discriminate].
    injection H as <-. simpl. now rewrite (IH cs' eq_refl).
  - discriminate.
Qed.

Lemma no_doubt_no_uncertain t :
  doubt t = 0%nat <-> filter uncertain (inferences t) = [].
Proof.
  unfold doubt.
  induction (inferences t) as [|[field [inference|]] rest IH]; simpl.
  - tauto.
  - unfold uncertain at 1. cbn [snd].
    destruct (confidence inference); simpl; try (split; [lia|discriminate]). exact IH.
  - exact IH.
Qed.

(** With at most four inferences, the penalty is zero exactly when there is
    no doubt, and exceeds 0.1 exactly when the doubt is three or more. *)
Definition penalty_thresholds : bool :=
  forallb (fun cs =>
    Bool.eqb (Leibniz.eqb (penalty_of cs) 0) (Nat.eqb (doubts cs) 0)
    && Bool.eqb (gt (penalty_of cs) 0.1) (Nat.leb 3 (doubts cs)))
    (sequences 4).

Lemma penalty_thresholds_true : penalty_thresholds = true.
Proof. vm_compute. reflexivity. Qed.

Lemma penalty_of_doubt now_ t s :
  well_typed t -> score_at now_ t = Ok s ->
  (uncertaintyPenalty s = 0 <-> doubt t = 0%nat)
  /\ (gt (uncertaintyPenalty s) 0.1 = true <-> (3 <= doubt t)%nat).
Proof.
  intros W. rewrite score_at_total.
  destruct (confidences (map snd (inferences t))) as [cs|] eqn:C; [|discriminate].
  intros H. injection H as <-. cbn [uncertaintyPenalty].
  rewrite (doubt_confidences _ _ C).
  pose proof penalty_thresholds_true as P. unfold penalty_thresholds in P.
  rewrite forallb_forall in P. specialize (P cs).
  assert (L : (List.length cs <= 4)%nat).
  { rewrite (confidences_length _ _ C), length_map. now apply at_most_four_inferences. }
  specialize (P (sequences_complete 4 cs L)).
  apply andb_true_iff in P. destruct P as [P1 P2].
  apply eqb_prop in P1, P2. split.
  - rewrite <- Nat.eqb_eq, <- P1. symmetry. apply Leibniz.eqb_spec.
  - rewrite P2. apply Nat.leb_le.
Qed.

(** X7. The assumptions shown for a placed task are those of its
    inferences that are not of high confidence, in the order of the
    inferences, each worded as the name of the field, a colon and the
    rationale; its conditional guidance is the hints of the task. When the
    task is well typed, the uncertainty penalty of its score is zero exactly
    when no assumption is shown. *)
Theorem assumptions_list_the_uncertain_inferences (planDate : option Date) (w : World) :
  match generateDailyPlan tasks settings planDate w with
  | (Ok plan, _) =>
      forall p, In p (placed plan) ->
        assumptions (explainability p)
        = map assumption_of (filter uncertain (inferences (task p)))
        /\ conditionalGuidance (explainability p) = conditionalHints (task p)
        /\ (well_typed (task p) ->
            (uncertaintyPenalty (priorityScore p) = 0
             <-> assumptions (explainability p) = []))
  | (Throw _, _) => exists t, In t tasks /\ undefined_inference t
  end.
Proof.
  pose proof (generateDailyPlan_shape tasks settings planDate w) as S.
  pose proof (placed_task tasks settings planDate w) as P.
  destruct (generateDailyPlan tasks settings planDate w) as [[plan|e] w']; [|exact S].
  clear S. intros p Ip.
  destruct (P p Ip) as (_ & (j & Sc) & One & _).
  unfold plan_one, extractAssumptions in One.
  destruct (extractAssumptions_loop (inferences (task p))) as [listed|] eqn:A;
    [|discriminate].
  apply extractAssumptions_loop_lists in A.
  assert (E : explainability p
              = {| factors := factors (explainability p);
                   assumptions := listed;
                   conditionalGuidance := conditionalHints (task p) |}).
  { injection One as <-. reflexivity. }
  rewrite E. cbn [assumptions conditionalGuidance].
  split; [exact A|]. split; [reflexivity|].
  intros W. destruct (penalty_of_doubt _ _ _ W Sc) as [Z _].
  rewrite Z, no_doubt_no_uncertain, A. split.
  - intros ->. reflexivity.
  - intros M. now apply map_eq_nil in M.
Qed.

(** X8. The reason of a well-typed placed task mentions the uncertainty of
    the inferences exactly when the doubt of the task is three or more,
    counting two for each inference of low confidence and one for each of
    medium confidence: one uncertain inference, or two of medium
    confidence, are not mentioned. *)
Theorem uncertainty_is_mentioned_from_a_doubt_of_three
    (planDate : option Date) (w : World) :
  match generateDailyPlan tasks settings planDate w with
  | (Ok plan, _) =>
      forall p, In p (placed plan) -> well_typed (task p) ->
        (includes (u16 "adjusted for inference uncertainty") (schedulingReason p) = true
         <-> (3 <= doubt (task p))%nat)
  | (Throw _, _) => exists t, In t tasks /\ undefined_inference t
  end.
Proof.
  pose proof (generateDailyPlan_shape tasks settings planDate w) as S.
  pose proof (placed_task tasks settings planDate w) as P.
  destruct (generateDailyPlan tasks settings planDate w) as [[plan|e] w']; [|exact S].
  clear S. intros p Ip W.
  destruct (P p Ip) as (_ & (j & Sc) & One & _).
  assert (R : schedulingReason p = generateSchedulingReason (task p) (priorityScore p)).
  { unfold plan_one in One. destruct (extractAssumptions (task p)); [|discriminate].
    injection One as <-. reflexivity. }
  destruct (reason_remarks (task p) (priorityScore p)) as (_ & _ & _ & _ & _ & R6 & _).
  rewrite R, R6. apply (penalty_of_doubt _ _ _ W Sc).
Qed.

(** With at most four inferences, a total of 0.5 or less takes a doubt of
    two or more, and of three or more at the urgency of a task without a
    deadline. *)
Definition later_takes_doubt : bool :=
  forallb (fun u =>
    forallb (fun i =>
      forallb (fun cs =>
        gt (total_of u i (penalty_of cs)) 0.5
        || (Nat.leb 2 (doubts cs)
            && (negb (Leibniz.eqb u 0.5) || Nat.leb 3 (doubts cs))))
        (sequences 4))
      importances)
    urgencies.

Lemma later_takes_doubt_true : later_takes_doubt = true.
Proof. vm_compute. reflexivity. Qed.

(** X9. Only doubtful tasks are left for later. A well-typed task that a
    plan places in [later] has a doubt of two or more: an inference of low
    confidence, or two of medium confidence; and of three or more when it
    has no deadline. A well-typed task all of whose inferences are of high
    confidence is therefore in [now] or in [next]. *)
Theorem only_doubtful_tasks_are_left_for_later (planDate : option Date) (w : World) :
  match generateDailyPlan tasks settings planDate w with
  | (Ok plan, _) =>
      forall p, In p (later (sections plan)) -> well_typed (task p) ->
        (2 <= doubt (task p))%nat
        /\ (deadline (task p) = None -> (3 <= doubt (task p))%nat)
  | (Throw _, _) => exists t, In t tasks /\ undefined_inference t
  end.
Proof.
  pose proof (generateDailyPlan_shape tasks settings planDate w) as S.
  pose proof (placed_task tasks settings planDate w) as P.
  destruct (generateDailyPlan tasks settings planDate w) as [[plan|e] w']; [|exact S].
  clear S. intros p Il W.
  assert (Ip : In p (placed plan)).
  { unfold placed. apply in_or_app. right. apply in_or_app. now right. }
  destruct (P p Ip) as (_ & (j & Sc) & _ & _ & _ & Lt & _).
  apply Lt in Il. unfold only_later, in_next in Il.
  apply andb_true_iff in Il. destruct Il as [_ Il]. apply negb_true_iff in Il.
  rewrite score_at_total in Sc.
  destruct (confidences (map snd (inferences (task p)))) as [cs|] eqn:C; [|discriminate].
  injection Sc as Sc. rewrite <- Sc in Il. cbn [total] in Il.
  rewrite (doubt_confidences _ _ C).
  pose proof later_takes_doubt_true as T. unfold later_takes_doubt in T.
  rewrite forallb_forall in T.
  specialize (T _ (urgency_at_cases (TimeValue (clock (env w) j)) (task p))).
  rewrite forallb_forall in T. specialize (T _ (importance_of_cases _ W)).
  rewrite forallb_forall in T. specialize (T cs).
  assert (L : (List.length cs <= 4)%nat).
  { rewrite (confidences_length _ _ C), length_map. now apply at_most_four_inferences. }
  specialize (T (sequences_complete 4 cs L)).
  rewrite Il in T. cbn [orb] in T.
  apply andb_true_iff in T. destruct T as [T2 T3]. apply Nat.leb_le in T2.
  split; [exact T2|]. intros D.
  unfold urgency_at in T3. rewrite D in T3.
  change (Leibniz.eqb 0.5 0.5) with true in T3. cbn [negb orb] in T3.
  now apply Nat.leb_le.
Qed.

(** *** Deadlines that are no dates *)

Lemma hours_to_an_invalid_date (x c k : number) : ((nan - x) / c <? k) = false.
Proof.
  rewrite FloatAxioms.ltb_spec, FloatAxioms.div_spec, FloatAxioms.sub_spec.
  reflexivity.
Qed.

Lemma nothing_after_an_invalid_date (x : number) : (nan <? x) = false.
Proof. rewrite FloatAxioms.ltb_spec. reflexivity. Qed.

(** X10. A placed task whose deadline is an invalid date has the urgency
    0.3, the lowest there is and lower than the 0.5 of a task without a
    deadline, and is never among the overdue tasks. *)
Theorem an_invalid_deadline_is_the_least_urgent (planDate : option Date) (w : World) :
  match generateDailyPlan tasks settings planDate w with
  | (Ok plan, _) =>
      forall p, In p (placed plan) ->
        (deadline (task p) = Some InvalidDate ->
         urgency (priorityScore p) = 0.3 /\ ~ In p (overdueTasks plan))
        /\ (deadline (task p) = None ->
            urgency (priorityScore p) = 0.5 /\ ~ In p (overdueTasks plan))
        /\ (0.3 <=? urgency (priorityScore p)) = true
  | (Throw _, _) => exists t, In t tasks /\ undefined_inference t
  end.
Proof.
  pose proof (generateDailyPlan_shape tasks settings planDate w) as S.
  pose proof (placed_task tasks settings planDate w) as P.
  destruct (generateDailyPlan tasks settings planDate w) as [[plan|e] w']; [|exact S].
  destruct S as (planned & _ & _ & Hover & _).
  intros p Ip. destruct (P p Ip) as (_ & (j & Sc) & _ & _).
  assert (U : urgency (priorityScore p)
              = urgency_at (TimeValue (clock (env w) j)) (task p)).
  { unfold score_at in Sc. destruct (penalty_loop _ _); [|discriminate].
    now injection Sc as <-. }
  rewrite U, Hover. split; [|split].
  - intros D. unfold urgency_at. rewrite D. cbn [getTime]. cbv zeta.
    rewrite !hours_to_an_invalid_date. split; [reflexivity|].
    intros F. apply filter_In in F. destruct F as [_ F].
    unfold is_overdue, date_lt in F. rewrite D in F. cbn [getTime] in F.
    rewrite nothing_after_an_invalid_date in F. discriminate.
  - intros D. unfold urgency_at. rewrite D. split; [reflexivity|].
    intros F. apply filter_In in F. destruct F as [_ F].
    unfold is_overdue in F. rewrite D in F. discriminate.
  - pose proof (urgency_at_cases (TimeValue (clock (env w) j)) (task p)) as C.
    destruct C as [C|[C|[C|[C|[C|[]]]]]]; rewrite <- C; reflexivity.
Qed.

End Explanations.


(** ** Tasks from the local parser *)

Section LocalTasks.
Local Open Scope string_scope.
Local Open Scope list_scope.
Local Open Scope float_scope.

(** X11. The priority the local parser reads from a line: 5 with high
    confidence when the line mentions urgent, asap, critical or three
    exclamation marks; else 4 with medium confidence when it mentions
    important, high or two exclamation marks; else 2 with medium
    confidence when it mentions low, minor or [when time]; else 3 with low
    confidence. A mention is any part of the line that spells the word,
    whatever the case of the letters and whatever surrounds it. *)
Theorem line_priority_rule (line : JsString) :
  let urgent := mentions ["urgent"; "asap"; "critical"; "!!!"] line in
  let important := mentions ["important"; "high"; "!!"] line in
  let minor := mentions ["low"; "minor"; "when time"] line in
  (urgent /\ line_priority line = (5, high, u16 "Detected urgency keywords"))
  \/ (~ urgent /\ important
      /\ line_priority line = (4, medium, u16 "Detected importance keywords"))
  \/ (~ urgent /\ ~ important /\ minor
      /\ line_priority line = (2, medium, u16 "Detected low priority indicators"))
  \/ (~ urgent /\ ~ important /\ ~ minor
      /\ line_priority line
         = (3, low, u16 "Assumed medium priority (no indicators found)")).
Proof.
  cbv zeta. unfold line_priority, urgency_keywords, importance_keywords,
    low_priority_keywords.
  pose proof (test_Words ["urgent"; "asap"; "critical"; "!!!"] line) as U.
  pose proof (test_Words ["important"; "high"; "!!"] line) as I.
  pose proof (test_Words ["low"; "minor"; "when time"] line) as L.
  destruct (test true (Words ["urgent"; "asap"; "critical"; "!!!"]) line).
  { left. split; [now apply U|reflexivity]. }
  assert (NU : ~ mentions ["urgent"; "asap"; "critical"; "!!!"] line).
  { intros F. apply U in F. discriminate. }
  destruct (test true (Words ["important"; "high"; "!!"]) line).
  { right. left. split; [exact NU|]. split; [now apply I|reflexivity]. }
  assert (NI : ~ mentions ["important"; "high"; "!!"] line).
  { intros F. apply I in F. discriminate. }
  destruct (test true (Words ["low"; "minor"; "when time"]) line).
  { right. right. left. split; [exact NU|]. split; [exact NI|].
    split; [now apply L|reflexivity]. }
  right. right. right. split; [exact NU|]. split; [exact NI|].
  split; [|reflexivity]. intros F. apply L in F. discriminate.
Qed.

Lemma line_priority_cases line :
  In (fst (fst (line_priority line))) [5; 4; 2; 3].
Proof.
  unfold line_priority.
  destruct (test true urgency_keywords line); [simpl; tauto|].
  destruct (test true importance_keywords line); [simpl; tauto|].
  destruct (test true low_priority_keywords line); simpl; tauto.
Qed.

(** *** The deadline of a line *)





Lemma Group_matches i n a s c :
  Matches i (Group n a) s c -> exists c', c = (n, s) :: c' /\ Matches i a s c'.
Proof. intros M. inversion M; subst. eauto. Qed.

Lemma Seq_matches i a b s c :
  Matches i (Seq a b) s c ->
  exists s1 s2 c1 c2,
    s = s1 ++ s2 /\ c = c2 ++ c1 /\ Matches i a s1 c1 /\ Matches i b s2 c2.
Proof. intros M. inversion M; subst. eauto 8. Qed.

Lemma Char_matches i c s caps :
  Matches i (Char c) s caps -> exists x, s = [x] /\ char_matches i c x = true /\ caps = [].
Proof. intros M. inversion M; subst. eauto. Qed.




(** What [line_deadline] leaves of the world, and the confidence of what it
    finds. *)
Lemma line_deadline_spec line w :
  exists found w',
    line_deadline line w = (Ok found, w')
    /\ env w' = env w /\ draws w' = draws w /\ requests w' = requests w
    /\ console w' = console w
    /\ (ticks w <= ticks w' <= S (ticks w))%nat
    /\ match found with
       | Some (_, c, _) => c = high
       | None => True
       end.
Proof.
  unfold line_deadline.
  destruct (exec true deadline_pattern line) as [m|].
  2:{ exists None, w. repeat split; lia. }
  unfold bind, Date_now, get_env, ret. cbn [env].
  destruct (str_eqb _ (u16 "today")).
  { eexists. eexists. split; [reflexivity|]. cbn. repeat split; lia. }
  destruct (str_eqb _ (u16 "tomorrow")).
  { eexists. eexists. split; [reflexivity|]. cbn. repeat split; lia. }
  eexists. eexists. split; [reflexivity|]. cbn. repeat split; lia.
Qed.

(** What [parseTaskLine] leaves of the world: it reads the clock once or
    twice and draws one random value. *)
Definition after_a_line (w w' : World) : Prop :=
  env w' = env w /\ requests w' = requests w /\ console w' = console w
  /\ draws w' = S (draws w) /\ (S (ticks w) <= ticks w' <= 2 + ticks w)%nat.

(** A task as [parseTaskLine] makes them. *)
Definition parsed_from (line : JsString) (t : InferredTask) : Prop :=
  exists p pc pr d dc dr,
    line_priority line = (p, pc, pr) /\ line_duration line = (d, dc, dr)
    /\ title t = clean_title line /\ title t <> []
    /\ priority t = Some p /\ duration t = Some d
    /\ inferences t
       = [ (priority_field,
            Some {| value := NumberValue p; confidence := pc; rationale := pr |});
           (duration_field,
            Some {| value := NumberValue d; confidence := dc; rationale := dr |}) ]
         ++ match deadline t with
            | Some day =>
                [ (deadline_field,
                   Some {| value := DateValue day; confidence := high;
                           rationale := match inferences t with
                                        | [_; _; (_, Some i)] => rationale i
                                        | _ => []
                                        end |}) ]
            | None => []
            end
    /\ conditionalHints t = generateConditionalHints p d
    /\ dependencies t = None /\ notes t = None /\ category t = None
    /\ splittable t = None.

Lemma parseTaskLine_spec line w :
  exists r w',
    parseTaskLine line w = (Ok r, w')
    /\ after_a_line w w'
    /\ match r with
       | Some t =>
           parsed_from line t
           /\ id t = u16 "task-" ++ string_of_Z (clock (env w) (ticks w)) ++ u16 "-"
                     ++ random (env w) (draws w)
       | None => clean_title line = []
       end.
Proof.
  unfold parseTaskLine. unfold bind at 1. unfold Date_now at 1.
  unfold bind at 1. unfold random_suffix at 1. cbn [env ticks draws requests console].
  destruct (line_priority line) as [[p pc] pr] eqn:LP.
  destruct (line_duration line) as [[d dc] dr] eqn:LD.
  match goal with
  | |- context [bind (line_deadline line) _ ?w0] =>
      destruct (line_deadline_spec line w0) as (found & w1 & F & He & Hd & Hr & Hc & Ht & Hf);
      rewrite (bind_ok _ _ _ _ _ F)
  end.
  cbn [env ticks draws requests console] in *.
  assert (A : after_a_line w w1).
  { unfold after_a_line. repeat split; try assumption; lia. }
  destruct (clean_title line) as [|c cleaned] eqn:CT.
  - exists None, w1. repeat split; apply A.
  - eexists. exists w1. split; [reflexivity|]. split; [exact A|].
    split; [|reflexivity].
    exists p, pc, pr, d, dc, dr. cbn [base title priority duration inferences deadline
      conditionalHints dependencies notes category splittable id].
    split; [exact LP|]. split; [exact LD|]. split; [now rewrite CT|].
    split; [discriminate|]. split; [reflexivity|]. split; [reflexivity|].
    split; [|repeat split].
    destruct found as [[[day c'] r']|]; cbn [option_map fst app]; [|reflexivity].
    subst c'. reflexivity.
Qed.

(** Tasks as the local parser makes them are well typed and have no
    undefined inference. *)
Lemma parsed_from_well_typed line t :
  parsed_from line t -> well_typed t /\ ~ undefined_inference t.
Proof.
  intros (p & pc & pr & d & dc & dr & LP & _ & _ & _ & P & _ & I & _).
  split; [split|].
  - rewrite P. pose proof (line_priority_cases line) as C. rewrite LP in C.
    cbn [fst] in C. unfold TASK_PRIORITIES. simpl in *. tauto.
  - rewrite I. destruct (deadline t); cbn [map fst app];
      repeat constructor; simpl; intuition discriminate.
  - unfold undefined_inference. rewrite I.
    destruct (deadline t); simpl; intuition discriminate.
Qed.

Definition parsed (t : InferredTask) : Prop := exists line, parsed_from line t.

(** The loop over the lines: every line that is not blank gives a task or
    an ambiguous line, and draws one random value. *)
Lemma parse_lines_tasks lines :
  forall extracted ambiguous w,
    Forall parsed extracted ->
    exists extracted' ambiguous' w',
      parse_lines lines extracted ambiguous w = (Ok (extracted', ambiguous'), w')
      /\ Forall parsed extracted'
      /\ env w' = env w /\ requests w' = requests w /\ console w' = console w
      /\ draws w' = (List.length (filter nonblank lines) + draws w)%nat
      /\ (List.length (filter nonblank lines) + ticks w <= ticks w'
          <= 2 * List.length (filter nonblank lines) + ticks w)%nat.
Proof.
  induction lines as [|l rest IH]; intros extracted ambiguous w G.
  - exists extracted, ambiguous, w. simpl. repeat split; try assumption; lia.
  - cbn [parse_lines filter].
    pose proof (eq_refl : nonblank l = match trim l with [] => false | _ => true end) as NB.
    destruct (trim l) as [|c line] eqn:T; rewrite NB.
    + apply IH. exact G.
    + destruct (parseTaskLine_spec (c :: line) w) as (r & w1 & P & A & Sp).
      rewrite (bind_ok _ _ _ _ _ P).
      destruct A as (He & Hr & Hc & Hd & Ht).
      cbn [List.length].
      assert (K : forall e a,
                 Forall parsed e ->
                 exists extracted' ambiguous' w',
                   parse_lines rest e a w1 = (Ok (extracted', ambiguous'), w')
                   /\ Forall parsed extracted'
                   /\ env w' = env w /\ requests w' = requests w
                   /\ console w' = console w
                   /\ draws w' = (S (List.length (filter nonblank rest)) + draws w)%nat
                   /\ (S (List.length (filter nonblank rest)) + ticks w
                       <= ticks w'
                       <= 2 * S (List.length (filter nonblank rest)) + ticks w)%nat).
      { intros e a Ge.
        destruct (IH e a w1 Ge) as (e' & a' & w' & R & G' & He' & Hr' & Hc' & Hd' & Ht').
        exists e', a', w'. split; [exact R|]. split; [exact G'|].
        repeat split; try congruence; lia. }
      destruct r as [t|].
      * apply K. apply Forall_app. split; [exact G|].
        constructor; [|constructor]. exists (c :: line). apply Sp.
      * apply K. exact G.
Qed.

Lemma mockGeminiParsing_tasks text w :
  exists r w',
    mockGeminiParsing text w = (Ok r, w')
    /\ Forall parsed (extractedTasks r)
    /\ parse_confidence r = match extractedTasks r with [] => low | _ => medium end
    /\ env w' = env w /\ requests w' = requests w /\ console w' = console w
    /\ draws w' = (List.length (input_lines text) + draws w)%nat
    /\ (List.length (input_lines text) + ticks w <= ticks w'
        <= 2 * List.length (input_lines text) + ticks w)%nat.
Proof.
  unfold mockGeminiParsing, input_lines. rewrite length_map.
  destruct (parse_lines_tasks (filter nonblank (split_lines text)) [] [] w)
    as (e' & a' & w' & R & G & H).
  { constructor. }
  rewrite (bind_ok _ _ _ _ _ R). unfold ret.
  eexists. eexists. split; [reflexivity|]. cbn [extractedTasks parse_confidence].
  split; [exact G|]. split; [reflexivity|].
  assert (F : forall ls, filter nonblank (filter nonblank ls) = filter nonblank ls).
  { induction ls as [|l ls IHl]; cbn [filter]; [reflexivity|].
    destruct (nonblank l) eqn:N; cbn [filter]; [rewrite N, IHl|]; auto. }
  rewrite F in H. exact H.
Qed.

(** X13. A task the local parser makes from a line carries each value it
    read both as a field and as the value of the inference recorded for
    the field: the priority, one of 5, 4, 2 and 3, and the duration always,
    the deadline when the line gave one, then with high confidence; without
    a deadline no deadline inference is recorded. The title is the cleaned
    line and is not empty; the task is well typed and none of its
    inferences is [undefined]. A line whose cleaned title is empty gives no
    task. *)
Theorem a_parsed_task_agrees_with_its_inferences (line : JsString) (w : World) :
  match parseTaskLine line w with
  | (Ok (Some t), _) =>
      title t = clean_title line /\ title t <> []
      /\ (exists p i,
            priority t = Some p /\ In p [5; 4; 2; 3]
            /\ In (priority_field, Some i) (inferences t) /\ value i = NumberValue p)
      /\ (exists d i,
            duration t = Some d
            /\ In (duration_field, Some i) (inferences t) /\ value i = NumberValue d)
      /\ match deadline t with
         | Some day =>
             exists i, In (deadline_field, Some i) (inferences t)
                       /\ value i = DateValue day /\ confidence i = high
         | None => ~ In deadline_field (map fst (inferences t))
         end
      /\ well_typed t /\ ~ undefined_inference t
  | (Ok None, _) => clean_title line = []
  | (Throw _, _) => False
  end.
Proof.
  destruct (parseTaskLine_spec line w) as (r & w' & -> & _ & S).
  destruct r as [t|]; [|exact S]. destruct S as [P _].
  pose proof (parsed_from_well_typed _ _ P) as [W U].
  destruct P as (p & pc & pr & d & dc & dr & LP & LD & T & N & Pp & Pd & I & _).
  split; [exact T|]. split; [exact N|]. split.
  { eexists. eexists. split; [exact Pp|]. split.
    - pose proof (line_priority_cases line) as C. now rewrite LP in C.
    - rewrite I. split; [left; reflexivity|reflexivity]. }
  split.
  { eexists. eexists. split; [exact Pd|]. rewrite I.
    split; [right; left; reflexivity|reflexivity]. }
  split; [|split; assumption].
  destruct (deadline t) as [day|].
  - eexists. rewrite I at 1. split; [right; right; left; reflexivity|].
    split; reflexivity.
  - rewrite I. simpl. intuition discriminate.
Qed.

(** X14. The local parser always answers. Its overall confidence is medium
    when it extracts at least one task and low when it extracts none, never
    high; a text without a line that is not blank gives no task and no
    ambiguous line. It draws one random value for each line that is not
    blank and reads the clock once or twice for each; it sends no request
    and logs nothing. *)
Theorem the_local_parser_is_never_highly_confident (text : JsString) (w : World) :
  match mockGeminiParsing text w with
  | (Ok r, w') =>
      parse_confidence r = match extractedTasks r with [] => low | _ => medium end
      /\ (input_lines text = [] -> extractedTasks r = [] /\ ambiguousLines r = [])
      /\ env w' = env w /\ requests w' = requests w /\ console w' = console w
      /\ draws w' = (List.length (input_lines text) + draws w)%nat
      /\ (List.length (input_lines text) + ticks w <= ticks w'
          <= 2 * List.length (input_lines text) + ticks w)%nat
  | (Throw _, _) => False
  end.
Proof.
  destruct (mockGeminiParsing_spec text w) as (r & w' & E & A & T & _).
  destruct (mockGeminiParsing_tasks text w) as (r' & w'' & E' & _ & C & H).
  rewrite E in E'. injection E' as <- <-. rewrite E.
  split; [exact C|]. split; [|exact H].
  intros B. rewrite B in A, T. simpl in A, T. split; [|exact A].
  apply map_eq_nil in T. exact T.
Qed.

(** Tasks of the local parser can always be planned. *)
Lemma parsed_tasks_are_planned tasks settings planDate w :
  Forall parsed tasks ->
  Forall well_typed tasks
  /\ match generateDailyPlan tasks settings planDate w with
     | (Ok plan, _) => Permutation (map task (placed plan)) tasks
     | (Throw _, _) => False
     end.
Proof.
  intros P.
  assert (G : forall t, In t tasks -> well_typed t /\ ~ undefined_inference t).
  { intros t I. rewrite Forall_forall in P. destruct (P t I) as (line & Pl).
    eapply parsed_from_well_typed; eauto. }
  split; [apply Forall_forall; intros t I; now apply G|].
  pose proof (generateDailyPlan_shape tasks settings planDate w) as S.
  destruct (generateDailyPlan tasks settings planDate w) as [[plan|e] w'].
  - destruct S as (planned & Hperm & Hsec & _).
    apply (Permutation_map fst) in Hperm.
    rewrite map_map, scores_from_tasks in Hperm. cbn [fst] in Hperm.
    eapply Permutation_trans; [|exact Hperm].
    apply Permutation_map. unfold placed. rewrite Hsec. apply three_way_perm.
  - destruct S as (t & I & U). now apply (G t I).
Qed.

(** X15. Whenever [parseFreeformTasks] answers with the result of the
    local parser, as it does without a key and after any failure of the
    service, its tasks are well typed and [generateDailyPlan] returns a
    plan for them, whatever the settings, the plan date and the state of
    the host: the plan places every task once. *)
Theorem tasks_of_the_local_parser_are_always_planned
    (apiKey : option JsString) (text : JsString)
    (settings : PlanningSettings) (planDate : option Date) (w : World) :
  match parseFreeformTasks apiKey text w with
  | (Ok (FromLocal r), w1) =>
      Forall well_typed (extractedTasks r)
      /\ match generateDailyPlan (extractedTasks r) settings planDate w1 with
         | (Ok plan, _) => Permutation (map task (placed plan)) (extractedTasks r)
         | (Throw _, _) => False
         end
  | (Ok (FromService _), _) => key_configured apiKey = true
  | (Throw _, _) => False
  end.
Proof.
  unfold parseFreeformTasks, try_catch, bind, log, ret.
  destruct (key_configured apiKey).
  - destruct (realGeminiParsing apiKey text w) as [[r|e] w1]; [reflexivity|].
    match goal with
    | |- context [mockGeminiParsing text ?w0] =>
        destruct (mockGeminiParsing_tasks text w0) as (r & w2 & -> & P & _)
    end.
    now apply parsed_tasks_are_planned.
  - match goal with
    | |- context [mockGeminiParsing text ?w0] =>
        destruct (mockGeminiParsing_tasks text w0) as (r & w2 & -> & P & _)
    end.
    now apply parsed_tasks_are_planned.
Qed.

(** The priorities the local parser reads, each with its confidence, and
    the confidences of its durations. *)
Lemma line_priority_pairs line p pc pr :
  line_priority line = (p, pc, pr) ->
  In (p, pc) [(5, high); (4, medium); (2, medium); (3, low)].
Proof.
  unfold line_priority.
  destruct (test true urgency_keywords line);
    [intros H; injection H as <- <- _; simpl; tauto|].
  destruct (test true importance_keywords line);
    [intros H; injection H as <- <- _; simpl; tauto|].
  destruct (test true low_priority_keywords line);
    intros H; injection H as <- <- _; simpl; tauto.
Qed.

Lemma line_duration_confidence line d dc dr :
  line_duration line = (d, dc, dr) -> In dc [high; low].
Proof.
  unfold line_duration.
  destruct (exec true explicit_duration line);
    [intros H; injection H as _ <- _; simpl; tauto|].
  destruct (_ || _); [intros H; injection H as _ <- _; simpl; tauto|].
  destruct (_ || _); intros H; injection H as _ <- _; simpl; tauto.
Qed.

(** Whatever the line, a task of the local parser has a total above 0.5
    unless its urgency is 0.3. *)
Definition parsed_totals : bool :=
  forallb (fun u =>
    forallb (fun pc : number * InferenceConfidence =>
      forallb (fun dc =>
        forallb (fun dated : list InferenceConfidence =>
          gt (total_of u (fst pc / 5) (penalty_of ([snd pc; dc] ++ dated))) 0.5
          || Leibniz.eqb u 0.3)
          [[]; [high]])
        [high; low])
      [(5, high); (4, medium); (2, medium); (3, low)])
    urgencies.

Lemma parsed_totals_true : parsed_totals = true.
Proof. vm_compute. reflexivity. Qed.

Lemma parsed_total now_ t s :
  parsed t -> score_at now_ t = Ok s ->
  gt (total s) 0.5 = true \/ urgency s = 0.3.
Proof.
  intros (line & p & pc & pr & d & dc & dr & LP & LD & _ & _ & Pp & _ & Inf & _).
  rewrite score_at_total.
  assert (C : exists dated,
             In dated [[]; [high]]
             /\ confidences (map snd (inferences t)) = Some ([pc; dc] ++ dated)).
  { rewrite Inf. destruct (deadline t).
    - exists [high]. split; [simpl; tauto|reflexivity].
    - exists []. split; [simpl; tauto|reflexivity]. }
  destruct C as (dated & Id & ->). intros H. injection H as <-. cbn [total urgency].
  assert (Imp : importance_of t = p / 5).
  { unfold importance_of. rewrite Pp.
    pose proof (line_priority_pairs _ _ _ _ LP) as Q.
    destruct Q as [Q|[Q|[Q|[Q|[]]]]]; injection Q as <- _; reflexivity. }
  rewrite Imp.
  pose proof parsed_totals_true as T. unfold parsed_totals in T.
  rewrite forallb_forall in T. specialize (T _ (urgency_at_cases now_ t)).
  rewrite forallb_forall in T. specialize (T _ (line_priority_pairs _ _ _ _ LP)).
  rewrite forallb_forall in T. specialize (T _ (line_duration_confidence _ _ _ _ LD)).
  rewrite forallb_forall in T. specialize (T _ Id). cbn [fst snd] in T.
  apply orb_true_iff in T. destruct T as [T|T]; [now left|right].
  now apply Leibniz.eqb_spec.
Qed.

(** X16. A task of the local parser is left for later only when its
    deadline is far. Whenever [parseFreeformTasks] answers with the result
    of the local parser and its tasks are planned, a task placed in
    [later] has the urgency 0.3, that of a deadline 72 hours or more
    ahead; a task for which the line gave no deadline is never placed in
    [later]. *)
Theorem a_parsed_task_is_left_for_later_only_with_a_far_deadline
    (apiKey : option JsString) (text : JsString)
    (settings : PlanningSettings) (planDate : option Date) (w : World) :
  match parseFreeformTasks apiKey text w with
  | (Ok (FromLocal r), w1) =>
      match generateDailyPlan (extractedTasks r) settings planDate w1 with
      | (Ok plan, _) =>
          forall p, In p (later (sections plan)) ->
            urgency (priorityScore p) = 0.3 /\ deadline (task p) <> None
      | (Throw _, _) => False
      end
  | (Ok (FromService _), _) => key_configured apiKey = true
  | (Throw _, _) => False
  end.
Proof.
  assert (K : forall tasks w1,
             Forall parsed tasks ->
             match generateDailyPlan tasks settings planDate w1 with
             | (Ok plan, _) =>
                 forall p, In p (later (sections plan)) ->
                   urgency (priorityScore p) = 0.3 /\ deadline (task p) <> None
             | (Throw _, _) => False
             end).
  { intros tasks w1 G.
    pose proof (parsed_tasks_are_planned tasks settings planDate w1 G) as [_ R].
    pose proof (placed_task tasks settings planDate w1) as P.
    destruct (generateDailyPlan tasks settings planDate w1) as [[plan|e] w2]; [|exact R].
    intros p Il.
    assert (Ip : In p (placed plan)).
    { unfold placed. apply in_or_app. right. apply in_or_app. now right. }
    destruct (P p Ip) as (It & (j & Sc) & _ & _ & _ & Lt & _).
    apply Lt in Il. unfold only_later, in_next in Il.
    apply andb_true_iff in Il. destruct Il as [_ Il]. apply negb_true_iff in Il.
    rewrite Forall_forall in G.
    destruct (parsed_total _ _ _ (G _ It) Sc) as [T|U]; [congruence|].
    split; [exact U|]. intros D.
    unfold score_at in Sc. destruct (penalty_loop _ _); [|discriminate].
    injection Sc as Sc. rewrite <- Sc in U. cbn [urgency] in U.
    unfold urgency_at in U. rewrite D in U.
    apply (f_equal (fun x : number => PrimFloat.ltb x 0.4)) in U.
    vm_compute in U. discriminate. }
  unfold parseFreeformTasks, try_catch, bind, log, ret.
  destruct (key_configured apiKey).
  - destruct (realGeminiParsing apiKey text w) as [[r|e] w1]; [reflexivity|].
    match goal with
    | |- context [mockGeminiParsing text ?w0] =>
        destruct (mockGeminiParsing_tasks text w0) as (r & w2 & -> & P & _)
    end.
    now apply K.
  - match goal with
    | |- context [mockGeminiParsing text ?w0] =>
        destruct (mockGeminiParsing_tasks text w0) as (r & w2 & -> & P & _)
    end.
    now apply K.
Qed.

End LocalTasks.

(** ** The title the local parser keeps *)

Section Titles.
Local Open Scope string_scope.
Local Open Scope list_scope.

(** The length of the shortest text a pattern can match. *)
Fixpoint shortest (r : regex) : nat :=
  match r with
  | Empty => 0
  | Char _ => 1
  | Class _ => 1
  | Seq a b => shortest a + shortest b
  | Alt a b => Nat.min (shortest a) (shortest b)
  | Star _ _ => 0
  | Group _ a => shortest a
  end.

Lemma shortest_le i r s c : Matches i r s c -> (shortest r <= List.length s)%nat.
Proof. induction 1; cbn [shortest List.length]; rewrite ?length_app; lia. Qed.

(** A replacement that is no longer than what it replaces never lengthens
    the text, and shortens it when it is shorter and there is a match. *)
Lemma replace_loop_length i r rep :
  (forall mid c, Matches i r mid c -> (List.length rep <= List.length mid)%nat) ->
  forall fuel s, (List.length (replace_loop fuel i r rep s) <= List.length s)%nat.
Proof.
  intros Hm. induction fuel as [|fuel IH]; intros s; cbn [replace_loop]; [lia|].
  destruct (exec i r s) as [m|] eqn:E; [|lia].
  destruct (exec_sound _ _ _ _ E) as [Es M]. apply Hm in M.
  destruct m as [b md af g]. cbn [before matched after groups] in *. subst s.
  destruct md as [|x md]; [destruct af as [|y rest]|];
    rewrite !length_app; cbn [List.length] in *; rewrite ?length_app;
    cbn [List.length].
  - lia.
  - specialize (IH rest). lia.
  - specialize (IH af). lia.
Qed.

Lemma replace_all_length i r rep s :
  (forall mid c, Matches i r mid c -> (List.length rep <= List.length mid)%nat) ->
  (List.length (replace_all i r rep s) <= List.length s)%nat.
Proof. intros Hm. apply replace_loop_length. exact Hm. Qed.

Lemma replace_all_cut i r rep s :
  (forall mid c, Matches i r mid c -> (List.length rep < List.length mid)%nat) ->
  occurs i r s ->
  (List.length (replace_all i r rep s) < List.length s)%nat.
Proof.
  intros Hm O. unfold replace_all. cbn [replace_loop].
  destruct (exec i r s) as [m|] eqn:E; [|now apply exec_none in E].
  destruct (exec_sound _ _ _ _ E) as [Es M]. apply Hm in M.
  assert (Hle : forall mid c,
             Matches i r mid c -> (List.length rep <= List.length mid)%nat).
  { intros mid c Mm. apply Nat.lt_le_incl. now apply (Hm mid c). }
  pose proof (replace_loop_length i r rep Hle (List.length s) (after m)) as IH.
  destruct m as [b md af g]. cbn [before matched after groups] in *.
  destruct md as [|x md]; [cbn [List.length] in M; lia|].
  rewrite Es at 2. rewrite !length_app. cbn [List.length] in *. lia.
Qed.

Lemma replace_all_none i r rep s : exec i r s = None -> replace_all i r rep s = s.
Proof. intros E. unfold replace_all. cbn [replace_loop]. now rewrite E. Qed.

Lemma trimStart_length s : (List.length (trimStart s) <= List.length s)%nat.
Proof.
  induction s as [|c s IH]; cbn [trimStart List.length]; [lia|].
  destruct (is_space c); cbn [List.length]; lia.
Qed.

Lemma trim_length s : (List.length (trim s) <= List.length s)%nat.
Proof.
  unfold trim. rewrite length_rev.
  pose proof (trimStart_length (rev (trimStart s))) as A.
  rewrite length_rev in A. pose proof (trimStart_length s). lia.
Qed.

(** What the four replacements of the title take is never empty. *)
Lemma stripped_keywords_cut mid c :
  Matches true stripped_keywords mid c -> (0 < List.length mid)%nat.
Proof.
  intros M. apply shortest_le in M.
  change (shortest stripped_keywords) with 2%nat in M. lia.
Qed.

Lemma explicit_duration_cut mid c :
  Matches true explicit_duration mid c -> (0 < List.length mid)%nat.
Proof.
  intros M. apply shortest_le in M.
  change (shortest explicit_duration) with 3%nat in M. lia.
Qed.

Lemma stripped_deadline_cut mid c :
  Matches true stripped_deadline mid c -> (0 < List.length mid)%nat.
Proof.
  intros M. apply shortest_le in M.
  change (shortest stripped_deadline) with 4%nat in M. lia.
Qed.

Lemma white_space_cut mid c :
  Matches false white_space mid c -> (1 <= List.length mid)%nat.
Proof. intros M. apply shortest_le in M. exact M. Qed.

Lemma clean_title_length line :
  (List.length (clean_title line) <= List.length line)%nat.
Proof.
  unfold clean_title.
  pose proof (replace_all_length true stripped_keywords [] line) as A.
  set (t1 := replace_all true stripped_keywords [] line) in *.
  pose proof (replace_all_length true explicit_duration [] t1) as B.
  set (t2 := replace_all true explicit_duration [] t1) in *.
  pose proof (replace_all_length true stripped_deadline [] t2) as C.
  set (t3 := replace_all true stripped_deadline [] t2) in *.
  pose proof (replace_all_length false white_space (u16 " ") t3 white_space_cut) as D.
  set (t4 := replace_all false white_space (u16 " ") t3) in *.
  pose proof (trim_length t4).
  assert (List.length t1 <= List.length line)%nat by (apply A; cbn; lia).
  assert (List.length t2 <= List.length t1)%nat by (apply B; cbn; lia).
  assert (List.length t3 <= List.length t2)%nat by (apply C; cbn; lia).
  lia.
Qed.

(** The key words the title loses, as the pattern of the replacement. *)
Definition stripped_words : list string :=
  ["urgent"; "asap"; "critical"; "important"; "high"; "low"; "minor"; "!!"].

Lemma stripped_words_occur line :
  mentions stripped_words line -> occurs true stripped_keywords line.
Proof.
  intros (w & pre & mid & post & I & E & S).
  exists pre, mid, post, []. split; [exact E|].
  unfold stripped_keywords. apply AltOf_matches.
  unfold stripped_words in I.
  destruct I as [<-|[<-|[<-|[<-|[<-|[<-|[<-|[<-|[]]]]]]]]];
    try (eexists; split; [|apply Lit_matches; split; [exact S|reflexivity]];
         cbn [In]; tauto).
  exists (Seq (Char 33) (Plus (Char 33))). split; [cbn [In]; tauto|].
  inversion S as [|a x wr sr Cx S1]; subst.
  inversion S1 as [|a' y wr' sr' Cy S2]; subst.
  inversion S2; subst.
  change [x; y] with ([x] ++ ([y] ++ [])).
  change (@nil (nat * JsString)) with (([] ++ []) ++ @nil (nat * JsString)).
  constructor; [now constructor|].
  unfold Plus. constructor; [now constructor|constructor].
Qed.

Lemma deadline_pattern_stripped line :
  occurs true deadline_pattern line -> occurs true stripped_deadline line.
Proof.
  intros (pre & mid & post & c & E & M).
  exists pre, mid, post. unfold deadline_pattern in M.
  apply Group_matches in M. destruct M as (c' & -> & Ma).
  apply AltOf_matches in Ma. destruct Ma as (r & I & Mr).
  unfold stripped_deadline.
  destruct I as [<-|[<-|[<-|[<-|[]]]]].
  - eexists. split; [exact E|]. constructor. apply AltOf_matches.
    eexists. split; [|exact Mr]. cbn [In]. tauto.
  - eexists. split; [exact E|]. constructor. apply AltOf_matches.
    eexists. split; [|exact Mr]. cbn [In]. tauto.
  - apply Seq_matches in Mr. destruct Mr as (s1 & s2 & c1 & c2 & -> & -> & M1 & M2).
    apply Group_matches in M2. destruct M2 as (c0 & -> & Mw).
    eexists. split; [exact E|]. constructor. apply AltOf_matches.
    exists (Seq (Lit (u16 "by ")) (Plus (Class is_word))).
    split; [cbn [In]; tauto|]. constructor; [exact M1|exact Mw].
  - apply Seq_matches in Mr. destruct Mr as (s1 & s2 & c1 & c2 & -> & -> & M1 & M2).
    apply Group_matches in M2. destruct M2 as (c0 & -> & Mw).
    eexists. split; [exact E|]. constructor. apply AltOf_matches.
    exists (Seq (Lit (u16 "due ")) (Plus (Class is_word))).
    split; [cbn [In]; tauto|]. constructor; [exact M1|exact Mw].
Qed.

(** X26. Whatever the local parser reads off a line is cut from the title:
    when the line contains one of the key words urgent, asap, critical,
    important, high, low, minor or two exclamation marks (in any letter
    case and also inside a longer word), a duration (digits, optional
    white space, hour, hr, min or minute) or a deadline expression (today,
    tomorrow, [by ] or [due ] and a word), the title is strictly shorter
    than the line. *)
Theorem what_is_read_of_a_line_is_cut_from_its_title (line : JsString) :
  mentions stripped_words line
  \/ occurs true explicit_duration line
  \/ occurs true deadline_pattern line ->
  (List.length (clean_title line) < List.length line)%nat.
Proof.
  intros H. unfold clean_title.
  pose proof (replace_all_length true explicit_duration []) as B.
  pose proof (replace_all_length true stripped_deadline []) as C.
  pose proof (replace_all_length false white_space (u16 " ")) as D.
  assert (Le : forall mid : JsString, (List.length (@nil char16) <= List.length mid)%nat).
  { intros mid. cbn. lia. }
  destruct (exec true stripped_keywords line) as [m|] eqn:E1.
  { pose proof (replace_all_cut true stripped_keywords [] line
                  stripped_keywords_cut (exec_some_occurs _ _ _ _ E1)) as A.
    set (t1 := replace_all true stripped_keywords [] line) in *.
    specialize (B t1 (fun mid _ _ => Le mid)).
    set (t2 := replace_all true explicit_duration [] t1) in *.
    specialize (C t2 (fun mid _ _ => Le mid)).
    set (t3 := replace_all true stripped_deadline [] t2) in *.
    specialize (D t3 white_space_cut).
    set (t4 := replace_all false white_space (u16 " ") t3) in *.
    pose proof (trim_length t4). lia. }
  rewrite (replace_all_none _ _ _ _ E1).
  destruct (exec true explicit_duration line) as [m|] eqn:E2.
  { pose proof (replace_all_cut true explicit_duration [] line
                  explicit_duration_cut (exec_some_occurs _ _ _ _ E2)) as A.
    set (t2 := replace_all true explicit_duration [] line) in *.
    specialize (C t2 (fun mid _ _ => Le mid)).
    set (t3 := replace_all true stripped_deadline [] t2) in *.
    specialize (D t3 white_space_cut).
    set (t4 := replace_all false white_space (u16 " ") t3) in *.
    pose proof (trim_length t4). lia. }
  rewrite (replace_all_none _ _ _ _ E2).
  destruct (exec true stripped_deadline line) as [m|] eqn:E3.
  { pose proof (replace_all_cut true stripped_deadline [] line
                  stripped_deadline_cut (exec_some_occurs _ _ _ _ E3)) as A.
    set (t3 := replace_all true stripped_deadline [] line) in *.
    specialize (D t3 white_space_cut).
    set (t4 := replace_all false white_space (u16 " ") t3) in *.
    pose proof (trim_length t4). lia. }
  exfalso. destruct H as [H|[H|H]].
  - apply stripped_words_occur in H. now apply exec_none in E1.
  - now apply exec_none in E2.
  - apply deadline_pattern_stripped in H. now apply exec_none in E3.
Qed.

(** *** Plain lines *)

(** Words separated by single spaces: every white-space character is a
    space and the character behind it is no white space. *)
Fixpoint spaced (s : JsString) : bool :=
  match s with
  | [] => true
  | c :: rest =>
      (if is_space c
       then (c =? 32)%N && match rest with
                           | d :: _ => negb (is_space d)
                           | [] => false
                           end
       else true)
      && spaced rest
  end.

(** A text that is not empty, starts with a word and is [spaced]. *)
Definition tidy (s : JsString) : bool :=
  match s with
  | c :: _ => negb (is_space c) && spaced s
  | [] => false
  end.

Lemma spaced_app a b : spaced (a ++ b) = true -> spaced b = true.
Proof.
  induction a as [|x a IH]; cbn [app spaced]; [trivial|].
  intros H. apply andb_true_iff in H. destruct H as [_ H]. now apply IH.
Qed.

Lemma spaced_run mid rest :
  mid <> [] -> forallb is_space mid = true -> spaced (mid ++ rest) = true ->
  mid = [32%N].
Proof.
  destruct mid as [|x mid]; [congruence|]. intros _ F S.
  cbn [forallb] in F. apply andb_true_iff in F. destruct F as [Fx Fm].
  cbn [app spaced] in S. rewrite Fx in S.
  apply andb_true_iff in S. destruct S as [S _].
  apply andb_true_iff in S. destruct S as [X N].
  apply N.eqb_eq in X. subst x.
  destruct mid as [|y mid]; [reflexivity|].
  cbn [forallb] in Fm. apply andb_true_iff in Fm. destruct Fm as [Fy _].
  cbn [app] in N. rewrite Fy in N. discriminate.
Qed.

Lemma collapse_spaced :
  forall fuel s, spaced s = true ->
                 replace_loop fuel false white_space (u16 " ") s = s.
Proof.
  induction fuel as [|fuel IH]; intros s S; cbn [replace_loop]; [reflexivity|].
  destruct (exec false white_space s) as [m|] eqn:E; [|reflexivity].
  destruct (exec_sound _ _ _ _ E) as [Es M].
  apply Plus_Class_matches in M. destruct M as (N & F & _).
  destruct m as [b md af g]. cbn [before matched after groups] in *. subst s.
  pose proof (spaced_app _ _ S) as S1.
  pose proof (spaced_run _ _ N F S1) as ->.
  pose proof (spaced_app [32%N] af S1) as S2.
  rewrite (IH af S2). reflexivity.
Qed.

Lemma trimStart_word s :
  match s with c :: _ => is_space c = false | [] => True end -> trimStart s = s.
Proof. destruct s as [|c s]; [reflexivity|]. cbn [trimStart]. now intros ->. Qed.

Lemma spaced_last s :
  spaced s = true ->
  match rev s with c :: _ => is_space c = false | [] => True end.
Proof.
  induction s as [|c s _] using rev_ind; [intros _; exact I|].
  intros S. rewrite rev_app_distr. cbn [rev app].
  apply spaced_app in S. cbn [spaced] in S.
  destruct (is_space c); [|reflexivity].
  rewrite andb_false_r in S. discriminate.
Qed.

Lemma trim_tidy s : tidy s = true -> trim s = s.
Proof.
  unfold tidy. destruct s as [|c s]; [discriminate|].
  intros T. apply andb_true_iff in T. destruct T as [Hc S].
  apply negb_true_iff in Hc. unfold trim.
  rewrite (trimStart_word (c :: s) Hc).
  rewrite (trimStart_word _ (spaced_last _ S)). apply rev_involutive.
Qed.

(** X27. A plain line is its own title. When a line starts with a word,
    separates its words by single spaces, and contains none of the key
    words, no duration and no deadline expression that the parser cuts, the
    local parser makes a task of it whose title is the line, character for
    character. *)
Theorem a_plain_line_is_its_own_title (line : JsString) (w : World) :
  tidy line = true ->
  ~ mentions stripped_words line ->
  ~ occurs true explicit_duration line ->
  ~ occurs true deadline_pattern line ->
  clean_title line = line
  /\ exists t w', parseTaskLine line w = (Ok (Some t), w') /\ title t = line.
Proof.
  intros T K D L.
  assert (C : clean_title line = line).
  { unfold clean_title.
    assert (E1 : exec true stripped_keywords line = None).
    { destruct (exec true stripped_keywords line) as [m|] eqn:E; [|reflexivity].
      exfalso. apply K. apply exec_some_occurs in E.
      destruct E as (pre & mid & post & c & E & M).
      unfold stripped_keywords in M. apply AltOf_matches in M.
      destruct M as (r & I & Mr).
      destruct I as [<-|[<-|[<-|[<-|[<-|[<-|[<-|[<-|[]]]]]]]]];
        try (apply Lit_matches in Mr; destruct Mr as [S _];
             eexists _, pre, mid, post; split; [|split; [exact E|exact S]];
             unfold stripped_words; cbn [In]; tauto).
      apply Seq_matches in Mr. destruct Mr as (s1 & s2 & c1 & c2 & -> & -> & M1 & M2).
      apply Char_matches in M1. destruct M1 as (x & -> & Cx & _).
      unfold Plus in M2. apply Seq_matches in M2.
      destruct M2 as (s3 & s4 & c3 & c4 & -> & _ & M3 & _).
      apply Char_matches in M3. destruct M3 as (y & -> & Cy & _).
      exists "!!", pre, [x; y], (s4 ++ post). split.
      - unfold stripped_words. cbn [In]. tauto.
      - split.
        + rewrite E. cbn [app]. reflexivity.
        + repeat constructor; assumption. }
    assert (E2 : exec true explicit_duration line = None).
    { destruct (exec true explicit_duration line) as [m|] eqn:E; [|reflexivity].
      exfalso. apply D. now apply exec_some_occurs in E. }
    assert (E3 : exec true stripped_deadline line = None).
    { destruct (exec true stripped_deadline line) as [m|] eqn:E; [|reflexivity].
      exfalso. apply L. apply exec_some_occurs in E.
      destruct E as (pre & mid & post & c & E & M).
      exists pre, mid, post. unfold stripped_deadline in M.
      apply Group_matches in M. destruct M as (c' & -> & Ma).
      apply AltOf_matches in Ma. destruct Ma as (r & I & Mr).
      unfold deadline_pattern.
      destruct I as [<-|[<-|[<-|[<-|[]]]]].
      - eexists. split; [exact E|]. constructor. apply AltOf_matches.
        eexists. split; [|exact Mr]. cbn [In]. tauto.
      - eexists. split; [exact E|]. constructor. apply AltOf_matches.
        eexists. split; [|exact Mr]. cbn [In]. tauto.
      - apply Seq_matches in Mr.
        destruct Mr as (s1 & s2 & c1 & c2 & -> & -> & M1 & M2).
        eexists. split; [exact E|]. constructor. apply AltOf_matches.
        exists (Seq (Lit (u16 "by ")) (Group 2 (Plus (Class is_word)))).
        split; [cbn [In]; tauto|].
        constructor; [exact M1|constructor; exact M2].
      - apply Seq_matches in Mr.
        destruct Mr as (s1 & s2 & c1 & c2 & -> & -> & M1 & M2).
        eexists. split; [exact E|]. constructor. apply AltOf_matches.
        exists (Seq (Lit (u16 "due ")) (Group 3 (Plus (Class is_word)))).
        split; [cbn [In]; tauto|].
        constructor; [exact M1|constructor; exact M2]. }
    rewrite (replace_all_none _ _ _ _ E1), (replace_all_none _ _ _ _ E2),
      (replace_all_none _ _ _ _ E3).
    assert (S : spaced line = true).
    { unfold tidy in T. destruct line; [discriminate|].
      apply andb_true_iff in T. tauto. }
    unfold replace_all. rewrite (collapse_spaced _ _ S). now apply trim_tidy. }
  split; [exact C|].
  destruct (parseTaskLine_spec line w) as (r & w' & P & _ & R).
  destruct r as [t|].
  - exists t, w'. split; [exact P|].
    destruct R as [(p & pc & pr & d & dc & dr & _ & _ & Ti & _) _]. congruence.
  - rewrite C in R. rewrite R in T. discriminate.
Qed.

End Titles.

Lemma what_is_read_of_a_line_is_cut_from_its_title_witness :
  let line := u16 "follow up with Sam" in
  (mentions stripped_words line
   \/ occurs true explicit_duration line
   \/ occurs true deadline_pattern line)
  /\ (List.length (clean_title line) < List.length line)%nat.
Proof.
  cbv zeta.
  assert (H : mentions stripped_words (u16 "follow up with Sam")
              \/ occurs true explicit_duration (u16 "follow up with Sam")
              \/ occurs true deadline_pattern (u16 "follow up with Sam")).
  { left. exists "low"%string, (u16 "fol"), (u16 "low"), (u16 " up with Sam").
    split; [unfold stripped_words; cbn [In]; tauto|].
    split; [reflexivity|]. repeat constructor. }
  split; [exact H|].
  exact (what_is_read_of_a_line_is_cut_from_its_title _ H).
Defined.

Lemma a_plain_line_is_its_own_title_witness :
  let line := u16 "buy milk" in
  tidy line = true
  /\ ~ mentions stripped_words line
  /\ ~ occurs true explicit_duration line
  /\ ~ occurs true deadline_pattern line
  /\ clean_title line = line.
Proof.
  cbv zeta.
  assert (T : tidy (u16 "buy milk") = true) by reflexivity.
  assert (K : ~ mentions stripped_words (u16 "buy milk")).
  { intros F. apply stripped_words_occur in F. revert F.
    apply exec_none. vm_compute. reflexivity. }
  assert (D : ~ occurs true explicit_duration (u16 "buy milk")).
  { apply exec_none. vm_compute. reflexivity. }
  assert (L : ~ occurs true deadline_pattern (u16 "buy milk")).
  { apply exec_none. vm_compute. reflexivity. }
  split; [exact T|]. split; [exact K|]. split; [exact D|]. split; [exact L|].
  exact (proj1 (a_plain_line_is_its_own_title _ Examples.world T K D L)).
Defined.


(** ** The heuristics of the field inference *)

Section FieldRules.
Local Open Scope string_scope.
Local Open Scope list_scope.
Local Open Scope float_scope.

Lemma infer_duration_rule title :
  let complex :=
    long 50 title
    \/ mentions ["research"; "analyze"; "develop"; "design"; "create"; "build"] title in
  let quick :=
    (List.length title < 20)%nat
    /\ mentions ["check"; "review"; "send"; "call"; "email"] title in
  let i := infer_duration title in
  (complex /\ value i = NumberValue 120 /\ confidence i = medium)
  \/ (~ complex /\ quick /\ value i = NumberValue 30 /\ confidence i = medium)
  \/ (~ complex /\ ~ quick /\ value i = NumberValue 60 /\ confidence i = low).
Proof.
  cbv zeta. unfold infer_duration, title_complexity_verbs, title_quick_verbs.
  pose proof (long_iff 50 title) as L.
  pose proof (test_Words ["research"; "analyze"; "develop"; "design"; "create"; "build"]
                title) as C.
  pose proof (test_Words ["check"; "review"; "send"; "call"; "email"] title) as Q.
  pose proof (Nat.ltb_lt (List.length title) 20) as S.
  destruct (Nat.ltb 50 (List.length title)) eqn:B1;
    destruct (test true (Words ["research"; "analyze"; "develop"; "design"; "create"; "build"])
                title) eqn:B2;
    cbn [orb]; try (left; split; [tauto|split; reflexivity]).
  assert (NC : ~ (long 50 title
                  \/ mentions ["research"; "analyze"; "develop"; "design"; "create"; "build"]
                       title)).
  { intros [F|F]; [apply L in F|apply C in F]; discriminate. }
  destruct (Nat.ltb (List.length title) 20) eqn:B3;
    destruct (test true (Words ["check"; "review"; "send"; "call"; "email"]) title) eqn:B4;
    cbn [andb].
  - right. left. split; [exact NC|]. split; [tauto|split; reflexivity].
  - right. right. split; [exact NC|]. split; [|split; reflexivity].
    intros [_ F]. apply Q in F. discriminate.
  - right. right. split; [exact NC|]. split; [|split; reflexivity].
    intros [F _]. apply S in F. discriminate.
  - right. right. split; [exact NC|]. split; [|split; reflexivity].
    intros [F _]. apply S in F. discriminate.
Qed.

(** X17. What [inferTaskFields] infers. For a task without a duration, the
    duration inferred is 120 minutes with medium confidence when the title
    has more than 50 characters or mentions research, analyze, develop,
    design, create or build; else 30 minutes with medium confidence when
    the title has fewer than 20 characters and mentions check, review,
    send, call or email; else 60 minutes with low confidence. For a task
    without a priority, the priority inferred is 3 with medium confidence
    when there is no deadline, and otherwise 5 with high confidence when
    the deadline is less than 24 hours after the reading of the clock, 4
    with medium confidence when it is less than 72 hours after, and 3 with
    medium confidence beyond. The clock is read only for a task that has a
    deadline and no priority; nothing is logged and no request is sent. *)
Theorem fields_are_inferred_by_the_heuristics
    (t : StructuredTask) (context : option JsString) (w : World) :
  match inferTaskFields t context w with
  | (Ok r, w') =>
      (if absent (duration t) then
         exists i,
           In (duration_field, Some i) (inferences r)
           /\ let complex :=
                long 50 (title t)
                \/ mentions ["research"; "analyze"; "develop"; "design"; "create"; "build"]
                     (title t) in
              let quick :=
                (List.length (title t) < 20)%nat
                /\ mentions ["check"; "review"; "send"; "call"; "email"] (title t) in
              (complex /\ value i = NumberValue 120 /\ confidence i = medium)
              \/ (~ complex /\ quick /\ value i = NumberValue 30 /\ confidence i = medium)
              \/ (~ complex /\ ~ quick /\ value i = NumberValue 60 /\ confidence i = low)
       else ~ In duration_field (map fst (inferences r)))
      /\ (if absent (priority t) then
            exists i,
              In (priority_field, Some i) (inferences r)
              /\ match deadline t with
                 | None => value i = NumberValue 3 /\ confidence i = medium
                 | Some d =>
                     let hours :=
                       (getTime d - ofZ (clock (env w) (ticks w))) / (1000 * 60 * 60) in
                     if hours <? 24 then value i = NumberValue 5 /\ confidence i = high
                     else if hours <? 72
                          then value i = NumberValue 4 /\ confidence i = medium
                          else value i = NumberValue 3 /\ confidence i = medium
                 end
          else ~ In priority_field (map fst (inferences r)))
      /\ env w' = env w /\ draws w' = draws w /\ requests w' = requests w
      /\ console w' = console w
      /\ ticks w' = match deadline t with
                    | Some _ => if absent (priority t) then S (ticks w) else ticks w
                    | None => ticks w
                    end
  | (Throw _, _) => False
  end.
Proof.
  unfold inferTaskFields, try_catch, mockFieldInference.
  assert (P : exists entries w1,
             (if absent (priority t)
              then bind (infer_priority t)
                     (fun inference => ret [(priority_field, Some inference)])
              else ret []) w = (Ok entries, w1)
             /\ (if absent (priority t) then
                   exists i,
                     entries = [(priority_field, Some i)]
                     /\ match deadline t with
                        | None => value i = NumberValue 3 /\ confidence i = medium
                        | Some d =>
                            let hours :=
                              (getTime d - ofZ (clock (env w) (ticks w)))
                              / (1000 * 60 * 60) in
                            if hours <? 24
                            then value i = NumberValue 5 /\ confidence i = high
                            else if hours <? 72
                                 then value i = NumberValue 4 /\ confidence i = medium
                                 else value i = NumberValue 3 /\ confidence i = medium
                        end
                 else entries = [])
             /\ env w1 = env w /\ draws w1 = draws w /\ requests w1 = requests w
             /\ console w1 = console w
             /\ ticks w1 = match deadline t with
                           | Some _ => if absent (priority t) then S (ticks w) else ticks w
                           | None => ticks w
                           end).
  { destruct (absent (priority t)).
    - unfold infer_priority, bind, Date_now, ret.
      destruct (deadline t) as [d|].
      + cbv zeta. destruct (_ <? 24) eqn:H1.
        * eexists. eexists. split; [reflexivity|]. split; [|repeat split].
          eexists. split; [reflexivity|]. cbv beta iota zeta. cbn [value confidence].
          split; reflexivity.
        * destruct (_ <? 72) eqn:H2.
          -- eexists. eexists. split; [reflexivity|]. split; [|repeat split].
             eexists. split; [reflexivity|]. cbv beta iota zeta. cbn [value confidence].
             split; reflexivity.
          -- eexists. eexists. split; [reflexivity|]. split; [|repeat split].
             eexists. split; [reflexivity|]. cbv beta iota zeta. cbn [value confidence].
             split; reflexivity.
      + eexists. eexists. split; [reflexivity|]. split; [|repeat split].
        eexists. split; [reflexivity|]. split; reflexivity.
    - exists [], w. split; [reflexivity|]. split; [reflexivity|].
      repeat split. now destruct (deadline t). }
  destruct P as (entries & w1 & P & Pe & Fr).
  rewrite (bind_ok _ _ _ _ _ P). unfold ret. cbn [inferences].
  split; [|split; [|exact Fr]].
  - destruct (absent (duration t)).
    + exists (infer_duration (title t)). split.
      * apply in_or_app. right. now left.
      * apply infer_duration_rule.
    + rewrite app_nil_r. destruct (absent (priority t)).
      * destruct Pe as (i & -> & _). simpl. intuition discriminate.
      * subst entries. simpl. tauto.
  - destruct (absent (priority t)).
    + destruct Pe as (i & -> & R). exists i. split; [now left|exact R].
    + subst entries. destruct (absent (duration t)); simpl; intuition discriminate.
Qed.

End FieldRules.

(** ** The text generated by the service *)

Section GeneratedText.
Local Open Scope string_scope.
Local Open Scope list_scope.

Lemma spells_exactly w s : spells false w s <-> s = w.
Proof.
  unfold spells. split.
  - induction 1 as [|a x w' s' C _ IH]; [reflexivity|].
    unfold char_matches, char16_eqb in C. apply N.eqb_eq in C. now subst.
  - intros ->. induction w as [|a w IH]; constructor; [|exact IH].
    unfold char_matches, char16_eqb. apply N.eqb_refl.
Qed.

Lemma fenced_json_matches mid c :
  Matches false fenced_json mid c ->
  exists content,
    mid = u16 "```json" ++ [10%N] ++ content ++ [10%N] ++ u16 "```"
    /\ capture 1 c = Some content.
Proof.
  unfold fenced_json. intros M.
  apply Seq_matches in M. destruct M as (s1 & r1 & c1 & d1 & -> & -> & M1 & M).
  apply Lit_matches in M1. destruct M1 as [S1 ->]. apply spells_exactly in S1. subst s1.
  apply Seq_matches in M. destruct M as (s2 & r2 & c2 & d2 & -> & -> & M2 & M).
  apply Char_matches in M2. destruct M2 as (x & -> & C & ->).
  unfold char_matches, char16_eqb in C. apply N.eqb_eq in C. subst x.
  apply Seq_matches in M. destruct M as (s3 & r3 & c3 & d3 & -> & -> & M3 & M).
  apply Group_matches in M3. destruct M3 as (c' & -> & M3).
  apply Star_Class_matches in M3. destruct M3 as [_ ->].
  apply Seq_matches in M. destruct M as (s4 & r4 & c4 & d4 & -> & -> & M4 & M).
  apply Char_matches in M4. destruct M4 as (y & -> & C & ->).
  unfold char_matches, char16_eqb in C. apply N.eqb_eq in C. subst y.
  apply Lit_matches in M. destruct M as [S5 ->]. apply spells_exactly in S5. subst r4.
  exists s3. split; reflexivity.
Qed.

Lemma braces_matches mid c :
  Matches false braces mid c ->
  exists body, mid = [123%N] ++ body ++ [125%N] /\ capture 1 c = None.
Proof.
  unfold braces. intros M.
  apply Seq_matches in M. destruct M as (s1 & r1 & c1 & d1 & -> & -> & M1 & M).
  apply Char_matches in M1. destruct M1 as (x & -> & C & ->).
  unfold char_matches, char16_eqb in C. apply N.eqb_eq in C. subst x.
  apply Seq_matches in M. destruct M as (s2 & r2 & c2 & d2 & -> & -> & M2 & M).
  apply Star_Class_matches in M2. destruct M2 as [_ ->].
  apply Char_matches in M. destruct M as (y & -> & C & ->).
  unfold char_matches, char16_eqb in C. apply N.eqb_eq in C. subst y.
  exists s2. split; reflexivity.
Qed.

(** X18. What is taken from the text the service generates as the text to
    parse. If the text holds a block opened by three backquotes and [json]
    at the end of a line and closed by three backquotes at the start of a
    line, the content of the leftmost such block is taken, unless it is
    empty: then the block is taken whole, with its fences. Without such a
    block, the leftmost part of the text that runs from an opening brace
    to a closing one is taken; without such a part, the whole text. *)
Theorem what_is_parsed_of_the_generated_text (generatedText : JsString) :
  match exec false fenced_json generatedText with
  | Some m =>
      generatedText = before m ++ matched m ++ after m
      /\ (forall pre mid post c,
            generatedText = pre ++ mid ++ post -> Matches false fenced_json mid c ->
            (List.length (before m) <= List.length pre)%nat)
      /\ exists content,
           matched m = u16 "```json" ++ [10%N] ++ content ++ [10%N] ++ u16 "```"
           /\ extract_json generatedText
              = match content with
                | [] => matched m
                | _ => content
                end
  | None =>
      ~ occurs false fenced_json generatedText
      /\ match exec false braces generatedText with
         | Some m =>
             generatedText = before m ++ matched m ++ after m
             /\ (forall pre mid post c,
                   generatedText = pre ++ mid ++ post -> Matches false braces mid c ->
                   (List.length (before m) <= List.length pre)%nat)
             /\ (exists body, matched m = [123%N] ++ body ++ [125%N])
             /\ extract_json generatedText = matched m
         | None =>
             ~ occurs false braces generatedText
             /\ extract_json generatedText = generatedText
         end
  end.
Proof.
  unfold extract_json.
  destruct (exec false fenced_json generatedText) as [m|] eqn:X.
  - pose proof (exec_leftmost _ _ _ _ X) as Left.
    apply exec_sound in X. destruct X as [E M].
    split; [exact E|]. split; [exact Left|].
    apply fenced_json_matches in M. destruct M as (content & Em & C).
    exists content. split; [exact Em|]. rewrite C. now destruct content.
  - split; [now apply exec_none|].
    destruct (exec false braces generatedText) as [m|] eqn:Y.
    + pose proof (exec_leftmost _ _ _ _ Y) as Left.
      apply exec_sound in Y. destruct Y as [E M].
      split; [exact E|]. split; [exact Left|].
      apply braces_matches in M. destruct M as (body & Em & C).
      split; [now exists body|]. now rewrite C.
    + split; [now apply exec_none|reflexivity].
Qed.

End GeneratedText.


(** ** Requests and the console *)

Section Requests.
Local Open Scope string_scope.
Local Open Scope list_scope.

(** What a computation leaves of the world when it does no more than read
    the clock. *)
Definition only_clock (w w' : World) : Prop :=
  env w' = env w /\ draws w' = draws w /\ requests w' = requests w
  /\ console w' = console w /\ (ticks w <= ticks w')%nat.

Lemma only_clock_refl w : only_clock w w.
Proof. repeat split. lia. Qed.

Lemma only_clock_trans w1 w2 w3 :
  only_clock w1 w2 -> only_clock w2 w3 -> only_clock w1 w3.
Proof.
  unfold only_clock. intros (e1 & d1 & r1 & c1 & t1) (e2 & d2 & r2 & c2 & t2).
  repeat split; try congruence. lia.
Qed.

(** Computations that do no more than read the clock. *)
Definition Clocked {A} (c : M A) : Prop := forall w, only_clock w (snd (c w)).

Lemma Clocked_ret {A} (a : A) : Clocked (ret a).
Proof. intros w. apply only_clock_refl. Qed.

Lemma Clocked_lift {A} (r : Result A) : Clocked (lift r).
Proof. intros w. apply only_clock_refl. Qed.

Lemma Clocked_throw {A} (e : Error) : Clocked (@throw A e).
Proof. intros w. apply only_clock_refl. Qed.

Lemma Clocked_get_env : Clocked get_env.
Proof. intros w. apply only_clock_refl. Qed.

Lemma Clocked_Date_now : Clocked Date_now.
Proof. intros w. repeat split. cbn. lia. Qed.

Lemma Clocked_bind {A B} (c : M A) (k : A -> M B) :
  Clocked c -> (forall a, Clocked (k a)) -> Clocked (bind c k).
Proof.
  intros C K w. unfold bind. specialize (C w).
  destruct (c w) as [[a|e] w1]; [|exact C].
  eapply only_clock_trans; [exact C|apply K].
Qed.

Lemma transform_task_Clocked t index : Clocked (transform_task t index).
Proof.
  unfold transform_task.
  apply Clocked_bind; [apply Clocked_get_env|intros E].
  apply Clocked_bind; [apply Clocked_lift|intros given].
  apply Clocked_bind.
  { destruct (truthy given); [apply Clocked_ret|].
    apply Clocked_bind; [apply Clocked_Date_now|intros stamp; apply Clocked_ret]. }
  intros id.
  repeat (apply Clocked_bind; [apply Clocked_lift|intros ?]).
  apply Clocked_ret.
Qed.

Lemma map_indexed_Clocked items :
  forall index, Clocked (map_indexed transform_task items index).
Proof.
  induction items as [|t rest IH]; intros index; cbn [map_indexed].
  - apply Clocked_ret.
  - apply Clocked_bind; [apply transform_task_Clocked|intros y].
    apply Clocked_bind; [apply IH|intros ys; apply Clocked_ret].
Qed.

Lemma validate_only_clock response w :
  only_clock w (snd (validateAndTransformGeminiResponse response w)).
Proof.
  revert w. change (Clocked (validateAndTransformGeminiResponse response)).
  unfold validateAndTransformGeminiResponse.
  apply Clocked_bind; [apply Clocked_lift|intros listed].
  apply Clocked_bind; [|intros tasks; apply Clocked_ret].
  destruct (or_else listed (JArr [])); try apply Clocked_throw.
  apply map_indexed_Clocked.
Qed.

(** The world after a request. *)
Definition requested (w : World) : World :=
  {| env := env w; ticks := ticks w; draws := draws w;
     requests := S (requests w); console := console w |}.

Lemma realGeminiParsing_world apiKey text w :
  key_configured apiKey = true ->
  match realGeminiParsing apiKey text w with
  | (Ok _, w') => only_clock (requested w) w'
  | (Throw e, w') =>
      exists w1, only_clock (requested w) w1
                 /\ w' = logged [LogError (u16 "Real Gemini API failed:") e] w1
  end.
Proof.
  destruct apiKey as [[|c key]|]; try discriminate. intros _.
  unfold realGeminiParsing, try_catch. unfold bind at 1. unfold send.
  fold (requested w).
  assert (Fail : forall e,
             exists w1, only_clock (requested w) w1
                        /\ log (LogError (u16 "Real Gemini API failed:") e) (requested w)
                           = (Ok tt, logged [LogError (u16 "Real Gemini API failed:") e] w1)).
  { intros e. exists (requested w). split; [apply only_clock_refl|reflexivity]. }
  destruct (fetch (env w) (requests w) (c :: key) text) as [|[|] status [data|]].
  - unfold throw, bind. destruct (Fail FetchRejected) as (w1 & C & ->). now exists w1.
  - unfold bind at 1. unfold lift.
    destruct (get data "candidates") as [candidates|e].
    2:{ unfold bind, throw. destruct (Fail e) as (w1 & C & ->). now exists w1. }
    destruct (truthy _).
    2:{ unfold bind, throw.
        destruct (Fail (ErrorMessage (u16 "No response from Gemini API"))) as (w1 & C & ->).
        now exists w1. }
    destruct (get_opt _ "text") as [| | | |s| |];
      try (unfold bind, throw; destruct (Fail TypeError) as (w1 & C & ->); now exists w1).
    unfold bind at 1. unfold get_env. cbn [env requested].
    destruct (JSON_parse (env w) (trim (extract_json s))) as [parsed|].
    2:{ unfold bind, throw. destruct (Fail SyntaxError) as (w1 & C & ->). now exists w1. }
    pose proof (validate_only_clock parsed (requested w)) as V.
    destruct (validateAndTransformGeminiResponse parsed (requested w)) as [[r|e] w1].
    + exact V.
    + unfold bind, log, throw. exists w1. split; [exact V|reflexivity].
  - unfold throw, bind. destruct (Fail SyntaxError) as (w1 & C & ->). now exists w1.
  - unfold throw, bind.
    destruct (Fail (ErrorMessage (u16 "Gemini API error: " ++ status))) as (w1 & C & ->).
    now exists w1.
  - unfold throw, bind.
    destruct (Fail (ErrorMessage (u16 "Gemini API error: " ++ status))) as (w1 & C & ->).
    now exists w1.
Qed.

(** X19. [parseFreeformTasks] sends a request only when a key is
    configured, and then exactly one. With a key, an answer of the service
    is returned without anything being logged, and a failure is logged
    twice, by the delegated strategy and by [parseFreeformTasks], with the
    same error, before the warning that the local parser takes over.
    Without a key the only entry logged is the warning that none was
    provided. *)
Theorem a_request_is_sent_only_with_a_key
    (apiKey : option JsString) (text : JsString) (w : World) :
  match parseFreeformTasks apiKey text w with
  | (Ok r, w') =>
      env w' = env w
      /\ if key_configured apiKey then
           requests w' = S (requests w)
           /\ match r with
              | FromService _ => console w' = console w
              | FromLocal _ =>
                  exists e,
                    console w'
                    = [ Warn (u16 "Falling back to mock parsing due to API error");
                        LogError (u16 "Failed to parse freeform tasks:") e;
                        LogError (u16 "Real Gemini API failed:") e ] ++ console w
              end
         else
           requests w' = requests w
           /\ console w'
              = Warn (u16 "No Gemini API key provided, using mock parsing") :: console w
           /\ exists local, r = FromLocal local
  | (Throw _, _) => False
  end.
Proof.
  unfold parseFreeformTasks, try_catch.
  assert (NoKey :
            match
              bind (log (Warn (u16 "No Gemini API key provided, using mock parsing")))
                (fun _ => bind (mockGeminiParsing text) (fun r => ret (FromLocal r))) w
            with
            | (Ok r, w') =>
                env w' = env w
                /\ requests w' = requests w
                /\ console w'
                   = Warn (u16 "No Gemini API key provided, using mock parsing") :: console w
                /\ exists local, r = FromLocal local
            | (Throw _, _) => False
            end).
  { unfold bind, log, ret.
    match goal with
    | |- context [mockGeminiParsing text ?w0] =>
        destruct (mockGeminiParsing_tasks text w0)
          as (r & w2 & -> & _ & _ & He & Hr & Hc & _)
    end.
    cbn [env requests console] in *. repeat split; try assumption. now exists r. }
  destruct (key_configured apiKey) eqn:K.
  - unfold bind at 1.
    pose proof (realGeminiParsing_world apiKey text w K) as R.
    destruct (realGeminiParsing apiKey text w) as [[r|e] w1].
    + unfold ret. destruct R as (He & _ & Hr & Hc & _).
      cbn [requested env requests console] in *. repeat split; assumption.
    + destruct R as (w0 & (He & _ & Hr & Hc & _) & ->).
      unfold bind, log, ret.
      match goal with
      | |- context [mockGeminiParsing text ?w3] =>
          destruct (mockGeminiParsing_tasks text w3)
            as (r & w2 & -> & _ & _ & He2 & Hr2 & Hc2 & _)
      end.
      cbn [env requests console logged requested app] in *.
      split; [congruence|]. split; [congruence|].
      exists e. rewrite Hc2, Hc. reflexivity.
  - destruct (bind _ _ w) as [[r|e] w1]; [tauto|destruct NoKey].
Qed.

End Requests.


(** ** Replies of the service *)

Section Replies.
Import Clamp.
Local Open Scope string_scope.
Local Open Scope list_scope.
Local Open Scope float_scope.

(** A value that [||] replaces by the default or that converts to a
    number other than [NaN] whatever the host: anything but a text that is
    not empty, a list or an object. *)
Definition numeric (v : JsValue) : bool :=
  match v with
  | JStr (_ :: _) | JArr _ | JObj _ => false
  | _ => true
  end.

Lemma clamp_numeric E lo hi fallback v :
  is_nan lo = false -> is_nan hi = false -> (lo <=? hi) = true ->
  is_nan fallback = false -> numeric v = true ->
  exists x, clamp E lo hi (or_else v (JNum fallback)) = Ok x /\ within lo hi x = true.
Proof.
  intros Lo Hi Le F N.
  assert (K : forall n, is_nan n = false ->
                        exists x, Ok (Math_max lo (Math_min hi n)) = Ok x
                                  /\ within lo hi x = true).
  { intros n Nn. eexists. split; [reflexivity|].
    pose proof (clamped lo hi n Lo Hi Le) as C. now rewrite Nn in C. }
  destruct v as [| |[|]|x|[|c s]|items|props]; try discriminate;
    unfold or_else, truthy, clamp, min_with, ToNumber; try (now apply K).
  destruct (falsy x) eqn:Fx; cbn [negb]; [now apply K|].
  apply K. unfold falsy in Fx. apply orb_false_iff in Fx. tauto.
Qed.

(** What the callback of the validation makes of one element. *)
Definition transformed (E : Environment) (stamp : Z) (index : nat)
    (item : JsValue) (t : TransformedTask) : Prop :=
  (exists given,
      get item "id" = Ok given
      /\ t_id t = if truthy given then given
                  else JStr (u16 "task-" ++ string_of_Z stamp ++ u16 "-"
                             ++ string_of_Z (Z.of_nat index)))
  /\ t_title t = or_else (get_opt item "title") (JStr (u16 "Untitled Task"))
  /\ clamp E 15 240 (or_else (get_opt item "duration") (JNum 60)) = Ok (t_duration t)
  /\ clamp E 1 5 (or_else (get_opt item "priority") (JNum 3)) = Ok (t_priority t)
  /\ (truthy (get_opt item "deadline") = false -> t_deadline t = None)
  /\ t_dependencies t = or_else (get_opt item "dependencies") (JArr [])
  /\ t_splittable t = or_else (get_opt item "splittable") (JBool false)
  /\ t_conditionalHints t = []
  /\ (let given := get_opt item "inferences" in
      (truthy (get_opt given "priority") = false
       <-> inferred_priority (t_inferences t) = None)
      /\ (truthy (get_opt given "duration") = false
          <-> inferred_duration (t_inferences t) = None)
      /\ (truthy (get_opt given "deadline") = false
          <-> inferred_deadline (t_inferences t) = None)).

Lemma transform_number_inference_none E lo hi fallback words entry r :
  transform_number_inference E lo hi fallback words entry = Ok r ->
  (truthy entry = false <-> r = None).
Proof.
  unfold transform_number_inference. destruct (truthy entry).
  - destruct (get entry "value"); [|discriminate].
    destruct (clamp E lo hi _); [|discriminate].
    intros H. injection H as <-. split; discriminate.
  - intros H. injection H as <-. split; reflexivity.
Qed.

Lemma transform_deadline_inference_none E entry r :
  transform_deadline_inference E entry = Ok r ->
  (truthy entry = false <-> r = None).
Proof.
  unfold transform_deadline_inference. destruct (truthy entry).
  - destruct (get entry "value") as [v|]; [|discriminate].
    destruct (if truthy v then _ else _); [|discriminate].
    intros H. injection H as <-. split; discriminate.
  - intros H. injection H as <-. split; reflexivity.
Qed.

Lemma transform_task_transformed item index w t w' :
  transform_task item index w = (Ok t, w') ->
  transformed (env w) (clock (env w) (ticks w)) index item t.
Proof.
  unfold transform_task, bind, get_env, lift.
  destruct (get item "id") as [given|e] eqn:G; [|discriminate].
  assert (I : exists id w1,
             (if truthy given then ret given
              else fun w0 =>
                     let (r, w2) := Date_now w0 in
                     match r with
                     | Ok stamp =>
                         ret (JStr (u16 "task-" ++ string_of_Z stamp ++ u16 "-"
                                    ++ string_of_Z (Z.of_nat index))) w2
                     | Throw e => (Throw e, w2)
                     end) w = (Ok id, w1)
             /\ env w1 = env w
             /\ id = if truthy given then given
                     else JStr (u16 "task-" ++ string_of_Z (clock (env w) (ticks w))
                                ++ u16 "-" ++ string_of_Z (Z.of_nat index))).
  { destruct (truthy given); eexists; eexists; split; try reflexivity; split; reflexivity. }
  destruct I as (id & w1 & -> & He & Hid).
  destruct (clamp (env w) 15 240 _) as [d|e] eqn:D; [|discriminate].
  destruct (clamp (env w) 1 5 _) as [p|e] eqn:P; [|discriminate].
  destruct (if truthy (get_opt item "deadline") then _ else _) as [dl|e] eqn:DL;
    [|discriminate].
  destruct (transform_number_inference (env w) 1 5 _ _ _) as [ip|e] eqn:IP; [|discriminate].
  destruct (transform_number_inference (env w) 15 240 _ _ _) as [idr|e] eqn:ID;
    [|discriminate].
  destruct (transform_deadline_inference (env w) _) as [idl|e] eqn:IDL; [|discriminate].
  unfold ret. intros H. injection H as <- _.
  unfold transformed.
  cbn [t_id t_title t_duration t_priority t_deadline t_dependencies t_splittable
       t_conditionalHints t_inferences inferred_priority inferred_duration
       inferred_deadline].
  split; [exists given; split; [exact G|exact Hid]|].
  split; [reflexivity|]. split; [exact D|]. split; [exact P|]. split.
  { intros T. rewrite T in DL. now injection DL as <-. }
  split; [reflexivity|]. split; [reflexivity|]. split; [reflexivity|].
  cbv zeta.
  split; [eapply transform_number_inference_none; eauto|].
  split; [eapply transform_number_inference_none; eauto|].
  eapply transform_deadline_inference_none; eauto.
Qed.

Lemma map_indexed_transformed items :
  forall index w tasks w',
    map_indexed transform_task items index w = (Ok tasks, w') ->
    Forall2 (fun item t => exists stamp k, transformed (env w) stamp k item t) items tasks.
Proof.
  induction items as [|item rest IH]; intros index w tasks w' H; cbn [map_indexed] in H.
  - injection H as <- _. constructor.
  - unfold bind at 1 in H.
    destruct (transform_task item index w) as [[t|e] w1] eqn:T; [|discriminate].
    unfold bind at 1 in H.
    destruct (map_indexed transform_task rest (S index) w1) as [[ts|e] w2] eqn:R;
      [|discriminate].
    injection H as <- _.
    pose proof (transform_task_Clocked item index w) as C. rewrite T in C.
    destruct C as (He & _). cbn [snd] in He.
    constructor.
    + eexists. eexists. eapply transform_task_transformed. exact T.
    + specialize (IH _ _ _ _ R). rewrite He in IH. exact IH.
Qed.

Lemma validate_transformed response items w :
  get response "extractedTasks" = Ok (JArr items) ->
  match validateAndTransformGeminiResponse response w with
  | (Ok r, _) =>
      Forall2 (fun item t => exists stamp k, transformed (env w) stamp k item t)
        items (r_extractedTasks r)
  | (Throw _, _) => True
  end.
Proof.
  intros G. unfold validateAndTransformGeminiResponse, bind, lift. rewrite G.
  unfold or_else. cbn [truthy].
  destruct (map_indexed transform_task items 0 w) as [[tasks|e] w1] eqn:M; [|exact I].
  unfold ret. cbn [r_extractedTasks]. eapply map_indexed_transformed. exact M.
Qed.

(** A reply with one task: its priority is out of range, its duration is
    left out, and so is the inference of its deadline. *)
Definition supplier_call : JsValue :=
  JObj [ (u16 "id", JStr (u16 "t1"));
         (u16 "title", JStr (u16 "Call the supplier"));
         (u16 "priority", JNum 9);
         (u16 "inferences",
          JObj [ (u16 "priority",
                  JObj [ (u16 "value", JNum 9);
                         (u16 "confidence", JStr (u16 "high"));
                         (u16 "rationale", JStr (u16 "Marked as critical")) ]);
                 (u16 "duration",
                  JObj [ (u16 "value", JNum 30);
                         (u16 "confidence", JStr (u16 "low"));
                         (u16 "rationale", JStr (u16 "A short call")) ]) ]) ].

Definition numbered_payload : JsValue :=
  JObj [ (u16 "extractedTasks", JArr [supplier_call]) ].

(** X20. The validation clamps what it can read as a number. When it
    returns, it has made one task of each element of the list, in order;
    the priority of the task lies in [1, 5] and its duration in [15, 240]
    whenever the element gives the field as a number or a boolean, gives
    [null] or an empty text, or leaves it out, and a value out of range or
    missing is replaced by the nearest bound or by the default
    accordingly. A field given as any other value is clamped too, unless
    it converts to [NaN]. No task has conditional hints. *)
Theorem numbers_of_a_reply_are_clamped
    (response : JsValue) (items : list JsValue) (w : World) :
  get response "extractedTasks" = Ok (JArr items) ->
  match validateAndTransformGeminiResponse response w with
  | (Ok r, _) =>
      Forall2
        (fun item t =>
           (numeric (get_opt item "priority") = true -> within 1 5 (t_priority t) = true)
           /\ (numeric (get_opt item "duration") = true
               -> within 15 240 (t_duration t) = true)
           /\ (exists n, ToNumber (env w) (or_else (get_opt item "priority") (JNum 3)) = Ok n
                         /\ t_priority t = Math_max 1 (Math_min 5 n))
           /\ (exists n, ToNumber (env w) (or_else (get_opt item "duration") (JNum 60)) = Ok n
                         /\ t_duration t = Math_max 15 (Math_min 240 n))
           /\ NaN_or_within 1 5 (t_priority t)
           /\ NaN_or_within 15 240 (t_duration t)
           /\ t_conditionalHints t = [])
        items (r_extractedTasks r)
  | (Throw _, _) => True
  end.
Proof.
  intros G. pose proof (validate_transformed response items w G) as V.
  destruct (validateAndTransformGeminiResponse response w) as [[r|e] w']; [|exact I].
  eapply Forall2_impl; [|exact V]. clear V.
  intros item t (stamp & k & _ & _ & D & P & _ & _ & _ & H & _).
  split.
  { intros N.
    destruct (clamp_numeric (env w) 1 5 3 _ eq_refl eq_refl eq_refl eq_refl N)
      as (x & C & W).
    rewrite C in P. now injection P as <-. }
  split.
  { intros N.
    destruct (clamp_numeric (env w) 15 240 60 _ eq_refl eq_refl eq_refl eq_refl N)
      as (x & C & W).
    rewrite C in D. now injection D as <-. }
  split.
  { destruct (clamp_spec (env w) 1 5 _ _ eq_refl eq_refl eq_refl P) as (n & T & E & _).
    now exists n. }
  split.
  { destruct (clamp_spec (env w) 15 240 _ _ eq_refl eq_refl eq_refl D) as (n & T & E & _).
    now exists n. }
  split; [eapply clamp_range; eauto; reflexivity|].
  split; [eapply clamp_range; eauto; reflexivity|exact H].
Qed.

(** The theorem at the reply above: the priority 9 becomes 5 and the
    missing duration 60. *)
Lemma numbers_of_a_reply_are_clamped_witness :
  get numbered_payload "extractedTasks" = Ok (JArr [supplier_call])
  /\ match validateAndTransformGeminiResponse numbered_payload Examples.world with
     | (Ok r, _) =>
         Forall2
           (fun item t =>
              (numeric (get_opt item "priority") = true
               -> within 1 5 (t_priority t) = true)
              /\ (numeric (get_opt item "duration") = true
                  -> within 15 240 (t_duration t) = true)
              /\ (exists n,
                    ToNumber (env Examples.world)
                      (or_else (get_opt item "priority") (JNum 3)) = Ok n
                    /\ t_priority t = Math_max 1 (Math_min 5 n))
              /\ (exists n,
                    ToNumber (env Examples.world)
                      (or_else (get_opt item "duration") (JNum 60)) = Ok n
                    /\ t_duration t = Math_max 15 (Math_min 240 n))
              /\ NaN_or_within 1 5 (t_priority t)
              /\ NaN_or_within 15 240 (t_duration t)
              /\ t_conditionalHints t = [])
           [supplier_call] (r_extractedTasks r)
     | (Throw _, _) => True
     end.
Proof.
  split; [reflexivity|].
  exact (numbers_of_a_reply_are_clamped numbered_payload [supplier_call] Examples.world
           eq_refl).
Defined.

(** X21. Replies without a usable list of tasks. A reply that is
    [undefined] or [null] makes the validation throw a [TypeError], and so
    does a reply whose [extractedTasks] is neither falsy nor a list; a list
    with an element that is [undefined] or [null] makes it throw as well.
    A reply whose [extractedTasks] is missing or falsy is accepted: it
    gives no task, its ambiguous lines and parsing errors when they are
    given and empty lists otherwise, and its confidence when that is one of
    the three labels and medium otherwise; the host is left as it was. *)
Theorem a_reply_without_a_list_of_tasks (response : JsValue) (w : World) :
  match get response "extractedTasks" with
  | Throw _ =>
      (response = JUndefined \/ response = JNull)
      /\ validateAndTransformGeminiResponse response w = (Throw TypeError, w)
  | Ok listed =>
      if truthy listed then
        match listed with
        | JArr items =>
            In JUndefined items \/ In JNull items ->
            exists e w', validateAndTransformGeminiResponse response w = (Throw e, w')
        | _ => validateAndTransformGeminiResponse response w = (Throw TypeError, w)
        end
      else
        validateAndTransformGeminiResponse response w
        = (Ok {| r_extractedTasks := [];
                 r_ambiguousLines := or_else (get_opt response "ambiguousLines") (JArr []);
                 r_parsingErrors := or_else (get_opt response "parsingErrors") (JArr []);
                 r_confidence :=
                   match get_opt response "confidence" with
                   | JStr s =>
                       if str_eqb s (label low) then low
                       else if str_eqb s (label high) then high
                       else medium
                   | _ => medium
                   end |}, w)
  end.
Proof.
  unfold validateAndTransformGeminiResponse, bind, lift.
  destruct (get response "extractedTasks") as [listed|e] eqn:G.
  - unfold or_else. destruct (truthy listed) eqn:T.
    + destruct listed as [| | | | |items|]; try reflexivity.
      intros N.
      assert (K : forall index w0,
                 exists e w', map_indexed transform_task items index w0 = (Throw e, w')).
      { clear G T.
        induction items as [|item rest IH]; intros index w0; [destruct N as [[]|[]]|].
        cbn [map_indexed]. unfold bind at 1.
        destruct (transform_task item index w0) as [[t|e] w1] eqn:TT; [|now eexists; eexists].
        assert (R : In JUndefined rest \/ In JNull rest).
        { destruct N as [[->|N]|[->|N]]; try tauto; vm_compute in TT; discriminate. }
        destruct (IH R (S index) w1) as (e & w' & E).
        unfold bind. rewrite E. now exists e, w'. }
      destruct (K 0%nat w) as (e & w' & ->). now exists e, w'.
    + unfold ret. cbn [map_indexed ret].
      replace (confidence_or medium (get_opt response "confidence"))
        with (match get_opt response "confidence" with
              | JStr s =>
                  if str_eqb s (label low) then low
                  else if str_eqb s (label high) then high
                  else medium
              | _ => medium
              end); [reflexivity|].
      unfold confidence_or. destruct (get_opt response "confidence"); try reflexivity.
      cbn [label]. destruct (str_eqb s (u16 "low")); [reflexivity|].
      destruct (str_eqb s (u16 "medium")) eqn:M; [|reflexivity].
      apply str_eqb_eq in M. subst s. reflexivity.
  - assert (N : response = JUndefined \/ response = JNull).
    { unfold get in G. destruct response; try discriminate; try tauto.
      destruct (lookup _ _); discriminate. }
    split; [exact N|]. destruct N as [->| ->]; injection G as <-; reflexivity.
Qed.

(** *** Validated tasks at the type the scheduler expects them *)

(** A validated task read at the type [InferredTask], which the validation
    declares for it: the value of each property is taken as it is, and
    there is no such reading when some property holds a value that is not
    of the type [InferredTask] gives it. *)
Definition text_of (v : JsValue) : option JsString :=
  match v with
  | JStr s => Some s
  | _ => None
  end.

Definition optional_text (v : JsValue) : option (option JsString) :=
  match v with
  | JUndefined => Some None
  | JStr s => Some (Some s)
  | _ => None
  end.

Fixpoint texts_of (items : list JsValue) : option (list JsString) :=
  match items with
  | [] => Some []
  | v :: rest =>
      match text_of v, texts_of rest with
      | Some s, Some ss => Some (s :: ss)
      | _, _ => None
      end
  end.

Definition number_inference (r : option (Validated number)) : option (option Inference) :=
  match r with
  | None => Some None
  | Some r =>
      match v_rationale r with
      | JStr s =>
          Some (Some {| value := NumberValue (v_value r);
                        confidence := v_confidence r;
                        rationale := s |})
      | _ => None
      end
  end.

Definition deadline_inference (r : option (Validated (option Date)))
  : option (option Inference) :=
  match r with
  | None => Some None
  | Some r =>
      match v_value r, v_rationale r with
      | Some d, JStr s =>
          Some (Some {| value := DateValue d;
                        confidence := v_confidence r;
                        rationale := s |})
      | _, _ => None
      end
  end.

Definition as_InferredTask (t : TransformedTask) : option InferredTask :=
  match text_of (t_id t), text_of (t_title t),
        optional_text (t_category t), optional_text (t_notes t),
        match t_dependencies t with JArr items => texts_of items | _ => None end,
        t_splittable t,
        number_inference (inferred_priority (t_inferences t)),
        number_inference (inferred_duration (t_inferences t)),
        deadline_inference (inferred_deadline (t_inferences t)) with
  | Some id, Some title, Some category, Some notes, Some dependencies, JBool splittable,
    Some p, Some d, Some dl =>
      Some {| base :=
                {| id := id; title := title; deadline := t_deadline t;
                   priority := Some (t_priority t); duration := Some (t_duration t);
                   dependencies := Some dependencies; notes := notes;
                   category := category; splittable := Some splittable |};
              inferences := [(priority_field, p); (duration_field, d); (deadline_field, dl)];
              conditionalHints := t_conditionalHints t |}
  | _, _, _, _, _, _, _, _, _ => None
  end.





(** The task of the reply above, read at the type [InferredTask]. *)
Definition supplier_task : InferredTask :=
  {| base :=
       {| id := u16 "t1"; title := u16 "Call the supplier"; deadline := None;
          priority := Some 5; duration := Some 60; dependencies := Some [];
          notes := None; category := None; splittable := Some false |};
     inferences :=
       [ (priority_field,
          Some {| value := NumberValue 5; confidence := high;
                  rationale := u16 "Marked as critical" |});
         (duration_field,
          Some {| value := NumberValue 30; confidence := low;
                  rationale := u16 "A short call" |});
         (deadline_field, None) ];
     conditionalHints := [] |}.


End Replies.


(** ** The structured form *)

Section StructuredForm.
Import TaskMasterPro.
Local Open Scope string_scope.
Local Open Scope list_scope.
Local Open Scope float_scope.

Lemma inferredTask_defined tasks :
  forall t, In t (map inferredTask tasks) -> ~ undefined_inference t.
Proof.
  intros t I. apply in_map_iff in I. destruct I as (task & <- & _).
  unfold undefined_inference. simpl. tauto.
Qed.

(** The score of a task of the form does not depend on the clock when the
    task has no deadline. *)
Lemma form_score now_ task :
  score_at now_ (inferredTask task)
  = Ok {| urgency := urgency_at now_ (inferredTask task);
          importance := importance_of (inferredTask task);
          effortFit := 1.0; dependencyReady := 1.0; slackRisk := 1.0;
          uncertaintyPenalty := 0;
          total := total_of (urgency_at now_ (inferredTask task))
                     (importance_of (inferredTask task)) 0 |}.
Proof. rewrite score_at_total. reflexivity. Qed.

(** X23. Submitting the structured form never fails. With no task in the
    form, or while a submission is being processed, nothing happens: the
    view and the host stay as they are. Otherwise a plan is shown and no
    error: the plan places each task of the form once, and none with a
    penalty, an assumption or conditional guidance. *)
Theorem submitting_the_form_never_fails
    (structuredTasks : list TaskPlanning.StructuredTask) (settings : PlanningSettings)
    (view : View) (w : World) :
  match handleStructuredSubmit structuredTasks settings view w with
  | (Ok view', w') =>
      match structuredTasks, isProcessing view with
      | _ :: _, false =>
          error view' = None /\ isProcessing view' = false
          /\ exists plan,
               currentPlan view' = Some plan
               /\ Permutation (map task (placed plan)) (map inferredTask structuredTasks)
               /\ forall p, In p (placed plan) ->
                    uncertaintyPenalty (priorityScore p) = 0
                    /\ assumptions (explainability p) = []
                    /\ conditionalGuidance (explainability p) = []
      | _, _ => view' = view /\ w' = w
      end
  | (Throw _, _) => False
  end.
Proof.
  unfold handleStructuredSubmit.
  destruct structuredTasks as [|entry rest]; [split; reflexivity|].
  cbn [List.length Nat.eqb orb].
  destruct (isProcessing view); [split; reflexivity|].
  unfold try_catch, bind.
  pose proof (generateDailyPlan_shape (map inferredTask (entry :: rest)) settings None w) as S.
  pose proof (placed_task (map inferredTask (entry :: rest)) settings None w) as P.
  destruct (generateDailyPlan (map inferredTask (entry :: rest)) settings None w)
    as [[plan|e] w1].
  2:{ destruct S as (t & I & U). destruct (inferredTask_defined _ t I U). }
  unfold ret. cbn [error isProcessing currentPlan].
  split; [reflexivity|]. split; [reflexivity|]. exists plan. split; [reflexivity|].
  destruct S as (planned & Hperm & Hsec & _).
  split.
  { apply (Permutation_map fst) in Hperm.
    rewrite map_map, scores_from_tasks in Hperm. cbn [fst] in Hperm.
    eapply Permutation_trans; [|exact Hperm].
    apply Permutation_map. unfold placed. rewrite Hsec. apply three_way_perm. }
  intros p Ip. destruct (P p Ip) as (It & (j & Sc) & One & _).
  apply in_map_iff in It. destruct It as (entry' & E & _).
  rewrite <- E in Sc, One.
  rewrite form_score in Sc. injection Sc as Sc.
  unfold plan_one in One. cbn in One. injection One as One.
  rewrite <- One, <- Sc. repeat split.
Qed.

(** The scores of the tasks the form makes: without a deadline and with a
    priority of the form, the score is one of five. *)
Definition form_scores : list (number * PriorityScore) :=
  map (fun p : number =>
         (p, {| urgency := 0.5; importance := p / 5;
                effortFit := 1.0; dependencyReady := 1.0; slackRisk := 1.0;
                uncertaintyPenalty := 0;
                total := total_of 0.5 (p / 5) 0 |}))
    TASK_PRIORITIES.

Lemma form_score_cases now_ entry s :
  TaskPlanning.deadline entry = None ->
  In (TaskPlanning.priority entry) TASK_PRIORITIES ->
  score_at now_ (inferredTask entry) = Ok s ->
  In (TaskPlanning.priority entry, s) form_scores.
Proof.
  intros D P. rewrite form_score. intros H. injection H as <-.
  unfold urgency_at, importance_of, inferredTask. cbn [base Types.deadline Types.priority].
  rewrite D.
  destruct P as [<-|[<-|[<-|[<-|[<-|[]]]]]]; vm_compute; tauto.
Qed.

(** The reason the form's tasks are given, by priority. *)
Definition form_reason (p : number) : JsString :=
  if Leibniz.eqb p 5 then u16 "Scheduled due to high priority."
  else if Leibniz.eqb p 1 then u16 "Scheduled due to lower priority."
  else u16 "Scheduled based on availability.".

Definition form_sections : bool :=
  forallb (fun x : number * PriorityScore =>
             let p := fst x in
             let s := snd x in
             Bool.eqb (gt (urgency s) 0.8 || gt (total s) 0.8) (Leibniz.eqb p 5)
             && gt (total s) 0.5
             && str_eqb (generateSchedulingReason
                           {| base := {| id := []; title := []; deadline := None;
                                         priority := None; duration := None;
                                         dependencies := None; notes := None;
                                         category := None; splittable := None |};
                              inferences := []; conditionalHints := [] |} s)
                  (form_reason p))
    form_scores.

Lemma form_sections_true : form_sections = true.
Proof. vm_compute. reflexivity. Qed.

(** X24. The structured form plans by priority alone. When its tasks have
    no deadline and a priority from 1 to 5, as the form gives them, the
    plan shown after a submission has the tasks of priority 5 in [now] and
    all the others in [next]; [later] is empty and no task is overdue. The
    reason given is a high priority for priority 5, a lower priority for
    priority 1, and the availability for the priorities between. *)
Theorem the_form_plans_by_priority_alone
    (structuredTasks : list TaskPlanning.StructuredTask) (settings : PlanningSettings)
    (view : View) (w : World) :
  structuredTasks <> [] -> isProcessing view = false ->
  Forall (fun entry => TaskPlanning.deadline entry = None
                       /\ In (TaskPlanning.priority entry) TASK_PRIORITIES)
    structuredTasks ->
  match handleStructuredSubmit structuredTasks settings view w with
  | (Ok view', _) =>
      exists plan,
        currentPlan view' = Some plan
        /\ later (sections plan) = [] /\ overdueTasks plan = []
        /\ forall p, In p (placed plan) ->
             exists level,
               priority (task p) = Some level
               /\ (In p (now (sections plan)) <-> level = 5)
               /\ (In p (next (sections plan)) <-> level <> 5)
               /\ schedulingReason p = form_reason level
  | (Throw _, _) => False
  end.
Proof.
  intros N NP F. unfold handleStructuredSubmit.
  destruct structuredTasks as [|entry rest]; [congruence|]. clear N.
  cbn [List.length Nat.eqb orb]. rewrite NP.
  unfold try_catch, bind.
  pose proof (generateDailyPlan_shape (map inferredTask (entry :: rest)) settings None w) as S.
  pose proof (placed_task (map inferredTask (entry :: rest)) settings None w) as P.
  destruct (generateDailyPlan (map inferredTask (entry :: rest)) settings None w)
    as [[plan|e] w1].
  2:{ destruct S as (t & I & U). destruct (inferredTask_defined _ t I U). }
  unfold ret. cbn [currentPlan]. exists plan. split; [reflexivity|].
  destruct S as (planned & _ & Hsec & Hover & _).
  assert (Q : forall p, In p (placed plan) ->
                exists level,
                  priority (task p) = Some level
                  /\ deadline (task p) = None
                  /\ (in_now p = true <-> level = 5)
                  /\ in_next p = true
                  /\ schedulingReason p = form_reason level).
  { intros p Ip. destruct (P p Ip) as (It & (j & Sc) & One & _).
    apply in_map_iff in It. destruct It as (entry' & E & Ie).
    rewrite Forall_forall in F. destruct (F entry' Ie) as [D L].
    rewrite <- E in Sc, One |- *.
    pose proof (form_score_cases _ _ _ D L Sc) as C.
    pose proof form_sections_true as T. unfold form_sections in T.
    rewrite forallb_forall in T. specialize (T _ C). cbn [fst snd] in T.
    apply andb_true_iff in T. destruct T as [T T3].
    apply andb_true_iff in T. destruct T as [T1 T2].
    apply eqb_prop in T1. apply str_eqb_eq in T3.
    exists (TaskPlanning.priority entry'). split; [reflexivity|]. split; [exact D|].
    unfold plan_one in One. cbn in One. injection One as One.
    rewrite <- One. cbn [schedulingReason].
    unfold in_now, in_next. cbn [priorityScore].
    split; [rewrite T1; apply Leibniz.eqb_spec|]. split; [exact T2|exact T3]. }
  assert (Pl : forall p, In p planned -> In p (placed plan)).
  { intros p Ip. eapply Permutation_in; [apply Permutation_sym|exact Ip].
    unfold placed. rewrite Hsec. apply three_way_perm. }
  split.
  { destruct (later (sections plan)) as [|p ps] eqn:L; [reflexivity|]. exfalso.
    assert (Ip : In p (placed plan)).
    { unfold placed. rewrite L. apply in_or_app. right. apply in_or_app. right. now left. }
    destruct (P p Ip) as (_ & _ & _ & _ & _ & Lt & _).
    destruct (Q p Ip) as (level & _ & _ & _ & Nx & _).
    assert (O : only_later p = true) by (apply Lt; now left).
    unfold only_later in O. rewrite Nx, andb_false_r in O. discriminate. }
  split.
  { destruct (overdueTasks plan) as [|p ps] eqn:L; [reflexivity|]. exfalso.
    assert (Io : In p (filter (is_overdue (overdue_instant (map inferredTask (entry :: rest))
                                             None w)) planned)).
    { rewrite <- Hover. now left. }
    apply filter_In in Io. destruct Io as [Ip O].
    destruct (Q p (Pl p Ip)) as (level & _ & D & _).
    unfold is_overdue in O. rewrite D in O. discriminate. }
  intros p Ip. destruct (Q p Ip) as (level & Pr & _ & Nw & Nx & R).
  destruct (P p Ip) as (_ & _ & _ & Inow & Inext & _).
  exists level. split; [exact Pr|]. split; [now rewrite Inow|]. split; [|exact R].
  rewrite Inext. unfold only_next. rewrite Nx, andb_true_r. rewrite negb_true_iff.
  rewrite <- Nw. destruct (in_now p); split; congruence.
Qed.

(** The theorem at a form with two tasks, of priorities 5 and 3. *)
Lemma the_form_plans_by_priority_alone_witness :
  let entry (level : number) :=
    {| TaskPlanning.id := u16 "1730505600000"; TaskPlanning.name := u16 "Pay the rent";
       TaskPlanning.duration := 30; TaskPlanning.priority := level;
       TaskPlanning.deadline := None; TaskPlanning.isCompleted := false |} in
  let view := {| currentPlan := None; isProcessing := false; error := None |} in
  [entry 5; entry 3] <> [] /\ isProcessing view = false
  /\ Forall (fun entry => TaskPlanning.deadline entry = None
                          /\ In (TaskPlanning.priority entry) TASK_PRIORITIES)
       [entry 5; entry 3]
  /\ match handleStructuredSubmit [entry 5; entry 3] defaultSettings view Examples.world with
     | (Ok view', _) =>
         exists plan,
           currentPlan view' = Some plan
           /\ later (sections plan) = [] /\ overdueTasks plan = []
           /\ forall p, In p (placed plan) ->
                exists level,
                  priority (task p) = Some level
                  /\ (In p (now (sections plan)) <-> level = 5)
                  /\ (In p (next (sections plan)) <-> level <> 5)
                  /\ schedulingReason p = form_reason level
     | (Throw _, _) => False
     end.
Proof.
  intros entry view.
  assert (N : [entry 5; entry 3] <> []) by discriminate.
  assert (F : Forall (fun entry => TaskPlanning.deadline entry = None
                                   /\ In (TaskPlanning.priority entry) TASK_PRIORITIES)
                [entry 5; entry 3]).
  { repeat constructor; simpl; tauto. }
  split; [exact N|]. split; [reflexivity|]. split; [exact F|].
  exact (the_form_plans_by_priority_alone [entry 5; entry 3] defaultSettings view
           Examples.world N eq_refl F).
Defined.

(** *** The tasks of the form *)

(** X25. [addStructuredTask] appends one task, named by the reading of
    the clock, with an empty name, 30 minutes, priority 5 and no deadline,
    and leaves the other tasks as they are. Removing the new task by its
    identifier gives back the tasks there were exactly when none of them
    has the same identifier; one that has it, as a task added at the same
    reading of the clock does, is removed along with the new one. *)
Theorem removing_a_new_task_restores_the_form
    (prev : list TaskPlanning.StructuredTask) (w : World) :
  match TaskPlanning.addStructuredTask prev w with
  | (Ok tasks, w') =>
      let newTask :=
        {| TaskPlanning.id := string_of_Z (clock (env w) (ticks w));
           TaskPlanning.name := [];
           TaskPlanning.duration := 30;
           TaskPlanning.priority := 5;
           TaskPlanning.deadline := None;
           TaskPlanning.isCompleted := false |} in
      tasks = prev ++ [newTask]
      /\ TaskPlanning.removeStructuredTask (TaskPlanning.id newTask) tasks
         = filter (fun t => negb (str_eqb (TaskPlanning.id t) (TaskPlanning.id newTask))) prev
      /\ (TaskPlanning.removeStructuredTask (TaskPlanning.id newTask) tasks = prev
          <-> Forall (fun t => TaskPlanning.id t <> TaskPlanning.id newTask) prev)
      /\ env w' = env w /\ ticks w' = S (ticks w)
  | (Throw _, _) => False
  end.
Proof.
  unfold TaskPlanning.addStructuredTask, bind, Date_now, ret. cbv zeta.
  split; [reflexivity|].
  set (newTask := {| TaskPlanning.id := string_of_Z (clock (env w) (ticks w));
                     TaskPlanning.name := []; TaskPlanning.duration := 30;
                     TaskPlanning.priority := 5; TaskPlanning.deadline := None;
                     TaskPlanning.isCompleted := false |}).
  assert (R : TaskPlanning.removeStructuredTask (TaskPlanning.id newTask) (prev ++ [newTask])
              = filter (fun t => negb (str_eqb (TaskPlanning.id t) (TaskPlanning.id newTask)))
                  prev).
  { unfold TaskPlanning.removeStructuredTask. rewrite filter_app. cbn [filter].
    assert (E : str_eqb (TaskPlanning.id newTask) (TaskPlanning.id newTask) = true)
      by now apply str_eqb_eq.
    rewrite E. cbn [negb]. apply app_nil_r. }
  split; [exact R|]. split; [|split; reflexivity].
  rewrite R. clear R. generalize (TaskPlanning.id newTask). intros k.
  induction prev as [|t rest IH]; cbn [filter].
  - split; [constructor|reflexivity].
  - destruct (str_eqb (TaskPlanning.id t) k) eqn:E; cbn [negb].
    + split.
      * intros H. exfalso.
        assert (L : (List.length (filter (fun t0 => negb (str_eqb (TaskPlanning.id t0) k)) rest)
                     <= List.length rest)%nat) by apply filter_length_le.
        rewrite H in L. simpl in L. lia.
      * intros H. inversion H as [|? ? Ht _]; subst. apply str_eqb_eq in E. contradiction.
    + split.
      * intros H. injection H as H. constructor.
        -- intros K. apply str_eqb_eq in K. congruence.
        -- now apply IH.
      * intros H. inversion H as [|? ? _ Hr]; subst. f_equal. now apply IH.
Qed.

End StructuredForm.


(** ** Worked examples *)

Module Checks.
Import Examples.
Local Open Scope float_scope.

(** No tasks: three empty sections, nothing overdue, zero totals. *)
Example empty_plan :
  match generateDailyPlan [] settings None world with
  | (Ok plan, _) =>
      sections plan = {| now := []; next := []; later := [] |}
      /\ overdueTasks plan = []
      /\ totalTasks (metadata plan) = 0%nat
      /\ totalDuration (metadata plan) = 0
      /\ date plan = TimeValue 1730505600000
  | (Throw _, _) => False
  end.
Proof. vm_compute. repeat split. Qed.

(** A task due in two hours, with no priority: urgency 1, importance 0.6,
    placed in [now]. *)
Definition due_in_two_hours : InferredTask :=
  {| base :=
       {| id := u16 "t1"; title := u16 "Send the invoice";
          deadline := Some (TimeValue (1730505600000 + 2 * 3600000));
          priority := None; duration := None; dependencies := None; notes := None;
          category := None; splittable := None |};
     inferences := [];
     conditionalHints := [] |}.

Example urgent_task_goes_first :
  match generateDailyPlan [due_in_two_hours] settings (Some InvalidDate) world with
  | (Ok plan, _) =>
      match now (sections plan), next (sections plan), later (sections plan) with
      | [p], [], [] =>
          task p = due_in_two_hours
          /\ urgency (priorityScore p) = 1 /\ importance (priorityScore p) = 0.6
          /\ schedulingReason p = u16 "Scheduled due to urgent deadline."
          /\ overdueTasks plan = []
      | _, _, _ => False
      end
  | (Throw _, _) => False
  end.
Proof. vm_compute. repeat split. Qed.

(** A bare task after field inference: priority 3 of medium confidence and
    60 minutes of low confidence are inferred, the penalty is 0.05 + 0.1,
    and the task is placed in [next]. *)
Example bare_task_after_inference :
  match inferTaskFields (structured "Tidy the desk") None world with
  | (Ok t, w) =>
      map fst (inferences t) = [priority_field; duration_field]
      /\ match generateDailyPlan [t] settings None w with
         | (Ok plan, _) =>
             match now (sections plan), next (sections plan), later (sections plan) with
             | [], [p], [] =>
                 urgency (priorityScore p) = 0.5 /\ importance (priorityScore p) = 0.6
                 /\ uncertaintyPenalty (priorityScore p) = 0.05 + 0.1
                 /\ total (priorityScore p) = 0.5 * 0.3 + 0.6 * 0.25 + 0.15 + 0.15 + 0.15 - (0.05 + 0.1)
             | _, _, _ => False
             end
         | (Throw _, _) => False
         end
  | (Throw _, _) => False
  end.
Proof. vm_compute. repeat split. Qed.

(** In this line the deadline pattern first matches [by today], which is
    neither [today] nor [tomorrow]: no deadline is set. *)
Example urgent_report :
  match parseTaskLine (u16 "URGENT: finish report by today") world with
  | (Ok (Some t), _) =>
      title t = u16 ": finish report"
      /\ priority t = Some 5 /\ duration t = Some 30 /\ deadline t = None
      /\ map fst (inferences t) = [priority_field; duration_field]
  | _ => False
  end.
Proof. vm_compute. repeat split. Qed.

Example two_hours_tomorrow :
  match parseTaskLine (u16 "design logo 2 hours tomorrow") world with
  | (Ok (Some t), _) =>
      title t = u16 "design logo"
      /\ priority t = Some 3 /\ duration t = Some 120
      /\ deadline t = Some (TimeValue 1730653200000)
  | _ => False
  end.
Proof. vm_compute. repeat split. Qed.

(** With a key and a service out of reach, the local parser answers. *)
Example unreachable_service :
  match parseFreeformTasks (Some (u16 "key")) (u16 "buy milk") world with
  | (Ok (FromLocal r), w) =>
      map title_of (extractedTasks r) = [u16 "buy milk"]
      /\ ambiguousLines r = [] /\ parse_confidence r = medium
      /\ List.length (console w) = 3%nat
  | _ => False
  end.
Proof. vm_compute. repeat split. Qed.

End Checks.


(** ** Further worked examples *)

Module Scenarios.
Import Examples TaskMasterPro.
Local Open Scope float_scope.

(** The reply with one task that lacks the inference of the deadline is
    validated, its priority 9 clamped to 5 and its duration set to 60; read
    at the type [InferredTask] it is [supplier_task]; planning it throws a
    [TypeError]. *)
Example a_validated_reply_that_cannot_be_planned :
  match validateAndTransformGeminiResponse numbered_payload world with
  | (Ok r, w) =>
      map as_InferredTask (r_extractedTasks r) = [Some supplier_task]
      /\ match generateDailyPlan [supplier_task] defaultSettings None w with
         | (Throw TypeError, _) => True
         | _ => False
         end
  | (Throw _, _) => False
  end.
Proof. vm_compute. repeat split. Qed.

(** A task added to the empty form and submitted as it is: it is named by
    the clock, and planned in [now] for its high priority. *)
Example a_new_task_submitted_as_it_is :
  match TaskPlanning.addStructuredTask [] world with
  | (Ok tasks, w) =>
      map TaskPlanning.id tasks = [u16 "1730505600000"]
      /\ match handleStructuredSubmit tasks defaultSettings
                 {| currentPlan := None; isProcessing := false; error := None |} w with
         | (Ok view, _) =>
             error view = None
             /\ match currentPlan view with
                | Some plan =>
                    match now (sections plan), next (sections plan), later (sections plan) with
                    | [p], [], [] =>
                        total (priorityScore p) = 0.5 * 0.3 + 5 / 5 * 0.25 + 0.15 + 0.15 + 0.15
                        /\ schedulingReason p = u16 "Scheduled due to high priority."
                    | _, _, _ => False
                    end
                | None => False
                end
         | (Throw _, _) => False
         end
  | (Throw _, _) => False
  end.
Proof. vm_compute. repeat split. Qed.

(** Three lines through the local parser and the planner: the urgent line
    with a stated duration goes to [now]; the two others go to [next], the
    one of the higher total first. *)
Example three_lines_planned :
  match parseFreeformTasks None
          (u16 "buy milk" ++ [10%N] ++ u16 "urgent call bank 10 min" ++ [10%N]
           ++ u16 "important write report") world with
  | (Ok (FromLocal r), w) =>
      match generateDailyPlan (extractedTasks r) defaultSettings None w with
      | (Ok plan, _) =>
          map (fun p => title_of (task p)) (now (sections plan)) = [u16 "call bank"]
          /\ map (fun p => title_of (task p)) (next (sections plan))
             = [u16 "write report"; u16 "buy milk"]
          /\ later (sections plan) = []
          /\ totalTasks (metadata plan) = 3%nat
      | (Throw _, _) => False
      end
  | _ => False
  end.
Proof. vm_compute. repeat split. Qed.

(** [due tomorrow] is read as [due ] and a word, and gives no deadline;
    [tomorrow] alone does. *)
Example due_tomorrow_gives_no_deadline :
  fst (line_deadline (u16 "send invoice due tomorrow") world) = Ok None
  /\ fst (line_deadline (u16 "send invoice tomorrow") world)
     = Ok (Some (TimeValue 1730653200000, high, u16 "Due tomorrow by end of work day")).
Proof. vm_compute. repeat split. Qed.

(** A key word inside a longer word counts: [follow] holds [low], so the
    line is of low priority and its title loses the three letters. *)
Example a_key_word_inside_a_word :
  line_priority (u16 "follow up with Sam")
  = (2, medium, u16 "Detected low priority indicators")
  /\ clean_title (u16 "follow up with Sam") = u16 "fol up with Sam".
Proof. vm_compute. split; reflexivity. Qed.

End Scenarios.
